(** * 10-card stud: hand evaluator and round state machine

    A shallow embedding of [lib/poker.ts] (hand evaluation), of
    [lib/game.ts] (the "weakest reveals" state machine) and of the states
    the actions of [lib/online-game.ts] compute, followed by the properties
    of the engine.

    Conventions of the embedding.
    - A JavaScript [number] is a [Z].  Every number the engine computes is an
      integer of magnitude below 2^53 (the largest is a strength, below
      9 * 10^10), so the double arithmetic of the source is exact and the
      integer reading loses nothing.  Array lengths and indices are [nat].
    - Code that can throw returns a [result]: [Ok v] or [Throw e].
    - Arrays are lists; [Map<Rank, number>] is an association list in
      insertion order, which is the order [entries()] yields. *)

From Stdlib Require Import String Bool Arith ZArith Lia List Permutation Sorted.
Import ListNotations.
Open Scope Z_scope.

(** ** Errors *)

Inductive exn : Type :=
| Error (msg : string)  (* [throw new Error(msg)] *)
| TypeError             (* a property read on [undefined] or [null] *)
| Undefined             (* an [undefined]/[null] value reaching a position
                           the source types as defined; the model stops *)
| OutOfFuel.            (* the fuel of a modelled [while] loop ran out *)

Inductive result (A : Type) : Type :=
| Ok (a : A)
| Throw (e : exn).
Arguments Ok {A} a.
Arguments Throw {A} e.

Definition bind {A B : Type} (m : result A) (f : A -> result B) : result B :=
  match m with
  | Ok a => f a
  | Throw e => Throw e
  end.

Notation "x <- m ;; k" := (bind m (fun x => k))
  (at level 61, m at next level, right associativity).

(** [a[i]] followed by a property read: a [TypeError] past the end. *)
Definition idx {A : Type} (a : list A) (i : nat) : result A :=
  match nth_error a i with
  | Some x => Ok x
  | None => Throw TypeError
  end.

(** [a[i]] used as a value: [undefined] past the end. *)
Definition at_index {A : Type} (a : list A) (i : nat) : result A :=
  match nth_error a i with
  | Some x => Ok x
  | None => Throw Undefined
  end.

(** [a.map(f)] for a callback that may throw. *)
Fixpoint mapM {A B : Type} (f : A -> result B) (l : list A) : result (list B) :=
  match l with
  | [] => Ok []
  | x :: rest =>
      y <- f x ;;
      ys <- mapM f rest ;;
      Ok (y :: ys)
  end.

(** A [for ... of] loop over [l] updating one local, with a body that may
    throw. *)
Fixpoint foldM {A S : Type} (body : S -> A -> result S) (l : list A) (s : S)
  : result S :=
  match l with
  | [] => Ok s
  | x :: rest =>
      s' <- body s x ;;
      foldM body rest s'
  end.

(** ** [Array.prototype.sort] with a comparator

    The sort is stable; [cmp a b <= 0] keeps [a] before [b].  For the
    comparators of this program (total orders on the sorted values) every
    correct sort returns the same array, see [sortBy_unique]. *)

Section Sort.
Context {A : Type} (cmp : A -> A -> Z).

Fixpoint insertBy (x : A) (l : list A) : list A :=
  match l with
  | [] => [x]
  | y :: rest => if cmp x y <=? 0 then x :: y :: rest else y :: insertBy x rest
  end.

Definition sortBy (l : list A) : list A := fold_right insertBy [] l.

(** What the comparator says of two elements left in this order. *)
Definition before (a b : A) : Prop := cmp a b <= 0.
End Sort.

(** ** Cards ([lib/cards.ts]) *)

(** Modelled from the spec: the card module is not part of the sources; a
    card is an id, one of four suits and a rank in 2..14 (14 is the ace). *)
Inductive Suit : Type := Hearts | Diamonds | Clubs | Spades.

Record Card : Type := mkCard {
  card_id : string;   (* [id] *)
  suit : Suit;
  rank : Z
}.

Definition Suit_eqb (a b : Suit) : bool :=
  match a, b with
  | Hearts, Hearts | Diamonds, Diamonds | Clubs, Clubs | Spades, Spades => true
  | _, _ => false
  end.

(** Modelled from the spec: the type [Rank] admits 2..14 only. *)
Definition valid_rank (r : Z) : Prop := 2 <= r <= 14.
Definition valid_card (c : Card) : Prop := valid_rank (rank c).

(** ** Hand evaluator ([lib/poker.ts]) *)

Inductive HandRank : Type :=
| StraightFlush | FourOfAKind | FullHouse | Flush | Straight
| ThreeOfAKind | TwoPair | OnePair | HighCard.

Definition HAND_RANK_VALUES (h : HandRank) : Z :=
  match h with
  | StraightFlush => 8
  | FourOfAKind => 7
  | FullHouse => 6
  | Flush => 5
  | Straight => 4
  | ThreeOfAKind => 3
  | TwoPair => 2
  | OnePair => 1
  | HighCard => 0
  end.

Record HandResult : Type := mkHandResult {
  hand_rank : HandRank;   (* [rank] *)
  cards : list Card;
  kickers : list Z;
  strength : Z
}.

(** [Map.get] and [Map.set] on the insertion-ordered entries. *)
Fixpoint map_get (m : list (Z * Z)) (k : Z) : option Z :=
  match m with
  | [] => None
  | (k', v) :: rest => if k' =? k then Some v else map_get rest k
  end.

Fixpoint map_set (m : list (Z * Z)) (k v : Z) : list (Z * Z) :=
  match m with
  | [] => [(k, v)]
  | (k', v') :: rest =>
      if k' =? k then (k', v) :: rest else (k', v') :: map_set rest k v
  end.

(** [counts.get(card.rank) || 0] *)
Definition get_or_0 (m : list (Z * Z)) (k : Z) : Z :=
  match map_get m k with
  | Some v => v
  | None => 0
  end.

Definition getRankCounts (cards : list Card) : list (Z * Z) :=
  fold_left (fun counts card =>
               map_set counts (rank card) (get_or_0 counts (rank card) + 1))
            cards [].

Definition isFlush (cards : list Card) : result bool :=
  c0 <- idx cards 0 ;;
  Ok (forallb (fun c => Suit_eqb (suit c) (suit c0)) cards).

Record StraightInfo : Type := mkStraight {
  is_straight : bool;   (* [isStraight] *)
  highCard : Z
}.

(** [ranks[i] === v]; [undefined] is equal to no number. *)
Definition index_is (ranks : list Z) (i : nat) (v : Z) : bool :=
  match nth_error ranks i with
  | Some r => r =? v
  | None => false
  end.

(** The loop [for (i = 1; i < ranks.length; i++)] of [isStraight]: [true]
    when it runs to the end, [false] when it returns early. *)
Fixpoint consecutive (ranks : list Z) : bool :=
  match ranks with
  | a :: (b :: _) as rest => if negb (b =? a + 1) then false else consecutive rest
  | _ => true
  end.

(** [isStraight] is private to the module and called on five cards only;
    on fewer cards the read [ranks[4]] is [undefined], where the model stops
    with [Undefined]. *)
Definition isStraight (cards : list Card) : result StraightInfo :=
  let ranks := sortBy (fun a b => a - b) (map rank cards) in
  if index_is ranks 0 2 && index_is ranks 1 3 && index_is ranks 2 4
     && index_is ranks 3 5 && index_is ranks 4 14
  then Ok (mkStraight true 5)
  else if consecutive ranks
       then (h <- at_index ranks 4 ;; Ok (mkStraight true h))
       else Ok (mkStraight false 0).

(** The loop of [calculateStrength], from index [i] on. *)
Fixpoint addKickers (i : nat) (kickers : list Z) (strength : Z) : Z :=
  match kickers with
  | [] => strength
  | k :: rest =>
      if (i <? 5)%nat
      then addKickers (S i) rest (strength + k * 15 ^ (4 - Z.of_nat i))
      else strength
  end.

Definition calculateStrength (handRank : HandRank) (kickers : list Z) : Z :=
  addKickers 0 kickers (HAND_RANK_VALUES handRank * 10000000000).

(** The comparator of [evaluateHand]: count descending, then rank
    descending.  An entry is [(rank, count)]. *)
Definition countsCmp (a b : Z * Z) : Z :=
  if negb (snd b =? snd a) then snd b - snd a else fst b - fst a.

(** The object every [return] of [evaluateHand] builds. *)
Definition handOf (r : HandRank) (cards : list Card) (kickers : list Z)
  : HandResult :=
  mkHandResult r cards kickers (calculateStrength r kickers).

Definition evaluateHand (cards : list Card) : result HandResult :=
  if negb (length cards =? 5)%nat
  then Throw (Error "Hand must have exactly 5 cards")
  else
    let rankCounts := getRankCounts cards in
    let counts := sortBy countsCmp rankCounts in
    flush <- isFlush cards ;;
    straight <- isStraight cards ;;
    if flush && is_straight straight
    then Ok (handOf StraightFlush cards [highCard straight])
    else
      c0 <- idx counts 0 ;;
      if snd c0 =? 4
      then (c1 <- idx counts 1 ;;
            Ok (handOf FourOfAKind cards [fst c0; fst c1]))
      else
        fullHouse <- (if snd c0 =? 3
                      then (c1 <- idx counts 1 ;; Ok (snd c1 =? 2))
                      else Ok false) ;;
        if fullHouse
        then (c1 <- idx counts 1 ;;
              Ok (handOf FullHouse cards [fst c0; fst c1]))
        else if flush
        then Ok (handOf Flush cards
                        (sortBy (fun a b => b - a) (map rank cards)))
        else if is_straight straight
        then Ok (handOf Straight cards [highCard straight])
        else if snd c0 =? 3
        then (c1 <- idx counts 1 ;;
              c2 <- idx counts 2 ;;
              Ok (handOf ThreeOfAKind cards [fst c0; fst c1; fst c2]))
        else
          twoPair <- (if snd c0 =? 2
                      then (c1 <- idx counts 1 ;; Ok (snd c1 =? 2))
                      else Ok false) ;;
          if twoPair
          then (c1 <- idx counts 1 ;;
                c2 <- idx counts 2 ;;
                Ok (handOf TwoPair cards
                           [Z.max (fst c0) (fst c1); Z.min (fst c0) (fst c1);
                            fst c2]))
          else if snd c0 =? 2
          then (c1 <- idx counts 1 ;;
                c2 <- idx counts 2 ;;
                c3 <- idx counts 3 ;;
                Ok (handOf OnePair cards [fst c0; fst c1; fst c2; fst c3]))
          else Ok (handOf HighCard cards
                          (sortBy (fun a b => b - a) (map rank cards))).

(** [combinations]: the [for] loop of [backtrack] over the elements from
    [start] on, given as the suffix [rest = array.slice(start)].  The call
    [backtrack(i + 1, current)] inside the loop is the test on the length
    followed by the same loop on the shorter suffix. *)
Fixpoint backtrackLoop {T : Type} (k : nat) (rest : list T) (current : list T)
  : list (list T) :=
  match rest with
  | [] => []
  | x :: rest' =>
      (if (length (current ++ [x]) =? k)%nat
       then [current ++ [x]]
       else backtrackLoop k rest' (current ++ [x]))
      ++ backtrackLoop k rest' current
  end.

Definition backtrack {T : Type} (k : nat) (rest : list T) (current : list T)
  : list (list T) :=
  if (length current =? k)%nat then [current] else backtrackLoop k rest current.

Definition combinations {T : Type} (array : list T) (k : nat) : list (list T) :=
  backtrack k array [].

Definition findBestHand (cards : list Card) : result HandResult :=
  if (length cards <? 5)%nat
  then Throw (Error "Need at least 5 cards to evaluate")
  else if (length cards =? 5)%nat
  then evaluateHand cards
  else
    let allCombinations := combinations cards 5 in
    bestHand <- foldM (fun (bestHand : option HandResult) combo =>
                         hand <- evaluateHand combo ;;
                         match bestHand with
                         | None => Ok (Some hand)
                         | Some best =>
                             if strength hand >? strength best
                             then Ok (Some hand)
                             else Ok (Some best)
                         end)
                      allCombinations None ;;
    match bestHand with
    | Some best => Ok best
    | None => Throw Undefined
    end.

Definition compareHands (a b : HandResult) : Z := strength a - strength b.

(** ** Round state machine ([lib/game.ts]) *)

Inductive Difficulty : Type := normal | hard | hell | nightmare.

(** [name] and [description] are display strings and are left out. *)
Record DifficultyConfig : Type := mkConfig {
  cfg_holeCards : nat;   (* [holeCards] *)
  cfg_doorCards : nat    (* [doorCards] *)
}.

Definition DIFFICULTY_CONFIGS (d : Difficulty) : DifficultyConfig :=
  match d with
  | normal => mkConfig 5 5
  | hard => mkConfig 4 6
  | hell => mkConfig 2 8
  | nightmare => mkConfig 0 5
  end.

Record Player : Type := mkPlayer {
  player_id : Z;   (* [id] *)
  name : string;
  doorCards : list Card;
  holeCards : list Card;
  revealedHoleCards : list Card
}.

Inductive Phase : Type := Dealing | Revealing | Showdown | Finished.

Definition Phase_eqb (a b : Phase) : bool :=
  match a, b with
  | Dealing, Dealing | Revealing, Revealing
  | Showdown, Showdown | Finished, Finished => true
  | _, _ => false
  end.

Record RevealEvent : Type := mkEvent {
  round : Z;
  playerIds : list Z;
  ev_cards : list (Z * Card)   (* [cards]: pairs [{ playerId, card }] *)
}.

Record GameState : Type := mkState {
  players : list Player;
  deadCards : list Card;
  phase : Phase;
  currentRound : Z;
  revealHistory : list RevealEvent;
  winner : option (list Player);   (* [null] is [None] *)
  waitingForPlayers : list Z
}.

Definition getRevealedCards (player : Player) : list Card :=
  doorCards player ++ revealedHoleCards player.

Definition getAllCards (player : Player) : list Card :=
  doorCards player ++ revealedHoleCards player ++ holeCards player.

Definition getCurrentStrength (player : Player) : result HandResult :=
  findBestHand (getRevealedCards player).

Definition getFinalStrength (player : Player) : result HandResult :=
  findBestHand (getAllCards player).

(** [deck.slice(a, b)] *)
Definition slice {A : Type} (l : list A) (a b : nat) : list A :=
  firstn (b - a) (skipn a l).

(** The dealing loop of [initializeGame], from seat [i] and deck position
    [cardIndex] on; it returns the players pushed and the final
    [cardIndex]. *)
Fixpoint dealPlayers (deck : list Card) (playerConfig : DifficultyConfig)
    (names : list string) (i : nat) (cardIndex : nat) : list Player * nat :=
  match names with
  | [] => ([], cardIndex)
  | playerName :: rest =>
      let config := if (i =? 0)%nat then playerConfig
                    else DIFFICULTY_CONFIGS normal in
      let door := slice deck cardIndex (cardIndex + cfg_doorCards config) in
      let cardIndex1 := (cardIndex + cfg_doorCards config)%nat in
      let hole := slice deck cardIndex1 (cardIndex1 + cfg_holeCards config) in
      let cardIndex2 := (cardIndex1 + cfg_holeCards config)%nat in
      let '(ps, final) := dealPlayers deck playerConfig rest (S i) cardIndex2 in
      (mkPlayer (Z.of_nat i) playerName door hole [] :: ps, final)
  end.

(** [deck] stands for the value of [shuffleDeck(createDeck())]; the
    optional argument [difficulty] (default ["normal"]) is explicit. *)
Definition initializeGame (playerNames : list string) (difficulty : Difficulty)
    (deck : list Card) : result GameState :=
  let playerCount := length playerNames in
  if (playerCount <? 2)%nat || (5 <? playerCount)%nat
  then Throw (Error "Game requires 2-5 players")
  else
    let '(players, cardIndex) :=
      dealPlayers deck (DIFFICULTY_CONFIGS difficulty) playerNames 0 0 in
    let deadCards := skipn cardIndex deck in
    Ok (mkState players deadCards Revealing 0 [] None []).

(** The [for ... of] loop of [findWeakestPlayers] that finds the minimum. *)
Definition minOver (strengths : list (Player * HandResult)) (init : Z) : Z :=
  fold_left (fun minStrength s =>
               if strength (snd s) <? minStrength
               then strength (snd s) else minStrength)
            strengths init.

Definition findWeakestPlayers (players : list Player) : result (list Player) :=
  let playersWithHoleCards :=
    filter (fun p => (0 <? length (holeCards p))%nat) players in
  if (length playersWithHoleCards =? 0)%nat
  then Ok []
  else
    strengths <- mapM (fun p => s <- getCurrentStrength p ;; Ok (p, s))
                      playersWithHoleCards ;;
    s0 <- idx strengths 0 ;;
    let minStrength := minOver strengths (strength (snd s0)) in
    Ok (map fst
            (filter (fun s => strength (snd s) =? minStrength) strengths)).

Definition startRevealRound (state : GameState) : result GameState :=
  if negb (Phase_eqb (phase state) Revealing)
  then Ok state
  else
    weakestPlayers <- findWeakestPlayers (players state) ;;
    if (length weakestPlayers =? 0)%nat
    then Ok (mkState (players state) (deadCards state) Showdown
                     (currentRound state) (revealHistory state)
                     (winner state) [])
    else Ok (mkState (players state) (deadCards state) (phase state)
                     (currentRound state) (revealHistory state)
                     (winner state) (map player_id weakestPlayers)).

(** [a.findIndex(f)]; [None] is [-1]. *)
Fixpoint findIndex {A : Type} (f : A -> bool) (l : list A) : option nat :=
  match l with
  | [] => None
  | x :: rest =>
      if f x then Some 0%nat
      else match findIndex f rest with
           | Some i => Some (S i)
           | None => None
           end
  end.

(** [a[i] = x] on a copy, for an index inside the array (the only use: the
    index comes from [findIndex]). *)
Fixpoint set_index {A : Type} (l : list A) (i : nat) (x : A) : list A :=
  match l, i with
  | [], _ => []
  | _ :: rest, O => x :: rest
  | y :: rest, S i' => y :: set_index rest i' x
  end.

Definition revealSelectedCard (state : GameState) (playerId : Z)
    (cardId : string) : result GameState :=
  if negb (Phase_eqb (phase state) Revealing) then Ok state
  else if negb (existsb (fun w => w =? playerId) (waitingForPlayers state))
  then Ok state
  else
    match findIndex (fun p => player_id p =? playerId) (players state) with
    | None => Ok state
    | Some playerIndex =>
        player <- idx (players state) playerIndex ;;
        match findIndex (fun c => String.eqb (card_id c) cardId)
                        (holeCards player) with
        | None => Ok state
        | Some cardIndex =>
            card <- at_index (holeCards player) cardIndex ;;
            let newHoleCards :=
              filter (fun c => negb (String.eqb (card_id c) cardId))
                     (holeCards player) in
            let newRevealedHoleCards := revealedHoleCards player ++ [card] in
            let newPlayers :=
              set_index (players state) playerIndex
                        (mkPlayer (player_id player) (name player)
                                  (doorCards player) newHoleCards
                                  newRevealedHoleCards) in
            let newWaitingForPlayers :=
              filter (fun w => negb (w =? playerId))
                     (waitingForPlayers state) in
            let newRevealHistory :=
              match find (fun e => round e =? currentRound state)
                         (revealHistory state) with
              | Some _ =>
                  map (fun e =>
                         if round e =? currentRound state
                         then mkEvent (round e) (playerIds e ++ [playerId])
                                      (ev_cards e ++ [(playerId, card)])
                         else e)
                      (revealHistory state)
              | None =>
                  revealHistory state
                  ++ [mkEvent (currentRound state) [playerId]
                              [(playerId, card)]]
              end in
            if (length newWaitingForPlayers =? 0)%nat
            then
              let allRevealed :=
                forallb (fun p => (length (holeCards p) =? 0)%nat)
                        newPlayers in
              Ok (mkState newPlayers (deadCards state)
                          (if allRevealed then Showdown else Revealing)
                          (currentRound state + 1) newRevealHistory
                          (winner state) [])
            else
              Ok (mkState newPlayers (deadCards state) (phase state)
                          (currentRound state) newRevealHistory
                          (winner state) newWaitingForPlayers)
        end
    end.

(** The callback of [state.players.map] in [processRevealRound]: the new
    player, and what the call pushes on [revealedCards]. *)
Definition revealFirst (weakestPlayers : list Player) (player : Player)
  : Player * list (Z * Card) :=
  if existsb (fun wp => player_id wp =? player_id player) weakestPlayers
  then match holeCards player with
       | card :: rest =>
           (mkPlayer (player_id player) (name player) (doorCards player)
                     rest (revealedHoleCards player ++ [card]),
            [(player_id player, card)])
       | [] => (player, [])
       end
  else (player, []).

Definition processRevealRound (state : GameState) : result GameState :=
  if negb (Phase_eqb (phase state) Revealing)
  then Ok state
  else
    weakestPlayers <- findWeakestPlayers (players state) ;;
    if (length weakestPlayers =? 0)%nat
    then Ok (mkState (players state) (deadCards state) Showdown
                     (currentRound state) (revealHistory state)
                     (winner state) (waitingForPlayers state))
    else
      let newPlayers :=
        map (fun p => fst (revealFirst weakestPlayers p)) (players state) in
      let revealedCards :=
        flat_map (fun p => snd (revealFirst weakestPlayers p))
                 (players state) in
      let event := mkEvent (currentRound state)
                           (map player_id weakestPlayers) revealedCards in
      let allRevealed :=
        forallb (fun p => (length (holeCards p) =? 0)%nat) newPlayers in
      Ok (mkState newPlayers (deadCards state)
                  (if allRevealed then Showdown else Revealing)
                  (currentRound state + 1)
                  (revealHistory state ++ [event])
                  (winner state) []).

(** The [for ... of] loop of [determineWinner] that finds the maximum. *)
Definition maxOver (strengths : list (Player * HandResult)) (init : Z) : Z :=
  fold_left (fun maxStrength s =>
               if strength (snd s) >? maxStrength
               then strength (snd s) else maxStrength)
            strengths init.

Definition determineWinner (state : GameState) : result GameState :=
  if negb (Phase_eqb (phase state) Showdown)
  then Ok state
  else
    finalStrengths <- mapM (fun p => s <- getFinalStrength p ;; Ok (p, s))
                           (players state) ;;
    s0 <- idx finalStrengths 0 ;;
    let maxStrength := maxOver finalStrengths (strength (snd s0)) in
    let winners :=
      map fst (filter (fun s => strength (snd s) =? maxStrength)
                      finalStrengths) in
    Ok (mkState (players state) (deadCards state) Finished
                (currentRound state) (revealHistory state)
                (Some winners) (waitingForPlayers state)).

(** The [while] loop of [runFullGame], run for at most [fuel] rounds. *)
Fixpoint revealLoop (fuel : nat) (currentState : GameState)
  : result GameState :=
  if Phase_eqb (phase currentState) Revealing
  then match fuel with
       | O => Throw OutOfFuel
       | S fuel' =>
           next <- processRevealRound currentState ;;
           revealLoop fuel' next
       end
  else Ok currentState.

Definition runFullGame (fuel : nat) (state : GameState) : result GameState :=
  currentState <- revealLoop fuel state ;;
  if Phase_eqb (phase currentState) Showdown
  then determineWinner currentState
  else Ok currentState.

(** ** Notions used to state the properties *)

(** How many times the rank [r] occurs in [ranks]. *)
Definition cnt (r : Z) (ranks : list Z) : Z :=
  Z.of_nat (count_occ Z.eq_dec ranks r).

Definition sumZ (l : list Z) : Z := fold_right Z.add 0 l.

(** The entries [m] hold, for every rank seen, how often it was seen. *)
Definition counts_of (m : list (Z * Z)) (seen : list Z) : Prop :=
  NoDup (map fst m) /\
  forall r, map_get m r = if 0 <? cnt r seen then Some (cnt r seen) else None.

(** The branches of [evaluateHand] below its four local values: the flush
    flag, the straight test, the sorted rank counts and the ranks in
    descending order ([evaluateHand_classify] is the unfolding). *)
Definition classify (cards : list Card) (flush : bool)
    (straight : StraightInfo) (counts : list (Z * Z)) (desc : list Z)
  : result HandResult :=
  if flush && is_straight straight
  then Ok (handOf StraightFlush cards [highCard straight])
  else
    c0 <- idx counts 0 ;;
    if snd c0 =? 4
    then (c1 <- idx counts 1 ;;
          Ok (handOf FourOfAKind cards [fst c0; fst c1]))
    else
      fullHouse <- (if snd c0 =? 3
                    then (c1 <- idx counts 1 ;; Ok (snd c1 =? 2))
                    else Ok false) ;;
      if fullHouse
      then (c1 <- idx counts 1 ;;
            Ok (handOf FullHouse cards [fst c0; fst c1]))
      else if flush
      then Ok (handOf Flush cards desc)
      else if is_straight straight
      then Ok (handOf Straight cards [highCard straight])
      else if snd c0 =? 3
      then (c1 <- idx counts 1 ;;
            c2 <- idx counts 2 ;;
            Ok (handOf ThreeOfAKind cards [fst c0; fst c1; fst c2]))
      else
        twoPair <- (if snd c0 =? 2
                    then (c1 <- idx counts 1 ;; Ok (snd c1 =? 2))
                    else Ok false) ;;
        if twoPair
        then (c1 <- idx counts 1 ;;
              c2 <- idx counts 2 ;;
              Ok (handOf TwoPair cards
                         [Z.max (fst c0) (fst c1); Z.min (fst c0) (fst c1);
                          fst c2]))
        else if snd c0 =? 2
        then (c1 <- idx counts 1 ;;
              c2 <- idx counts 2 ;;
              c3 <- idx counts 3 ;;
              Ok (handOf OnePair cards [fst c0; fst c1; fst c2; fst c3]))
        else Ok (handOf HighCard cards desc).

(** The number of kickers each category carries. *)
Definition kickerCount (h : HandRank) : nat :=
  match h with
  | StraightFlush | Straight => 1
  | FourOfAKind | FullHouse => 2
  | ThreeOfAKind | TwoPair => 3
  | OnePair => 4
  | Flush | HighCard => 5
  end.

(** Kicker lists compared lexicographically, most significant first. *)
Fixpoint lexCompare (k1 k2 : list Z) : comparison :=
  match k1, k2 with
  | [], [] => Eq
  | [], _ :: _ => Lt
  | _ :: _, [] => Gt
  | a :: k1', b :: k2' =>
      match a ?= b with
      | Eq => lexCompare k1' k2'
      | c => c
      end
  end.

(** What the sorted rank counts [cs] of [n] cards with ranks [ranks] are:
    positive counts of ranks of the hand, adding up to [n], in descending
    order. *)
Definition count_facts (ranks : list Z) (n : Z) (cs : list (Z * Z)) : Prop :=
  sumZ (map snd cs) = n /\
  Forall (fun e => 1 <= snd e /\ In (fst e) ranks) cs /\
  StronglySorted (fun a b => snd b <= snd a) cs.

(** A result with its [cards] replaced. *)
Definition withCards (cards : list Card) (h : HandResult) : HandResult :=
  mkHandResult (hand_rank h) cards (kickers h) (strength h).

(** Five distinct cards of a 52-card deck: ranks in 2..14, no (suit, rank)
    pair twice. *)
Definition standard_cards (cards : list Card) : Prop :=
  Forall valid_card cards /\ NoDup (map (fun c => (suit c, rank c)) cards).

(** Cards of given ranks, to compute what depends on the ranks only. *)
Definition rankCards (ranks : list Z) : list Card :=
  map (mkCard "" Hearts) ranks.

(** Equality of cards, to pick the cards of a subset out of a hand. *)
Definition Card_eqb (a b : Card) : bool :=
  String.eqb (card_id a) (card_id b) && Suit_eqb (suit a) (suit b)
  && (rank a =? rank b).

(** The body of the loop of [findBestHand]. *)
Definition keepBest (bestHand : option HandResult) (combo : list Card)
  : result (option HandResult) :=
  hand <- evaluateHand combo ;;
  match bestHand with
  | None => Ok (Some hand)
  | Some best =>
      if strength hand >? strength best then Ok (Some hand) else Ok (Some best)
  end.

(** ** Sample hands *)

Definition wheelHand : list Card :=
  [mkCard "AH" Hearts 14; mkCard "2S" Spades 2; mkCard "3H" Hearts 3;
   mkCard "4C" Clubs 4; mkCard "5H" Hearts 5].

Definition suitedWheelHand : list Card :=
  [mkCard "AH" Hearts 14; mkCard "2H" Hearts 2; mkCard "3H" Hearts 3;
   mkCard "4H" Hearts 4; mkCard "5H" Hearts 5].

Definition sixHighHand : list Card :=
  [mkCard "2D" Diamonds 2; mkCard "3D" Diamonds 3; mkCard "4S" Spades 4;
   mkCard "5C" Clubs 5; mkCard "6C" Clubs 6].

Definition flushHand : list Card :=
  [mkCard "2D" Diamonds 2; mkCard "4D" Diamonds 4; mkCard "6D" Diamonds 6;
   mkCard "8D" Diamonds 8; mkCard "10D" Diamonds 10].

Definition pairHand : list Card :=
  [mkCard "KS" Spades 13; mkCard "KC" Clubs 13; mkCard "9S" Spades 9;
   mkCard "7C" Clubs 7; mkCard "2C" Clubs 2].

Definition sevenCards : list Card :=
  pairHand ++ [mkCard "KH" Hearts 13; mkCard "3D" Diamonds 3].

(** One player waiting in a round that is under way. *)
Definition playerA : Player :=
  mkPlayer 0 "A" pairHand [mkCard "KH" Hearts 13; mkCard "3D" Diamonds 3] [].

Definition playerB : Player :=
  mkPlayer 1 "B" flushHand [mkCard "QH" Hearts 12] [].

Definition midGame : GameState :=
  mkState [playerA; playerB] [] Revealing 0 [] None [0].

(** The strength of what a player shows (door and revealed hole cards),
    and of the full hand; 0 where [findBestHand] throws. *)
Definition currentStrength (p : Player) : Z :=
  match findBestHand (doorCards p ++ revealedHoleCards p) with
  | Ok h => strength h
  | Throw _ => 0
  end.

Definition finalStrength (p : Player) : Z :=
  match findBestHand (doorCards p ++ revealedHoleCards p ++ holeCards p) with
  | Ok h => strength h
  | Throw _ => 0
  end.

(** What [players.map(p => ({ player: p, strength: ... }))] holds, [val]
    being the strength of a player. *)
Definition paired (val : Player -> Z) (l : list Player)
    (hs : list (Player * HandResult)) : Prop :=
  Forall2 (fun p s => fst s = p /\ val p = strength (snd s)) l hs.

Definition holdsHoleCard (p : Player) : bool := (0 <? length (holeCards p))%nat.

(** A state in which a player with a hole card shows four cards only. *)
Definition shortHanded : Player :=
  mkPlayer 0 "A" (firstn 4 pairHand) [mkCard "KH" Hearts 13] [].

Definition shortRevealing : GameState :=
  mkState [shortHanded; playerB] [] Revealing 0 [] None [].

Definition shortShowdown : GameState :=
  mkState [mkPlayer 0 "A" (firstn 4 pairHand) [] []; playerB] [] Showdown 3
          [] None [].

Definition tiedShowdown : GameState :=
  mkState [mkPlayer 0 "A" pairHand [] []; mkPlayer 1 "B" wheelHand [] [];
           mkPlayer 2 "C" pairHand [] []; mkPlayer 3 "D" wheelHand [] []]
          [] Showdown 5 [] None [].

(** The number of hole cards still hidden. *)
Definition hidden (ps : list Player) : nat :=
  list_sum (map (fun p => length (holeCards p)) ps).

(** [n] reveal rounds in a row. *)
Fixpoint rounds (n : nat) (s : GameState) : result GameState :=
  match n with
  | O => Ok s
  | S n' => s' <- processRevealRound s ;; rounds n' s'
  end.

(** A state the loop of [runFullGame] can run on: somebody plays, everybody
    has five door cards or more, and the phase is [revealing] exactly while
    a hole card is hidden, [showdown] after. *)
Definition playable (s : GameState) : Prop :=
  players s <> []
  /\ Forall (fun p => (5 <= length (doorCards p))%nat) (players s)
  /\ (phase s = Revealing /\ (0 < hidden (players s))%nat
      \/ phase s = Showdown).

(** Modelled from the spec: [createDeck] and [shuffleDeck] are not part of
    the sources; the shuffled deck is 52 cards with pairwise distinct ids. *)
Definition shuffled_deck (deck : list Card) : Prop :=
  length deck = 52%nat /\ NoDup (map card_id deck).

(** The configuration of seat [i] in [initializeGame]. *)
Definition seatConfig (playerConfig : DifficultyConfig) (i : nat)
  : DifficultyConfig :=
  if (i =? 0)%nat then playerConfig else DIFFICULTY_CONFIGS normal.

(** ** Reachable states *)

(** One transition of the state machine. *)
Inductive step : GameState -> GameState -> Prop :=
| step_start (s s' : GameState) :
    startRevealRound s = Ok s' -> step s s'
| step_reveal (s s' : GameState) (playerId : Z) (cardId : string) :
    revealSelectedCard s playerId cardId = Ok s' -> step s s'
| step_process (s s' : GameState) :
    processRevealRound s = Ok s' -> step s s'
| step_winner (s s' : GameState) :
    determineWinner s = Ok s' -> step s s'.

Inductive reachable (s0 : GameState) : GameState -> Prop :=
| reach_init : reachable s0 s0
| reach_step (s s' : GameState) :
    reachable s0 s -> step s s' -> reachable s0 s'.

(** The cards of a player: door, hole and revealed hole cards. *)
Definition allCards (p : Player) : list Card :=
  doorCards p ++ holeCards p ++ revealedHoleCards p.

(** [p] is the player [p0] of the deal: same seat, same door cards, the
    same cards in all, no card (no card id) twice. *)
Definition same_hand (p0 p : Player) : Prop :=
  player_id p = player_id p0
  /\ doorCards p = doorCards p0
  /\ Permutation (allCards p) (allCards p0)
  /\ NoDup (map card_id (allCards p)).

(** From [p] to [p'] nothing moved, or exactly one hole card moved to the
    end of the revealed ones. *)
Definition moves_at_most_one (p p' : Player) : Prop :=
  player_id p' = player_id p
  /\ doorCards p' = doorCards p
  /\ ((holeCards p' = holeCards p
       /\ revealedHoleCards p' = revealedHoleCards p)
      \/ exists c pre post,
          holeCards p = pre ++ c :: post
          /\ holeCards p' = pre ++ post
          /\ revealedHoleCards p' = revealedHoleCards p ++ [c]
          /\ length (holeCards p) = S (length (holeCards p'))).

(** Modelled from the spec: a deck of the 52 cards, four suits of ranks
    2..14, each with an id of its own (the id format is this model's). *)
Definition suitName (s : Suit) : string :=
  match s with
  | Hearts => "H" | Diamonds => "D" | Clubs => "C" | Spades => "S"
  end.

Definition rankNames : list (Z * string) :=
  [(2, "2"%string); (3, "3"%string); (4, "4"%string); (5, "5"%string); (6, "6"%string); (7, "7"%string); (8, "8"%string);
   (9, "9"%string); (10, "10"%string); (11, "J"%string); (12, "Q"%string); (13, "K"%string); (14, "A"%string)].

Definition standardDeck : list Card :=
  flat_map (fun s =>
              map (fun r => mkCard (String.append (suitName s) (snd r)) s (fst r))
                  rankNames)
           [Hearts; Diamonds; Clubs; Spades].

(** A two-player game dealt from [standardDeck]. *)
Definition sampleNames : list string := ["Ann"%string; "Bob"%string].

Definition sampleStart : GameState :=
  Eval vm_compute in
    match initializeGame sampleNames normal standardDeck with
    | Ok s => s
    | Throw _ => mkState [] [] Dealing 0 [] None []
    end.

(** A list of strings without repetition, decided. *)
Fixpoint distinct_strings (l : list string) : bool :=
  match l with
  | [] => true
  | x :: rest => negb (existsb (String.eqb x) rest) && distinct_strings rest
  end.

(** ** Notions used to state the further properties *)

(** [s] is a selection of elements of [l], kept in their order. *)
Inductive subseq {T : Type} : list T -> list T -> Prop :=
| subseq_nil : subseq [] []
| subseq_skip (x : T) (s l : list T) : subseq s l -> subseq s (x :: l)
| subseq_take (x : T) (s l : list T) : subseq s l -> subseq (x :: s) (x :: l).

(** The binomial coefficient, by the rule of Pascal. *)
Fixpoint choose (n k : nat) : nat :=
  match n, k with
  | _, O => 1
  | O, S _ => 0
  | S n', S k' => choose n' k' + choose n' k
  end.

(** The categories as the rules of poker word them, without the sorted
    counts of the program: all cards of one suit; five ranks in a row, or
    A-2-3-4-5; a rank held by [n] cards; two different ranks held by two
    cards each. *)
Definition sameSuit (cs : list Card) : bool :=
  forallb (fun c => forallb (fun c' => Suit_eqb (suit c) (suit c')) cs) cs.

Definition hasRank (ranks : list Z) (r : Z) : bool := existsb (Z.eqb r) ranks.

Definition runFrom (ranks : list Z) (lo : Z) : bool :=
  forallb (fun k => hasRank ranks (lo + k)) [0; 1; 2; 3; 4].

Definition isRun (ranks : list Z) : bool :=
  existsb (runFrom ranks) ranks || forallb (hasRank ranks) [14; 2; 3; 4; 5].

Definition ofAKind (ranks : list Z) (n : Z) : bool :=
  existsb (fun r => cnt r ranks =? n) ranks.

Definition twoPairs (ranks : list Z) : bool :=
  existsb (fun r1 =>
             existsb (fun r2 => negb (r1 =? r2) && (cnt r1 ranks =? 2)
                                && (cnt r2 ranks =? 2))
                     ranks)
          ranks.

(** The order of precedence of the categories. *)
Definition categoryFrom (flush run four three pair twoPair : bool) : HandRank :=
  if flush && run then StraightFlush
  else if four then FourOfAKind
  else if three && pair then FullHouse
  else if flush then Flush
  else if run then Straight
  else if three then ThreeOfAKind
  else if twoPair then TwoPair
  else if pair then OnePair
  else HighCard.

Definition textbookCategory (cs : list Card) : HandRank :=
  let ranks := map rank cs in
  categoryFrom (sameSuit cs) (isRun ranks) (ofAKind ranks 4) (ofAKind ranks 3)
               (ofAKind ranks 2) (twoPairs ranks).

(** The pieces of the state [revealSelectedCard] builds once it has found
    the player [p] at index [i] and the card [card]: the player after the
    reveal, the history after the reveal, the whole state. *)
Definition withReveal (p : Player) (cardId : string) (card : Card) : Player :=
  mkPlayer (player_id p) (name p) (doorCards p)
           (filter (fun c => negb (String.eqb (card_id c) cardId))
                   (holeCards p))
           (revealedHoleCards p ++ [card]).

Definition recordReveal (history : list RevealEvent) (currentRound playerId : Z)
    (card : Card) : list RevealEvent :=
  match find (fun e => round e =? currentRound) history with
  | Some _ =>
      map (fun e =>
             if round e =? currentRound
             then mkEvent (round e) (playerIds e ++ [playerId])
                          (ev_cards e ++ [(playerId, card)])
             else e)
          history
  | None => history ++ [mkEvent currentRound [playerId] [(playerId, card)]]
  end.

Definition afterReveal (s : GameState) (playerId : Z) (cardId : string)
    (i : nat) (p : Player) (card : Card) : GameState :=
  let newPlayers := set_index (players s) i (withReveal p cardId card) in
  let newWaiting :=
    filter (fun w => negb (w =? playerId)) (waitingForPlayers s) in
  let newHistory :=
    recordReveal (revealHistory s) (currentRound s) playerId card in
  if (length newWaiting =? 0)%nat
  then mkState newPlayers (deadCards s)
               (if forallb (fun q => (length (holeCards q) =? 0)%nat) newPlayers
                then Showdown else Revealing)
               (currentRound s + 1) newHistory (winner s) []
  else mkState newPlayers (deadCards s) (phase s) (currentRound s) newHistory
               (winner s) newWaiting.

(** The player after the first hole card is revealed, as
    [processRevealRound] does it. *)
Definition revealHead (p : Player) : Player :=
  match holeCards p with
  | card :: rest =>
      mkPlayer (player_id p) (name p) (doorCards p) rest
               (revealedHoleCards p ++ [card])
  | [] => p
  end.

(** The phases in the order the game goes through them. *)
Definition phaseRank (ph : Phase) : nat :=
  match ph with
  | Dealing => 0
  | Revealing => 1
  | Showdown => 2
  | Finished => 3
  end.

(** ** The state computed by the online actions ([lib/online-game.ts])

    The online actions are asynchronous and write the state they compute to
    the shared room record; the write, its failure (a [null] result) and the
    removal of offline players are not modelled.  What follows is the state
    each action computes before it writes. *)

(** The two tests that end [revealCardOnline] and
    [autoPlayForOfflinePlayers]: start the next round when nobody is waited
    for, name the winner in a showdown. *)
Definition settleRound (newState : GameState) : result GameState :=
  s1 <- (if Phase_eqb (phase newState) Revealing
            && (length (waitingForPlayers newState) =? 0)%nat
         then startRevealRound newState
         else Ok newState) ;;
  if Phase_eqb (phase s1) Showdown then determineWinner s1 else Ok s1.

(** The state of [revealCardOnline]. *)
Definition revealCardOnline (currentState : GameState) (playerId : Z)
    (cardId : string) : result GameState :=
  newState <- revealSelectedCard currentState playerId cardId ;;
  settleRound newState.

(** A row of the table of room players. *)
Record RoomPlayer : Type := mkRoomPlayer {
  rp_player_id : string;   (* [player_id] *)
  player_name : string;
  rp_slot : Z;             (* [slot] *)
  is_online : bool
}.

(** The state of [startGame]; [None] is its [null].  [isHost] stands for
    the outcome of the host test on the room record, [deck] for the
    shuffled deck. *)
Definition startGame (isHost : bool) (players : list RoomPlayer)
    (deck : list Card) : result (option GameState) :=
  if negb isHost then Ok None
  else if (length players <? 2)%nat || (5 <? length players)%nat
  then Ok None
  else
    let playerNames :=
      map player_name (sortBy (fun a b => rp_slot a - rp_slot b) players) in
    gameState <- initializeGame playerNames normal deck ;;
    stateWithRound <- startRevealRound gameState ;;
    Ok (Some stateWithRound).

(** The slot loop of [joinRoomById]:
    [let slot = 0; while (usedSlots.has(slot) && slot < 5) slot++;]
    run from [slot] for at most [fuel] turns; [None] when the fuel runs
    out. *)
Fixpoint slotLoop (fuel : nat) (usedSlots : list Z) (slot : Z) : option Z :=
  if existsb (Z.eqb slot) usedSlots && (slot <? 5)
  then match fuel with
       | O => None
       | S fuel' => slotLoop fuel' usedSlots (slot + 1)
       end
  else Some slot.

Definition findSlot (usedSlots : list Z) : option Z := slotLoop 5 usedSlots 0.

(** A reveal the state accepts: in phase [revealing], by a player who is
    waited for, of a hole card of the player with that id. *)
Definition eligible (s : GameState) (playerId : Z) (cardId : string) : Prop :=
  phase s = Revealing /\ In playerId (waitingForPlayers s)
  /\ exists p c,
      find (fun p => player_id p =? playerId) (players s) = Some p
      /\ In c (holeCards p) /\ card_id c = cardId.

(** One turn of the [for ... of] loop of [autoPlayForOfflinePlayers].
    [newState.players[slot]] is [undefined] out of range, and the loop goes
    on to the next slot then, as it does for a player without hole card. *)
Definition autoReveal (newState : GameState) (slot : Z) : result GameState :=
  match (if slot <? 0 then None
         else nth_error (players newState) (Z.to_nat slot)) with
  | None => Ok newState
  | Some player =>
      match holeCards player with
      | [] => Ok newState
      | unrevealedCard :: _ =>
          revealSelectedCard newState slot (card_id unrevealedCard)
      end
  end.

(** The waited-for players whose id is the slot of an offline room
    player. *)
Definition waitingOffline (currentState : GameState)
    (roomPlayers : list RoomPlayer) : list Z :=
  let offlinePlayerSlots :=
    map rp_slot (filter (fun p => negb (is_online p)) roomPlayers) in
  filter (fun slot => existsb (Z.eqb slot) offlinePlayerSlots)
         (waitingForPlayers currentState).

(** What [autoPlayForOfflinePlayers] does once it knows for whom to play;
    [None] is its [null]. *)
Definition autoPlayFrom (waitingOffline : list Z) (currentState : GameState)
  : result (option GameState) :=
  if (length waitingOffline =? 0)%nat
  then Ok None
  else
    newState <- foldM autoReveal waitingOffline currentState ;;
    settled <- settleRound newState ;;
    Ok (Some settled).

Definition autoPlayForOfflinePlayers (currentState : GameState)
    (roomPlayers : list RoomPlayer) : result (option GameState) :=
  autoPlayFrom (waitingOffline currentState roomPlayers) currentState.

(** The later version of the file differs in who counts as offline: a
    waited-for player whose slot no room player has, or whose room player
    is not online. *)
Definition waitingOfflineRevised (currentState : GameState)
    (roomPlayers : list RoomPlayer) : list Z :=
  filter (fun slot =>
            match find (fun p => rp_slot p =? slot) roomPlayers with
            | None => true
            | Some roomPlayer => negb (is_online roomPlayer)
            end)
         (waitingForPlayers currentState).

Definition autoPlayForOfflinePlayersRevised (currentState : GameState)
    (roomPlayers : list RoomPlayer) : result (option GameState) :=
  autoPlayFrom (waitingOfflineRevised currentState roomPlayers) currentState.

(** The state of [startNewGame] (the version that is given the names). *)
Definition startNewGame (playerNames : list string) (deck : list Card)
  : result GameState :=
  gameState <- initializeGame playerNames normal deck ;;
  startRevealRound gameState.

(** A room of two, Bob offline, and the state [startGame] computes for it
    from [standardDeck]. *)
Definition sampleRoom : list RoomPlayer :=
  [mkRoomPlayer "u2" "Bob" 1 false; mkRoomPlayer "u1" "Ann" 0 true].

Definition sampleOnline : GameState :=
  Eval vm_compute in
    match startGame true sampleRoom standardDeck with
    | Ok (Some s) => s
    | _ => mkState [] [] Dealing 0 [] None []
    end.

(** Players as an online game seats them: the ids 0, 1, ... in order,
    five door cards or more, hole cards with distinct ids. *)
Definition seated (ps : list Player) : Prop :=
  ps <> []
  /\ map player_id ps = map Z.of_nat (seq 0 (length ps))
  /\ Forall (fun p => (5 <= length (doorCards p))%nat) ps
  /\ Forall (fun p => NoDup (map card_id (holeCards p))) ps.

(** A round under way: somebody is waited for, nobody twice, and whoever is
    waited for holds a hole card. *)
Definition awaited (s : GameState) : Prop :=
  phase s = Revealing /\ waitingForPlayers s <> []
  /\ NoDup (waitingForPlayers s)
  /\ (forall w, In w (waitingForPlayers s) ->
                exists p, In p (players s) /\ player_id p = w
                          /\ holeCards p <> []).

(** A state of an online game under way: seated players, and either a
    round under way or the game finished, with no hole card hidden, nobody
    waited for and a winner. *)
Definition online (s : GameState) : Prop :=
  seated (players s)
  /\ (awaited s
      \/ phase s = Finished /\ hidden (players s) = 0%nat
         /\ waitingForPlayers s = []
         /\ exists w, winner s = Some w /\ w <> []).

(** * Properties *)

(** ** The error monad *)

Lemma idx_Ok {A : Type} (l : list A) (i : nat) (x : A) :
  nth_error l i = Some x -> idx l i = Ok x.
Proof. intros H; unfold idx; rewrite H; reflexivity. Qed.

(** ** Sorting *)

Section SortFacts.
Context {A : Type} (cmp : A -> A -> Z).

Lemma insertBy_perm (x : A) (l : list A) :
  Permutation (insertBy cmp x l) (x :: l).
Proof.
  induction l as [|y l IH]; simpl.
  - apply Permutation_refl.
  - destruct (cmp x y <=? 0).
    + apply Permutation_refl.
    + eapply Permutation_trans; [apply perm_skip, IH | apply perm_swap].
Qed.

Lemma sortBy_perm (l : list A) : Permutation (sortBy cmp l) l.
Proof.
  induction l as [|x l IH]; simpl.
  - apply perm_nil.
  - eapply Permutation_trans; [apply insertBy_perm | apply perm_skip, IH].
Qed.

Lemma sortBy_length (l : list A) : length (sortBy cmp l) = length l.
Proof. apply Permutation_length, sortBy_perm. Qed.

Lemma sortBy_In (l : list A) (x : A) : In x (sortBy cmp l) <-> In x l.
Proof.
  split; apply Permutation_in;
    [apply sortBy_perm | apply Permutation_sym, sortBy_perm].
Qed.

Hypothesis cmp_total : forall a b, cmp a b <= 0 \/ cmp b a <= 0.
Hypothesis cmp_trans :
  forall a b c, cmp a b <= 0 -> cmp b c <= 0 -> cmp a c <= 0.

Lemma insertBy_sorted (x : A) (l : list A) :
  StronglySorted (before cmp) l -> StronglySorted (before cmp) (insertBy cmp x l).
Proof.
  induction 1 as [|y l Hl IH Hy]; simpl.
  - constructor; [constructor | constructor].
  - destruct (Z.leb_spec (cmp x y) 0) as [Hxy|Hxy].
    + constructor.
      * constructor; assumption.
      * constructor; [exact Hxy|].
        eapply Forall_impl; [|exact Hy].
        intros z Hz. eapply cmp_trans; eassumption.
    + constructor; [exact IH|].
      assert (Hyx : before cmp y x)
        by (destruct (cmp_total x y); [lia | assumption]).
      eapply Permutation_Forall;
        [apply Permutation_sym, insertBy_perm|].
      constructor; assumption.
Qed.

Lemma sortBy_sorted (l : list A) : StronglySorted (before cmp) (sortBy cmp l).
Proof.
  induction l as [|x l IH]; simpl.
  - constructor.
  - apply insertBy_sorted, IH.
Qed.

Hypothesis cmp_antisym : forall a b, cmp a b <= 0 -> cmp b a <= 0 -> a = b.

Lemma sorted_perm_eq (l l' : list A) :
  StronglySorted (before cmp) l -> StronglySorted (before cmp) l' ->
  Permutation l l' -> l = l'.
Proof.
  intros Hl; revert l'.
  induction Hl as [|a l Hl IH Ha]; intros l' Hl' HP.
  - apply Permutation_nil in HP; subst; reflexivity.
  - destruct Hl' as [|b l' Hl' Hb].
    + apply Permutation_sym, Permutation_nil in HP; discriminate.
    + assert (Hab : a = b).
      { assert (Ha' : In a (b :: l'))
          by (eapply Permutation_in; [exact HP | left; reflexivity]).
        assert (Hb' : In b (a :: l))
          by (eapply Permutation_in;
              [apply Permutation_sym, HP | left; reflexivity]).
        destruct Ha' as [->|Ha']; [reflexivity|].
        destruct Hb' as [->|Hb']; [reflexivity|].
        rewrite Forall_forall in Ha, Hb.
        apply cmp_antisym; [apply Ha, Hb' | apply Hb, Ha']. }
      subst b. f_equal. apply IH; [exact Hl'|].
      eapply Permutation_cons_inv; exact HP.
Qed.

(** On a total order the comparator fixes the sorted array: any two
    arrangements of the same elements sort to the same array. *)
Lemma sortBy_unique (l l' : list A) :
  Permutation l l' -> sortBy cmp l = sortBy cmp l'.
Proof.
  intros HP. apply sorted_perm_eq; try apply sortBy_sorted.
  eapply Permutation_trans; [apply sortBy_perm|].
  eapply Permutation_trans; [exact HP|].
  apply Permutation_sym, sortBy_perm.
Qed.
End SortFacts.

(** The three comparators of the program are total orders. *)

Lemma countsCmp_total (a b : Z * Z) : countsCmp a b <= 0 \/ countsCmp b a <= 0.
Proof.
  unfold countsCmp.
  destruct (Z.eqb_spec (snd b) (snd a)), (Z.eqb_spec (snd a) (snd b));
    simpl; lia.
Qed.

Lemma countsCmp_trans (a b c : Z * Z) :
  countsCmp a b <= 0 -> countsCmp b c <= 0 -> countsCmp a c <= 0.
Proof.
  unfold countsCmp.
  destruct (Z.eqb_spec (snd b) (snd a)), (Z.eqb_spec (snd c) (snd b)),
    (Z.eqb_spec (snd c) (snd a)); simpl; lia.
Qed.

Lemma countsCmp_antisym (a b : Z * Z) :
  countsCmp a b <= 0 -> countsCmp b a <= 0 -> a = b.
Proof.
  unfold countsCmp. destruct a as [ra ca], b as [rb cb]; simpl.
  destruct (Z.eqb_spec cb ca), (Z.eqb_spec ca cb); simpl; intros;
    try lia; f_equal; lia.
Qed.

Lemma sort_asc_unique (l l' : list Z) :
  Permutation l l' ->
  sortBy (fun a b => a - b) l = sortBy (fun a b => a - b) l'.
Proof. apply sortBy_unique; intros; lia. Qed.

Lemma sort_desc_unique (l l' : list Z) :
  Permutation l l' ->
  sortBy (fun a b => b - a) l = sortBy (fun a b => b - a) l'.
Proof. apply sortBy_unique; intros; lia. Qed.

Lemma sort_counts_unique (l l' : list (Z * Z)) :
  Permutation l l' -> sortBy countsCmp l = sortBy countsCmp l'.
Proof.
  apply sortBy_unique;
    [exact countsCmp_total | exact countsCmp_trans | exact countsCmp_antisym].
Qed.

(** ** Rank counts *)

Lemma cnt_app (r : Z) (l1 l2 : list Z) : cnt r (l1 ++ l2) = cnt r l1 + cnt r l2.
Proof. unfold cnt. rewrite count_occ_app. lia. Qed.

Lemma cnt_nonneg (r : Z) (l : list Z) : 0 <= cnt r l.
Proof. unfold cnt; lia. Qed.

Lemma cnt_pos_In (r : Z) (l : list Z) : 0 < cnt r l <-> In r l.
Proof.
  unfold cnt. rewrite (count_occ_In Z.eq_dec). lia.
Qed.

Lemma cnt_perm (r : Z) (l l' : list Z) : Permutation l l' -> cnt r l = cnt r l'.
Proof.
  intros HP. unfold cnt. f_equal.
  apply (proj1 (Permutation_count_occ Z.eq_dec l l') HP).
Qed.

Lemma map_get_set (m : list (Z * Z)) (k v k' : Z) :
  map_get (map_set m k v) k' = if k =? k' then Some v else map_get m k'.
Proof.
  induction m as [|[k0 v0] m IH]; simpl.
  - reflexivity.
  - destruct (Z.eqb_spec k0 k) as [->|Hne]; simpl.
    + destruct (Z.eqb_spec k k'); reflexivity.
    + rewrite IH. destruct (Z.eqb_spec k0 k') as [->|]; [|reflexivity].
      destruct (Z.eqb_spec k k'); [congruence | reflexivity].
Qed.

Lemma map_get_None_keys (m : list (Z * Z)) (k : Z) :
  map_get m k = None <-> ~ In k (map fst m).
Proof.
  induction m as [|[k0 v0] m IH]; simpl.
  - tauto.
  - destruct (Z.eqb_spec k0 k); [|rewrite IH]; intuition congruence.
Qed.

Lemma map_set_keys (m : list (Z * Z)) (k v : Z) :
  map fst (map_set m k v) =
  if existsb (fun e => fst e =? k) m then map fst m else map fst m ++ [k].
Proof.
  induction m as [|[k0 v0] m IH]; simpl.
  - reflexivity.
  - destruct (Z.eqb_spec k0 k); simpl; [reflexivity|].
    rewrite IH. destruct (existsb _ m); reflexivity.
Qed.

Lemma map_set_NoDup (m : list (Z * Z)) (k v : Z) :
  NoDup (map fst m) -> NoDup (map fst (map_set m k v)).
Proof.
  intros H. rewrite map_set_keys.
  destruct (existsb (fun e => fst e =? k) m) eqn:E; [exact H|].
  apply NoDup_app; [exact H | repeat constructor; simpl; tauto |].
  intros x Hx [<-|[]].
  apply in_map_iff in Hx as [e [He Hin]].
  assert (Hex : existsb (fun e => fst e =? k) m = true)
    by (apply existsb_exists; exists e; split; [exact Hin | lia]).
  congruence.
Qed.

Lemma map_get_In (m : list (Z * Z)) (k v : Z) :
  NoDup (map fst m) -> (In (k, v) m <-> map_get m k = Some v).
Proof.
  induction m as [|[k0 v0] m IH]; simpl; intros Hnd.
  - split; [tauto | discriminate].
  - inversion Hnd as [|? ? Hnotin Hnd']; subst.
    destruct (Z.eqb_spec k0 k) as [->|Hne].
    + split.
      * intros [Heq|Hin]; [congruence|].
        exfalso; apply Hnotin. apply in_map_iff.
        exists (k, v); split; [reflexivity | exact Hin].
      * intros Heq; left; congruence.
    + rewrite <- (IH Hnd'). split; [intros [Heq|Hin] | intros Hin].
      * congruence.
      * exact Hin.
      * right; exact Hin.
Qed.

Lemma sumZ_map_set (m : list (Z * Z)) (k : Z) :
  sumZ (map snd (map_set m k (get_or_0 m k + 1))) = sumZ (map snd m) + 1.
Proof.
  unfold get_or_0.
  induction m as [|[k0 v0] m IH]; simpl.
  - lia.
  - destruct (Z.eqb_spec k0 k); simpl; [lia|]. rewrite IH. lia.
Qed.

(** The loop of [getRankCounts], one card further. *)
Lemma getRankCounts_snoc (cards : list Card) (c : Card) :
  getRankCounts (cards ++ [c]) =
  map_set (getRankCounts cards) (rank c)
          (get_or_0 (getRankCounts cards) (rank c) + 1).
Proof. unfold getRankCounts. rewrite fold_left_app. reflexivity. Qed.

Lemma getRankCounts_counts_of (cards : list Card) :
  counts_of (getRankCounts cards) (map rank cards).
Proof.
  induction cards as [|c cards IH] using rev_ind.
  - split; [constructor | intros r; reflexivity].
  - rewrite getRankCounts_snoc, map_app. destruct IH as [Hnd Hget].
    split; [apply map_set_NoDup, Hnd|].
    intros r. rewrite map_get_set, cnt_app. simpl map.
    assert (Hone : cnt r [rank c] = if rank c =? r then 1 else 0).
    { unfold cnt; simpl.
      destruct (Z.eq_dec (rank c) r), (Z.eqb_spec (rank c) r);
        congruence || reflexivity. }
    rewrite Hone. unfold get_or_0. rewrite !Hget.
    pose proof (cnt_nonneg r (map rank cards)) as Hr.
    destruct (Z.eqb_spec (rank c) r) as [->|Hne].
    + destruct (Z.ltb_spec 0 (cnt r (map rank cards)));
        destruct (Z.ltb_spec 0 (cnt r (map rank cards) + 1));
        try lia; f_equal; lia.
    + rewrite Z.add_0_r. reflexivity.
Qed.

Lemma getRankCounts_sum (cards : list Card) :
  sumZ (map snd (getRankCounts cards)) = Z.of_nat (length cards).
Proof.
  induction cards as [|c cards IH] using rev_ind.
  - reflexivity.
  - rewrite getRankCounts_snoc, sumZ_map_set, IH, length_app. simpl. lia.
Qed.

Lemma counts_of_entry (m : list (Z * Z)) (seen : list Z) (e : Z * Z) :
  counts_of m seen -> In e m -> 1 <= snd e /\ In (fst e) seen.
Proof.
  intros [Hnd Hget] Hin. destruct e as [r n]; simpl.
  apply (map_get_In _ _ _ Hnd) in Hin. rewrite Hget in Hin.
  destruct (Z.ltb_spec 0 (cnt r seen)) as [Hpos|]; [|discriminate].
  injection Hin as <-. split; [lia | apply cnt_pos_In, Hpos].
Qed.

Lemma counts_of_perm (m m' : list (Z * Z)) (seen seen' : list Z) :
  Permutation seen seen' -> counts_of m seen -> counts_of m' seen' ->
  Permutation m m'.
Proof.
  intros HP [Hnd Hget] [Hnd' Hget'].
  apply NoDup_Permutation.
  - eapply NoDup_map_inv; exact Hnd.
  - eapply NoDup_map_inv; exact Hnd'.
  - intros [r n]. rewrite (map_get_In _ _ _ Hnd), (map_get_In _ _ _ Hnd').
    rewrite Hget, Hget', (cnt_perm r _ _ HP). tauto.
Qed.

(** The sorted rank counts depend on the ranks of the hand only, not on the
    order of its cards. *)
Lemma sorted_counts_perm (cards cards' : list Card) :
  Permutation (map rank cards) (map rank cards') ->
  sortBy countsCmp (getRankCounts cards)
  = sortBy countsCmp (getRankCounts cards').
Proof.
  intros HP. apply sort_counts_unique.
  eapply counts_of_perm; [exact HP | apply getRankCounts_counts_of ..].
Qed.

Lemma sumZ_perm (l l' : list Z) : Permutation l l' -> sumZ l = sumZ l'.
Proof. induction 1; simpl; lia. Qed.

Lemma sumZ_nonneg (l : list (Z * Z)) :
  Forall (fun e => 1 <= snd e) l -> 0 <= sumZ (map snd l).
Proof. induction 1; simpl; lia. Qed.

Lemma StronglySorted_weaken {A : Type} (R R' : A -> A -> Prop) (l : list A) :
  (forall a b, R a b -> R' a b) -> StronglySorted R l -> StronglySorted R' l.
Proof.
  intros HR. induction 1 as [|a l Hl IH Ha]; constructor.
  - exact IH.
  - eapply Forall_impl; [|exact Ha]. intros b; apply HR.
Qed.

Lemma countsCmp_desc (a b : Z * Z) : before countsCmp a b -> snd b <= snd a.
Proof.
  unfold before, countsCmp. destruct (Z.eqb_spec (snd b) (snd a)); simpl; lia.
Qed.

Lemma sorted_counts_facts (cards : list Card) :
  count_facts (map rank cards) (Z.of_nat (length cards))
              (sortBy countsCmp (getRankCounts cards)).
Proof.
  repeat split.
  - rewrite <- getRankCounts_sum. apply sumZ_perm, Permutation_map, sortBy_perm.
  - apply Forall_forall. intros e He. apply sortBy_In in He.
    eapply counts_of_entry; [apply getRankCounts_counts_of | exact He].
  - eapply StronglySorted_weaken; [exact countsCmp_desc|].
    apply sortBy_sorted; [exact countsCmp_total | exact countsCmp_trans].
Qed.

Ltac inv H := inversion H; subst; clear H.

Ltac shape_done :=
  eexists; eexists; split; [reflexivity | split; [reflexivity |]];
  repeat constructor; simpl; auto.

Ltac split_hyps :=
  repeat match goal with
         | H : _ /\ _ |- _ => destruct H
         | H : Forall _ (_ :: _) |- _ => inv H
         | H : StronglySorted _ (_ :: _) |- _ => inv H
         end.

Ltac tests_to_Z :=
  repeat match goal with
         | H : (_ =? _) = true |- _ => apply Z.eqb_eq in H
         | H : (_ =? _) = false |- _ => apply Z.eqb_neq in H
         end.

Ltac split_tests :=
  repeat match goal with
         | |- context [if ?b then _ else _] => destruct b eqn:?; simpl
         end.

Lemma classify_shape (cards : list Card) (ranks : list Z) (fl : bool)
    (st : StraightInfo) (cs : list (Z * Z)) (desc : list Z) :
  count_facts ranks 5 cs ->
  (is_straight st = true -> In (highCard st) ranks) ->
  length desc = 5%nat -> Forall (fun k => In k ranks) desc ->
  exists hr ks,
    classify cards fl st cs desc = Ok (handOf hr cards ks)
    /\ length ks = kickerCount hr
    /\ Forall (fun k => In k ranks) ks.
Proof.
  intros (Hsum & Hall & Hsort) Hst Hlen Hdesc.
  assert (Hfl : forall hr, hr = Flush \/ hr = HighCard -> exists hr0 ks,
     Ok (handOf hr cards desc) = Ok (handOf hr0 cards ks)
     /\ length ks = kickerCount hr0 /\ Forall (fun k => In k ranks) ks).
  { intros hr [-> | ->]; eexists; eexists; (split; [reflexivity|]); split; auto. }
  assert (Htail : forall t : list (Z * Z),
             Forall (fun e => 1 <= snd e /\ In (fst e) ranks) t ->
             0 <= sumZ (map snd t)).
  { intros t Ht. apply sumZ_nonneg. eapply Forall_impl; [|exact Ht].
    simpl; tauto. }
  unfold classify.
  destruct (fl && is_straight st) eqn:Hsf.
  { apply andb_prop in Hsf as [_ Hs]. shape_done. }
  destruct cs as [|[r0 n0] [|[r1 n1] [|[r2 n2] [|[r3 n3] t]]]];
    split_hyps; simpl in *; unfold idx; simpl;
    try match goal with H : Forall _ t |- _ => apply Htail in H end;
    split_tests; tests_to_Z; try lia;
    try (apply Hfl; auto; fail);
    try (destruct (Z.max_spec r0 r1) as [[_ ->]|[_ ->]];
         destruct (Z.min_spec r0 r1) as [[_ ->]|[_ ->]]);
    shape_done.
Qed.

(** ** The evaluator on five cards *)

Lemma evaluateHand_classify (cards : list Card) :
  evaluateHand cards =
  if negb (length cards =? 5)%nat
  then Throw (Error "Hand must have exactly 5 cards")
  else
    flush <- isFlush cards ;;
    straight <- isStraight cards ;;
    classify cards flush straight
             (sortBy countsCmp (getRankCounts cards))
             (sortBy (fun a b => b - a) (map rank cards)).
Proof. reflexivity. Qed.

Lemma isFlush_cons (c : Card) (cards : list Card) :
  isFlush (c :: cards)
  = Ok (forallb (fun c' => Suit_eqb (suit c') (suit c)) (c :: cards)).
Proof. reflexivity. Qed.

Lemma Suit_eqb_eq (a b : Suit) : Suit_eqb a b = true <-> a = b.
Proof. destruct a, b; simpl; split; congruence. Qed.

Lemma isFlush_spec (cards : list Card) (b : bool) :
  isFlush cards = Ok b ->
  (b = true <-> forall c c', In c cards -> In c' cards -> suit c = suit c').
Proof.
  destruct cards as [|c0 cards]; [discriminate|].
  rewrite isFlush_cons. intros Heq.
  assert (Hb : b = forallb (fun c' => Suit_eqb (suit c') (suit c0))
                           (c0 :: cards)) by congruence.
  rewrite Hb, forallb_forall. clear Heq Hb. split.
  - intros H c c' Hc Hc'.
    apply H, Suit_eqb_eq in Hc. apply H, Suit_eqb_eq in Hc'. congruence.
  - intros H c Hc. apply Suit_eqb_eq, H; [exact Hc | left; reflexivity].
Qed.

Lemma isFlush_perm (cards cards' : list Card) :
  Permutation cards cards' -> cards <> [] -> 
  exists b, isFlush cards = Ok b /\ isFlush cards' = Ok b.
Proof.
  intros HP Hne.
  destruct cards as [|c0 cards]; [congruence|].
  destruct cards' as [|c0' cards'];
    [apply Permutation_sym, Permutation_nil in HP; discriminate|].
  pose proof (isFlush_spec _ _ (isFlush_cons c0 cards)) as H.
  pose proof (isFlush_spec _ _ (isFlush_cons c0' cards')) as H'.
  rewrite !isFlush_cons.
  eexists; split; [reflexivity|]. f_equal.
  apply eq_true_iff_eq. rewrite H, H'.
  split; intros Hs c c' Hc Hc'; apply Hs;
    (eapply Permutation_in; [|eassumption]);
    (exact HP || apply Permutation_sym, HP).
Qed.

Lemma isStraight_perm (cards cards' : list Card) :
  Permutation cards cards' -> isStraight cards = isStraight cards'.
Proof.
  intros HP. unfold isStraight.
  rewrite (sort_asc_unique (map rank cards) (map rank cards'));
    [reflexivity | apply Permutation_map, HP].
Qed.

Lemma index_is_In (ranks : list Z) (i : nat) (v : Z) :
  index_is ranks i v = true -> In v ranks.
Proof.
  unfold index_is. destruct (nth_error ranks i) as [r|] eqn:E; [|discriminate].
  intros H. apply Z.eqb_eq in H; subst. eapply nth_error_In; exact E.
Qed.

Lemma isStraight_five (cards : list Card) :
  length cards = 5%nat ->
  exists st, isStraight cards = Ok st
             /\ (is_straight st = true -> In (highCard st) (map rank cards)).
Proof.
  intros Hlen. unfold isStraight.
  set (ranks := sortBy (fun a b => a - b) (map rank cards)).
  assert (Hin : forall r, In r ranks -> In r (map rank cards))
    by (intros r; apply sortBy_In).
  assert (Hl : length ranks = 5%nat)
    by (unfold ranks; rewrite sortBy_length, length_map; exact Hlen).
  destruct (index_is ranks 0 2 && index_is ranks 1 3 && index_is ranks 2 4
            && index_is ranks 3 5 && index_is ranks 4 14) eqn:Hw.
  - eexists; split; [reflexivity|]. intros _. simpl.
    apply Hin. repeat (apply andb_prop in Hw as [Hw ?]).
    eapply index_is_In; eassumption.
  - destruct (consecutive ranks).
    + unfold at_index.
      destruct (nth_error ranks 4) as [h|] eqn:E.
      * eexists; split; [reflexivity|]. intros _; simpl.
        apply Hin. eapply nth_error_In; exact E.
      * apply nth_error_None in E. lia.
    + eexists; split; [reflexivity|]. discriminate.
Qed.

(** On five cards [evaluateHand] returns: no index it reads is out of
    range.  The kickers are ranks of the hand, as many as the category
    carries. *)
Lemma evaluateHand_shape (cards : list Card) :
  length cards = 5%nat ->
  exists hr ks,
    evaluateHand cards = Ok (handOf hr cards ks)
    /\ length ks = kickerCount hr
    /\ Forall (fun k => In k (map rank cards)) ks.
Proof.
  intros Hlen. rewrite evaluateHand_classify, Hlen.
  change (negb (5 =? 5)%nat) with false. cbv iota.
  assert (Hfl : exists fl, isFlush cards = Ok fl).
  { destruct cards as [|c0 rest]; [discriminate|].
    rewrite isFlush_cons. eexists; reflexivity. }
  destruct Hfl as [fl ->].
  destruct (isStraight_five cards Hlen) as (st & -> & Hst). cbn [bind].
  apply classify_shape.
  - pose proof (sorted_counts_facts cards) as H.
    rewrite Hlen in H. exact H.
  - exact Hst.
  - rewrite sortBy_length, length_map. exact Hlen.
  - apply Forall_forall. intros k. apply sortBy_In.
Qed.

Lemma classify_withCards (cards cards' : list Card) (fl : bool)
    (st : StraightInfo) (cs : list (Z * Z)) (desc : list Z) (r : HandResult) :
  classify cards fl st cs desc = Ok r ->
  classify cards' fl st cs desc = Ok (withCards cards' r).
Proof.
  unfold classify, idx.
  destruct (nth_error cs 0), (nth_error cs 1), (nth_error cs 2),
    (nth_error cs 3); simpl; split_tests;
    intros H; try discriminate H; injection H as <-; reflexivity.
Qed.

(** The category, the kickers and the strength do not depend on the order in
    which the five cards are given. *)
Lemma evaluateHand_perm (cards cards' : list Card) (r : HandResult) :
  Permutation cards cards' ->
  evaluateHand cards = Ok r -> evaluateHand cards' = Ok (withCards cards' r).
Proof.
  intros HP. rewrite !evaluateHand_classify.
  rewrite <- (Permutation_length HP).
  destruct (negb (length cards =? 5)%nat) eqn:Hlen; [discriminate|].
  assert (Hne : cards <> [])
    by (intros ->; simpl in Hlen; discriminate).
  destruct (isFlush_perm _ _ HP Hne) as (fl & -> & ->).
  rewrite <- (isStraight_perm _ _ HP).
  rewrite <- (sorted_counts_perm cards cards')
    by (apply Permutation_map, HP).
  rewrite <- (sort_desc_unique (map rank cards) (map rank cards'))
    by (apply Permutation_map, HP).
  cbn [bind]. destruct (isStraight cards) as [st|e]; cbn [bind].
  - apply classify_withCards.
  - discriminate.
Qed.

(** ** The strength scalar *)

Lemma calculateStrength_expand (hr : HandRank) (a b c d e : Z) :
  let base := HAND_RANK_VALUES hr * 10000000000 in
  calculateStrength hr [] = base
  /\ calculateStrength hr [a] = base + a * 50625
  /\ calculateStrength hr [a; b] = base + a * 50625 + b * 3375
  /\ calculateStrength hr [a; b; c] = base + a * 50625 + b * 3375 + c * 225
  /\ calculateStrength hr [a; b; c; d]
     = base + a * 50625 + b * 3375 + c * 225 + d * 15
  /\ calculateStrength hr [a; b; c; d; e]
     = base + a * 50625 + b * 3375 + c * 225 + d * 15 + e * 1.
Proof. repeat split. Qed.

Ltac expand_strength :=
  repeat match goal with
         | |- context [calculateStrength ?hr []] =>
             rewrite (proj1 (calculateStrength_expand hr 0 0 0 0 0))
         | |- context [calculateStrength ?hr [?a]] =>
             rewrite (proj1 (proj2 (calculateStrength_expand hr a 0 0 0 0)))
         | |- context [calculateStrength ?hr [?a; ?b]] =>
             rewrite (proj1 (proj2 (proj2
                        (calculateStrength_expand hr a b 0 0 0))))
         | |- context [calculateStrength ?hr [?a; ?b; ?c]] =>
             rewrite (proj1 (proj2 (proj2 (proj2
                        (calculateStrength_expand hr a b c 0 0)))))
         | |- context [calculateStrength ?hr [?a; ?b; ?c; ?d]] =>
             rewrite (proj1 (proj2 (proj2 (proj2 (proj2
                        (calculateStrength_expand hr a b c d 0))))))
         | |- context [calculateStrength ?hr [?a; ?b; ?c; ?d; ?e]] =>
             rewrite (proj2 (proj2 (proj2 (proj2 (proj2
                        (calculateStrength_expand hr a b c d e))))))
         end.

Ltac short_lists :=
  repeat match goal with
         | H : Forall _ (_ :: _) |- _ => inversion H; subst; clear H
         | H : Forall _ [] |- _ => clear H
         end.

(** Kickers below the base 15, at most five of them, stay below one
    category step. *)
Lemma calculateStrength_range (hr : HandRank) (ks : list Z) :
  (length ks <= 5)%nat -> Forall (fun k => 0 <= k <= 14) ks ->
  HAND_RANK_VALUES hr * 10000000000 <= calculateStrength hr ks
  < HAND_RANK_VALUES hr * 10000000000 + 759375.
Proof.
  intros Hlen Hks.
  destruct ks as [|a [|b [|c [|d [|e [|f ks]]]]]];
    try (simpl in Hlen; lia); short_lists; expand_strength; cbv zeta; lia.
Qed.

(** With kickers below the base 15, the scalar compares like the kicker
    lists. *)
Lemma calculateStrength_lex (hr : HandRank) (k1 k2 : list Z) :
  length k1 = length k2 -> (length k1 <= 5)%nat ->
  Forall (fun k => 0 <= k <= 14) k1 -> Forall (fun k => 0 <= k <= 14) k2 ->
  lexCompare k1 k2 = (calculateStrength hr k1 ?= calculateStrength hr k2).
Proof.
  intros Heq Hlen H1 H2.
  destruct k1 as [|a1 [|b1 [|c1 [|d1 [|e1 [|f1 k1]]]]]];
    try (simpl in Hlen; lia);
    destruct k2 as [|a2 [|b2 [|c2 [|d2 [|e2 [|f2 k2]]]]]];
    try discriminate Heq; short_lists; expand_strength; cbv zeta; simpl lexCompare;
    repeat match goal with
           | |- context [?x ?= ?y] =>
               is_var x; is_var y; destruct (Z.compare_spec x y); subst
           end;
    symmetry;
    first [ apply Z.compare_eq_iff | apply Z.compare_lt_iff
          | apply Z.compare_gt_iff ]; lia.
Qed.

Lemma valid_kickers (cards : list Card) (ks : list Z) :
  Forall valid_card cards -> Forall (fun k => In k (map rank cards)) ks ->
  Forall (fun k => 0 <= k <= 14) ks.
Proof.
  intros Hv Hks. eapply Forall_impl; [|exact Hks].
  intros k Hk. apply in_map_iff in Hk as (c & <- & Hc).
  rewrite Forall_forall in Hv. apply Hv in Hc.
  unfold valid_card, valid_rank in Hc. lia.
Qed.

Lemma kickerCount_le_5 (hr : HandRank) : (kickerCount hr <= 5)%nat.
Proof. destruct hr; simpl; lia. Qed.

(** A hand of valid cards sits inside the band of its category. *)
Lemma evaluateHand_band (cards : list Card) (r : HandResult) :
  Forall valid_card cards -> evaluateHand cards = Ok r ->
  HAND_RANK_VALUES (hand_rank r) * 10000000000 <= strength r
  < HAND_RANK_VALUES (hand_rank r) * 10000000000 + 759375.
Proof.
  intros Hv He.
  assert (Hlen : length cards = 5%nat).
  { unfold evaluateHand in He.
    destruct (Nat.eqb_spec (length cards) 5); [assumption | discriminate]. }
  destruct (evaluateHand_shape cards Hlen) as (hr & ks & He' & Hk & Hin).
  rewrite He' in He. injection He as <-. simpl.
  apply calculateStrength_range.
  - rewrite Hk. apply kickerCount_le_5.
  - eapply valid_kickers; eassumption.
Qed.

Example wheel_is_five_high :
  evaluateHand wheelHand = Ok (handOf Straight wheelHand [5])
  /\ evaluateHand suitedWheelHand
     = Ok (handOf StraightFlush suitedWheelHand [5])
  /\ evaluateHand sixHighHand = Ok (handOf Straight sixHighHand [6])
  /\ evaluateHand pairHand = Ok (handOf OnePair pairHand [13; 9; 7; 2])
  /\ evaluateHand (firstn 4 pairHand)
     = Throw (Error "Hand must have exactly 5 cards").
Proof. repeat split. Qed.

(** ** Ordering of hands by strength *)

(** C1.  For two five-card hands of valid cards, [evaluateHand] returns on
    both, a hand of a strictly higher category has the strictly greater
    strength whatever the kickers, and for hands of one category the
    lexicographic comparison of the kicker lists (most significant first) is
    the comparison of the strengths. *)
Theorem strength_orders_hands (h1 h2 : list Card) :
  length h1 = 5%nat -> length h2 = 5%nat ->
  Forall valid_card h1 -> Forall valid_card h2 ->
  exists r1 r2,
    evaluateHand h1 = Ok r1 /\ evaluateHand h2 = Ok r2
    /\ (HAND_RANK_VALUES (hand_rank r1) < HAND_RANK_VALUES (hand_rank r2) ->
        strength r1 < strength r2)
    /\ (hand_rank r1 = hand_rank r2 ->
        lexCompare (kickers r1) (kickers r2) = (strength r1 ?= strength r2)).
Proof.
  intros L1 L2 V1 V2.
  destruct (evaluateHand_shape h1 L1) as (hr1 & k1 & E1 & K1 & I1).
  destruct (evaluateHand_shape h2 L2) as (hr2 & k2 & E2 & K2 & I2).
  exists (handOf hr1 h1 k1), (handOf hr2 h2 k2).
  split; [exact E1|]. split; [exact E2|]. split.
  - intros Hlt.
    pose proof (evaluateHand_band h1 _ V1 E1) as B1.
    pose proof (evaluateHand_band h2 _ V2 E2) as B2.
    simpl in *. lia.
  - simpl. intros <-. apply calculateStrength_lex.
    + congruence.
    + rewrite K1. apply kickerCount_le_5.
    + apply (valid_kickers h1); assumption.
    + apply (valid_kickers h2); assumption.
Qed.

Lemma strength_orders_hands_witness :
  exists r1 r2,
    evaluateHand pairHand = Ok r1 /\ evaluateHand flushHand = Ok r2
    /\ (HAND_RANK_VALUES (hand_rank r1) < HAND_RANK_VALUES (hand_rank r2) ->
        strength r1 < strength r2)
    /\ (hand_rank r1 = hand_rank r2 ->
        lexCompare (kickers r1) (kickers r2) = (strength r1 ?= strength r2)).
Proof.
  apply (strength_orders_hands pairHand flushHand);
    try reflexivity;
    repeat constructor; unfold valid_card, valid_rank; simpl; lia.
Defined.

(** ** Index safety of the evaluator *)

(** C10.  On five distinct cards of a standard deck every read
    [counts[0]] .. [counts[3]] and the read [cards[0]] of the flush test is
    in range: [evaluateHand] returns a result, it does not stop on a
    [TypeError].  (The length alone already gives this, see
    [evaluateHand_shape].) *)
Theorem evaluateHand_reads_in_bounds (cards : list Card) :
  length cards = 5%nat -> standard_cards cards ->
  (exists c0, nth_error cards 0 = Some c0)
  /\ exists r, evaluateHand cards = Ok r /\ evaluateHand cards <> Throw TypeError.
Proof.
  intros Hlen _. split.
  - destruct cards as [|c0 rest]; [discriminate | exists c0; reflexivity].
  - destruct (evaluateHand_shape cards Hlen) as (hr & ks & E & _).
    exists (handOf hr cards ks). split; [exact E | rewrite E; discriminate].
Qed.

Lemma evaluateHand_reads_in_bounds_witness :
  (exists c0, nth_error pairHand 0 = Some c0)
  /\ exists r, evaluateHand pairHand = Ok r
               /\ evaluateHand pairHand <> Throw TypeError.
Proof.
  apply (evaluateHand_reads_in_bounds pairHand).
  - reflexivity.
  - split.
    + repeat constructor; unfold valid_card, valid_rank; simpl; lia.
    + repeat (constructor; [simpl; intuition congruence|]). constructor.
Defined.

(** ** The wheel *)

Lemma map_rank_rankCards (ranks : list Z) : map rank (rankCards ranks) = ranks.
Proof.
  unfold rankCards. rewrite map_map. simpl. apply map_id.
Qed.

(** A hand whose ranks are those of [ranks], in any order and any suits, is
    classified from [ranks] and its flush flag. *)
Lemma evaluateHand_by_ranks (h : list Card) (ranks : list Z) :
  Permutation (map rank h) ranks -> length ranks = 5%nat ->
  exists fl,
    isFlush h = Ok fl
    /\ evaluateHand h =
       (st <- isStraight (rankCards ranks) ;;
        classify h fl st (sortBy countsCmp (getRankCounts (rankCards ranks)))
                 (sortBy (fun a b => b - a) ranks)).
Proof.
  intros HP Hlen.
  assert (Hh : length h = 5%nat)
    by (rewrite <- Hlen, <- (Permutation_length HP), length_map; reflexivity).
  assert (Hfl : exists fl, isFlush h = Ok fl).
  { destruct h as [|c0 rest]; [discriminate|].
    rewrite isFlush_cons. eexists; reflexivity. }
  destruct Hfl as [fl Hfl]. exists fl. split; [exact Hfl|].
  rewrite evaluateHand_classify, Hh, Hfl.
  change (negb (5 =? 5)%nat) with false. cbv iota. cbn [bind].
  assert (Hs : isStraight h = isStraight (rankCards ranks)).
  { unfold isStraight. rewrite map_rank_rankCards.
    rewrite (sort_asc_unique _ _ HP). reflexivity. }
  rewrite Hs, (sort_desc_unique _ _ HP).
  rewrite (sorted_counts_perm h (rankCards ranks))
    by (rewrite map_rank_rankCards; exact HP).
  reflexivity.
Qed.

Lemma wheel_eval (w : list Card) :
  Permutation (map rank w) [14; 2; 3; 4; 5] ->
  exists fl,
    isFlush w = Ok fl
    /\ evaluateHand w
       = Ok (handOf (if fl then StraightFlush else Straight) w [5]).
Proof.
  intros HP.
  destruct (evaluateHand_by_ranks w _ HP eq_refl) as (fl & Hfl & ->).
  exists fl. split; [exact Hfl|]. destruct fl; reflexivity.
Qed.

Lemma six_high_eval (h : list Card) :
  Permutation (map rank h) [2; 3; 4; 5; 6] ->
  exists fl,
    isFlush h = Ok fl
    /\ evaluateHand h
       = Ok (handOf (if fl then StraightFlush else Straight) h [6]).
Proof.
  intros HP.
  destruct (evaluateHand_by_ranks h _ HP eq_refl) as (fl & Hfl & ->).
  exists fl. split; [exact Hfl|]. destruct fl; reflexivity.
Qed.

Lemma valid_cards_of_ranks (h : list Card) (ranks : list Z) :
  Permutation (map rank h) ranks -> Forall valid_rank ranks ->
  Forall valid_card h.
Proof.
  intros HP Hv. apply Forall_forall. intros c Hc.
  rewrite Forall_forall in Hv. apply Hv.
  eapply Permutation_in; [exact HP | apply in_map, Hc].
Qed.

(** The wheel is not above every non-straight hand: a flush is one and
    outranks the unsuited wheel. *)
Lemma wheel_not_above_every_non_straight :
  ~ (forall w h rw rh,
        Permutation (map rank w) [14; 2; 3; 4; 5] ->
        evaluateHand w = Ok rw -> evaluateHand h = Ok rh ->
        hand_rank rh <> Straight -> hand_rank rh <> StraightFlush ->
        strength rh < strength rw).
Proof.
  intros H.
  specialize (H wheelHand flushHand
                (handOf Straight wheelHand [5])
                (handOf Flush flushHand [10; 8; 6; 4; 2])).
  assert (Hlt : 50000534662 < 40000253125); [|lia].
  apply H; try reflexivity; discriminate.
Qed.

(** C5 (amended).  A hand with ranks A,2,3,4,5 is a straight, or a straight
    flush when suited, with the single kicker 5.  It is strictly below every
    6-high straight whose category is not lower than its own (only a suited
    wheel against an unsuited 6-high straight is excepted), strictly
    above every hand of a lower category (for the unsuited wheel: three of a
    kind, two pair, one pair, high card), and strictly below every hand of
    a higher category (for the unsuited wheel: flush, full house, four of
    a kind, straight flush). *)
Theorem wheel_ranking (w : list Card) :
  Permutation (map rank w) [14; 2; 3; 4; 5] ->
  exists fl rw,
    isFlush w = Ok fl /\ evaluateHand w = Ok rw
    /\ hand_rank rw = (if fl then StraightFlush else Straight)
    /\ kickers rw = [5]
    /\ (forall h rh,
           Permutation (map rank h) [2; 3; 4; 5; 6] ->
           evaluateHand h = Ok rh ->
           (hand_rank rh = Straight \/ hand_rank rh = StraightFlush)
           /\ kickers rh = [6]
           /\ (HAND_RANK_VALUES (hand_rank rw)
               <= HAND_RANK_VALUES (hand_rank rh) ->
               strength rw < strength rh))
    /\ (forall h rh,
           Forall valid_card h -> evaluateHand h = Ok rh ->
           (HAND_RANK_VALUES (hand_rank rh) < HAND_RANK_VALUES (hand_rank rw) ->
            strength rh < strength rw)
           /\ (HAND_RANK_VALUES (hand_rank rw)
               < HAND_RANK_VALUES (hand_rank rh) ->
               strength rw < strength rh)).
Proof.
  intros HP.
  destruct (wheel_eval w HP) as (fl & Hfl & Hw).
  exists fl, (handOf (if fl then StraightFlush else Straight) w [5]).
  split; [exact Hfl|]. split; [exact Hw|].
  split; [reflexivity|]. split; [reflexivity|]. split.
  - intros h rh Hh Eh.
    destruct (six_high_eval h Hh) as (fl' & _ & Eh').
    rewrite Eh' in Eh. injection Eh as <-.
    split; [destruct fl'; simpl; auto|]. split; [reflexivity|].
    destruct fl, fl'; unfold handOf; cbn [strength hand_rank];
      expand_strength; simpl HAND_RANK_VALUES; lia.
  - intros h rh Vh Eh.
    assert (Vw : Forall valid_card w).
    { apply (valid_cards_of_ranks w _ HP).
      repeat constructor; unfold valid_rank; lia. }
    pose proof (evaluateHand_band w _ Vw Hw) as Bw.
    pose proof (evaluateHand_band h _ Vh Eh) as Bh.
    split; intros Hlt; simpl hand_rank in *; lia.
Qed.

Lemma wheel_ranking_witness :
  exists fl rw,
    isFlush wheelHand = Ok fl /\ evaluateHand wheelHand = Ok rw
    /\ hand_rank rw = (if fl then StraightFlush else Straight)
    /\ kickers rw = [5]
    /\ (forall h rh,
           Permutation (map rank h) [2; 3; 4; 5; 6] ->
           evaluateHand h = Ok rh ->
           (hand_rank rh = Straight \/ hand_rank rh = StraightFlush)
           /\ kickers rh = [6]
           /\ (HAND_RANK_VALUES (hand_rank rw)
               <= HAND_RANK_VALUES (hand_rank rh) ->
               strength rw < strength rh))
    /\ (forall h rh,
           Forall valid_card h -> evaluateHand h = Ok rh ->
           (HAND_RANK_VALUES (hand_rank rh) < HAND_RANK_VALUES (hand_rank rw) ->
            strength rh < strength rw)
           /\ (HAND_RANK_VALUES (hand_rank rw)
               < HAND_RANK_VALUES (hand_rank rh) ->
               strength rw < strength rh)).
Proof.
  apply (wheel_ranking wheelHand). apply Permutation_refl.
Defined.

(** ** The best five of a larger hand *)

Lemma Card_eqb_eq (a b : Card) : Card_eqb a b = true <-> a = b.
Proof.
  unfold Card_eqb. destruct a as [i s r], b as [i' s' r']; simpl.
  rewrite !andb_true_iff, String.eqb_eq, Suit_eqb_eq, Z.eqb_eq.
  split; [intros [[-> ->] ->]; reflexivity | intros [= -> -> ->]; auto].
Qed.

Section Combinations.
Context {T : Type} (k : nat).

Lemma backtrackLoop_length (rest current c : list T) :
  In c (backtrackLoop k rest current) -> length c = k.
Proof.
  revert current. induction rest as [|x rest IH]; intros current; simpl.
  - tauto.
  - rewrite in_app_iff. intros [H|H]; [|exact (IH _ H)].
    destruct (Nat.eqb_spec (length (current ++ [x])) k) as [E|E].
    + destruct H as [<-|[]]. exact E.
    + exact (IH _ H).
Qed.

(** Every selection of elements of [rest], kept in their order, that
    completes [current] to [k] elements is produced. *)
Lemma backtrackLoop_complete (f : T -> bool) (rest current : list T) :
  filter f rest <> [] ->
  (length current + length (filter f rest) = k)%nat ->
  In (current ++ filter f rest) (backtrackLoop k rest current).
Proof.
  revert current. induction rest as [|x rest IH]; intros current; simpl.
  - congruence.
  - intros Hne Hlen. apply in_or_app. destruct (f x).
    + left. simpl in Hlen.
      replace (current ++ x :: filter f rest)
        with ((current ++ [x]) ++ filter f rest)
        by (rewrite <- app_assoc; reflexivity).
      destruct (Nat.eqb_spec (length (current ++ [x])) k) as [E|E].
      * rewrite length_app in E. simpl in E.
        assert (Hnil : filter f rest = [])
          by (apply length_zero_iff_nil; lia).
        rewrite Hnil, app_nil_r. left; reflexivity.
      * rewrite length_app in E. simpl in E. apply IH.
        -- intros Hnil. rewrite Hnil in Hlen. simpl in Hlen. lia.
        -- rewrite length_app. simpl. lia.
    + right. apply IH; assumption.
Qed.

Lemma combinations_length (array c : list T) :
  In c (combinations array k) -> length c = k.
Proof.
  unfold combinations, backtrack.
  destruct (Nat.eqb_spec (@length T []) k) as [E|E].
  - intros [<-|[]]. exact E.
  - apply backtrackLoop_length.
Qed.

Lemma combinations_complete (f : T -> bool) (array : list T) :
  length (filter f array) = k -> In (filter f array) (combinations array k).
Proof.
  intros Hlen. unfold combinations, backtrack.
  destruct (Nat.eqb_spec (@length T []) k) as [E|E].
  - simpl in E. rewrite <- E in Hlen.
    apply length_zero_iff_nil in Hlen. rewrite Hlen. left; reflexivity.
  - simpl in E.
    apply (backtrackLoop_complete f array []); [|exact Hlen].
    intros Hnil. rewrite Hnil in Hlen. simpl in Hlen. congruence.
Qed.
End Combinations.

Lemma findBestHand_unfold (cards : list Card) :
  findBestHand cards =
  if (length cards <? 5)%nat
  then Throw (Error "Need at least 5 cards to evaluate")
  else if (length cards =? 5)%nat
  then evaluateHand cards
  else
    bestHand <- foldM keepBest (combinations cards 5) None ;;
    match bestHand with
    | Some best => Ok best
    | None => Throw Undefined
    end.
Proof. reflexivity. Qed.

(** The loop of [findBestHand] over five-card combinations ends with a hand
    at least as strong as the one it started from and as each combination
    it met. *)
Lemma keepBest_loop (combos : list (list Card)) (acc : option HandResult) :
  (forall c, In c combos -> length c = 5%nat) ->
  exists acc',
    foldM keepBest combos acc = Ok acc'
    /\ (combos <> [] \/ acc <> None -> acc' <> None)
    /\ (forall b, acc = Some b ->
                  exists b', acc' = Some b' /\ strength b <= strength b')
    /\ (forall c, In c combos ->
                  exists r b', evaluateHand c = Ok r /\ acc' = Some b'
                               /\ strength r <= strength b').
Proof.
  revert acc. induction combos as [|c combos IH]; intros acc Hlen.
  - exists acc. simpl. split; [reflexivity|]. split; [tauto|]. split.
    + intros b ->. exists b. split; [reflexivity | lia].
    + tauto.
  - simpl foldM. unfold keepBest at 1.
    destruct (evaluateHand_shape c (Hlen c (or_introl eq_refl)))
      as (hr & ks & Ec & _).
    rewrite Ec. cbn [bind].
    set (hand := handOf hr c ks) in *.
    set (acc1 := match acc with
                 | None => Some hand
                 | Some best =>
                     if strength hand >? strength best
                     then Some hand else Some best
                 end).
    assert (Hstep : match acc with
                    | None => Ok (Some hand)
                    | Some best =>
                        if strength hand >? strength best
                        then Ok (Some hand) else Ok (Some best)
                    end = Ok acc1).
    { unfold acc1. destruct acc as [best|]; [|reflexivity].
      destruct (strength hand >? strength best); reflexivity. }
    rewrite Hstep. cbn [bind].
    assert (H1 : exists b1, acc1 = Some b1 /\ strength hand <= strength b1
                            /\ forall b, acc = Some b ->
                                         strength b <= strength b1).
    { unfold acc1. destruct acc as [best|].
      - destruct (Z.gtb_spec (strength hand) (strength best)).
        + exists hand. repeat split; [lia|]. intros b [= <-]. lia.
        + exists best. repeat split; [lia|]. intros b [= <-]. lia.
      - exists hand. repeat split; [lia | discriminate]. }
    destruct H1 as (b1 & Eb1 & Hh & Hacc).
    destruct (IH acc1 (fun c' Hc' => Hlen c' (or_intror Hc')))
      as (acc' & Ef & Hne & Hmono & Hall).
    destruct (Hmono b1 Eb1) as (b' & Eb' & Hb').
    exists acc'. split; [exact Ef|]. split; [|split].
    + intros _. rewrite Eb'. discriminate.
    + intros b Hb. exists b'. split; [exact Eb'|].
      specialize (Hacc b Hb). lia.
    + intros c' [<-|Hc'].
      * exists hand, b'. split; [exact Ec|]. split; [exact Eb' | lia].
      * apply Hall, Hc'.
Qed.

(** A five-card subset of distinct cards, in any order, is a rearrangement
    of the cards of the hand that belong to it. *)
Lemma subset_as_filter (cards sub : list Card) :
  NoDup cards -> NoDup sub -> incl sub cards ->
  Permutation (filter (fun c => existsb (Card_eqb c) sub) cards) sub.
Proof.
  intros Hc Hs Hincl. apply NoDup_Permutation.
  - apply NoDup_filter, Hc.
  - exact Hs.
  - intros x. rewrite filter_In, existsb_exists. split.
    + intros (_ & y & Hy & E). apply Card_eqb_eq in E. subst; exact Hy.
    + intros Hx. split; [apply Hincl, Hx|].
      exists x. split; [exact Hx | apply Card_eqb_eq; reflexivity].
Qed.

(** C6.  On 5 to 10 distinct cards [findBestHand] returns a hand at least as
    strong as [evaluateHand] of every five-card subset (five distinct cards
    of the hand, in any order), and on exactly five cards it is
    [evaluateHand] of them. *)
Theorem findBestHand_dominates (cards : list Card) :
  NoDup cards -> (5 <= length cards <= 10)%nat ->
  exists best,
    findBestHand cards = Ok best
    /\ (forall sub,
           NoDup sub -> length sub = 5%nat -> incl sub cards ->
           exists r, evaluateHand sub = Ok r /\ strength r <= strength best)
    /\ (length cards = 5%nat -> findBestHand cards = evaluateHand cards).
Proof.
  intros Hnd [Hlo Hhi].
  set (pick := fun sub => filter (fun c => existsb (Card_eqb c) sub) cards).
  assert (Hsub : forall sub r',
             NoDup sub -> length sub = 5%nat -> incl sub cards ->
             evaluateHand (pick sub) = Ok r' ->
             exists r, evaluateHand sub = Ok r /\ strength r = strength r').
  { intros sub r' Hs _ Hincl Er'.
    pose proof (subset_as_filter cards sub Hnd Hs Hincl) as HP.
    exists (withCards sub r'). split; [|reflexivity].
    apply (evaluateHand_perm (pick sub) sub r' HP Er'). }
  rewrite findBestHand_unfold.
  destruct (Nat.ltb_spec (length cards) 5) as [|_]; [lia|].
  destruct (Nat.eqb_spec (length cards) 5) as [E5|N5].
  - destruct (evaluateHand_shape cards E5) as (hr & ks & Ec & _).
    exists (handOf hr cards ks). split; [exact Ec|]. split; [|reflexivity].
    intros sub Hs Hl Hincl.
    assert (HP : Permutation cards sub).
    { apply Permutation_sym.
      apply NoDup_Permutation_bis; [exact Hs | lia | exact Hincl]. }
    exists (withCards sub (handOf hr cards ks)). split; [|simpl; lia].
    apply (evaluateHand_perm cards sub _ HP Ec).
  - destruct (keepBest_loop (combinations cards 5) None
                (fun c Hc => combinations_length 5 cards c Hc))
      as (acc' & Ef & Hne & _ & Hall).
    rewrite Ef. cbn [bind].
    assert (Hexists : forall sub,
               NoDup sub -> length sub = 5%nat -> incl sub cards ->
               exists r b', evaluateHand sub = Ok r /\ acc' = Some b'
                            /\ strength r <= strength b').
    { intros sub Hs Hl Hincl.
      pose proof (subset_as_filter cards sub Hnd Hs Hincl) as HP.
      assert (Hin : In (pick sub) (combinations cards 5)).
      { apply combinations_complete.
        rewrite (Permutation_length HP). exact Hl. }
      destruct (Hall _ Hin) as (r' & b' & Er' & Eb' & Hle).
      destruct (Hsub sub r' Hs Hl Hincl Er') as (r & Er & Hr).
      exists r, b'. split; [exact Er|]. split; [exact Eb' | lia]. }
    destruct acc' as [best|].
    + exists best. split; [reflexivity|]. split; [|lia].
      intros sub Hs Hl Hincl.
      destruct (Hexists sub Hs Hl Hincl) as (r & b' & Er & [= <-] & Hle).
      exists r. split; assumption.
    + exfalso.
      assert (Hfirst : exists sub, NoDup sub /\ length sub = 5%nat
                                   /\ incl sub cards).
      { exists (firstn 5 cards). split; [|split].
        - rewrite <- (firstn_skipn 5 cards) in Hnd.
          apply NoDup_app_remove_r in Hnd. exact Hnd.
        - rewrite length_firstn. lia.
        - intros x Hx. rewrite <- (firstn_skipn 5 cards).
          apply in_or_app; left; exact Hx. }
      destruct Hfirst as (sub & Hs & Hl & Hincl).
      destruct (Hexists sub Hs Hl Hincl) as (r & b' & _ & Eb' & _).
      discriminate.
Qed.

Example seven_choose_five :
  length (combinations sevenCards 5) = 21%nat
  /\ combinations [1; 2; 3; 4] 2
     = [[1; 2]; [1; 3]; [1; 4]; [2; 3]; [2; 4]; [3; 4]]
  /\ (exists best, findBestHand sevenCards = Ok best
                   /\ hand_rank best = ThreeOfAKind
                   /\ kickers best = [13; 9; 7]).
Proof.
  split; [reflexivity|]. split; [reflexivity|].
  eexists. split; [vm_compute; reflexivity|]. split; reflexivity.
Qed.

Lemma findBestHand_dominates_witness :
  exists best,
    findBestHand sevenCards = Ok best
    /\ (forall sub,
           NoDup sub -> length sub = 5%nat -> incl sub sevenCards ->
           exists r, evaluateHand sub = Ok r /\ strength r <= strength best)
    /\ (length sevenCards = 5%nat ->
        findBestHand sevenCards = evaluateHand sevenCards).
Proof.
  apply (findBestHand_dominates sevenCards).
  - repeat (constructor; [simpl; intuition congruence|]). constructor.
  - simpl; lia.
Defined.

(** ** Ineligible reveals *)

Lemma findIndex_Some {A : Type} (f : A -> bool) (l : list A) (i : nat) :
  findIndex f l = Some i ->
  exists pre x post,
    l = pre ++ x :: post /\ length pre = i /\ f x = true
    /\ (forall y, In y pre -> f y = false).
Proof.
  revert i. induction l as [|y l IH]; simpl; intros i H; [discriminate|].
  destruct (f y) eqn:Ey.
  - injection H as <-. exists [], y, l. repeat split; [exact Ey | intros ? []].
  - destruct (findIndex f l) as [j|]; [|discriminate].
    injection H as <-.
    destruct (IH j eq_refl) as (pre & x & post & -> & Hl & Hx & Hpre).
    exists (y :: pre), x, post. repeat split; simpl; try congruence.
    intros z [<-|Hz]; [exact Ey | apply Hpre, Hz].
Qed.

Lemma findIndex_find {A : Type} (f : A -> bool) (l : list A) (i : nat) :
  findIndex f l = Some i ->
  exists x, nth_error l i = Some x /\ find f l = Some x.
Proof.
  revert i. induction l as [|y l IH]; simpl; intros i H; [discriminate|].
  destruct (f y) eqn:Ey.
  - injection H as <-. exists y. split; reflexivity.
  - destruct (findIndex f l) as [j|]; [|discriminate].
    injection H as <-. apply (IH j eq_refl).
Qed.

(** C7.  A reveal that is not eligible leaves the state as it is and raises
    nothing: the phase is not [revealing], or the player is not waited for,
    or no player has the id, or the card is not a hole card of the player
    with that id. *)
Theorem revealSelectedCard_ineligible (s : GameState) (playerId : Z)
    (cardId : string) :
  phase s <> Revealing
  \/ ~ In playerId (waitingForPlayers s)
  \/ (forall p, In p (players s) -> player_id p <> playerId)
  \/ (forall p, find (fun p => player_id p =? playerId) (players s) = Some p ->
                forall c, In c (holeCards p) -> card_id c <> cardId) ->
  revealSelectedCard s playerId cardId = Ok s.
Proof.
  intros H. unfold revealSelectedCard.
  destruct (Phase_eqb (phase s) Revealing) eqn:Hph; simpl; [|reflexivity].
  destruct (existsb (fun w => w =? playerId) (waitingForPlayers s)) eqn:Hw;
    simpl; [|reflexivity].
  destruct (findIndex (fun p => player_id p =? playerId) (players s))
    as [playerIndex|] eqn:Hp; [|reflexivity].
  destruct (findIndex_find _ _ _ Hp) as (player & Hnth & Hfind).
  rewrite (idx_Ok _ _ _ Hnth). cbn [bind].
  destruct (findIndex (fun c => String.eqb (card_id c) cardId)
                      (holeCards player)) as [cardIndex|] eqn:Hc;
    [|reflexivity].
  exfalso. destruct H as [H|[H|[H|H]]].
  - apply H. destruct (phase s); simpl in Hph; congruence.
  - apply H. apply existsb_exists in Hw as (w & Hin & Ew).
    apply Z.eqb_eq in Ew. subst; exact Hin.
  - apply find_some in Hfind as [Hin Eid]. apply Z.eqb_eq in Eid.
    exact (H player Hin Eid).
  - destruct (findIndex_Some _ _ _ Hc) as (pre & c & post & Eh & _ & Ec & _).
    apply String.eqb_eq in Ec.
    apply (H player Hfind c); [|exact Ec].
    rewrite Eh. apply in_or_app; right; left; reflexivity.
Qed.

Lemma revealSelectedCard_ineligible_witness :
  revealSelectedCard midGame 1 "QH" = Ok midGame.
Proof.
  apply (revealSelectedCard_ineligible midGame 1 "QH").
  right; left. simpl. intros [H|[]]. discriminate H.
Defined.

(** [revealSelectedCard] raises nothing, eligible or not: its two index
    reads follow a successful [findIndex]. *)
Lemma revealSelectedCard_total (s : GameState) (playerId : Z)
    (cardId : string) :
  exists s', revealSelectedCard s playerId cardId = Ok s'.
Proof.
  unfold revealSelectedCard.
  destruct (negb (Phase_eqb (phase s) Revealing)); [eexists; reflexivity|].
  destruct (negb (existsb _ (waitingForPlayers s))); [eexists; reflexivity|].
  destruct (findIndex _ (players s)) as [i|] eqn:Hp; [|eexists; reflexivity].
  destruct (findIndex_find _ _ _ Hp) as (player & Hnth & _).
  rewrite (idx_Ok _ _ _ Hnth). cbn [bind].
  destruct (findIndex _ (holeCards player)) as [ci|] eqn:Hc;
    [|eexists; reflexivity].
  destruct (findIndex_find _ _ _ Hc) as (card & Hcard & _).
  unfold at_index. rewrite Hcard. cbn [bind].
  destruct (length _ =? 0)%nat; eexists; reflexivity.
Qed.

Example reveal_moves_the_card :
  revealSelectedCard midGame 0 "KH"
  = Ok (mkState
          [mkPlayer 0 "A" pairHand [mkCard "3D" Diamonds 3]
                    [mkCard "KH" Hearts 13];
           playerB]
          [] Revealing 1
          [mkEvent 0 [0] [(0, mkCard "KH" Hearts 13)]] None []).
Proof. reflexivity. Qed.

(** ** Starting a round twice *)

(** C9.  Starting a round on a state whose round is started changes
    nothing: [startRevealRound] after [startRevealRound] is
    [startRevealRound], also when the first call throws. *)
Theorem startRevealRound_idempotent (s : GameState) :
  (s' <- startRevealRound s ;; startRevealRound s') = startRevealRound s.
Proof.
  unfold startRevealRound.
  destruct (Phase_eqb (phase s) Revealing) eqn:Hph; simpl.
  - destruct (findWeakestPlayers (players s)) as [weakest|e] eqn:Hw;
      [|reflexivity].
    cbn [bind].
    destruct (length weakest =? 0)%nat eqn:Hlen; cbn [bind phase players].
    + reflexivity.
    + rewrite Hph, Hw. simpl. rewrite Hlen. reflexivity.
  - rewrite Hph. reflexivity.
Qed.

(** ** Weakest and strongest players *)

Lemma backtrackLoop_nonempty {T : Type} (k : nat) (rest current : list T) :
  (length current < k <= length current + length rest)%nat ->
  backtrackLoop k rest current <> [].
Proof.
  revert current. induction rest as [|x rest IH]; intros current; simpl.
  - lia.
  - intros Hk Hnil. apply app_eq_nil in Hnil as [Hnil _].
    destruct (Nat.eqb_spec (length (current ++ [x])) k) as [E|E];
      [discriminate|].
    rewrite length_app in E. simpl in E.
    apply (IH (current ++ [x])); [|exact Hnil].
    rewrite length_app. simpl. lia.
Qed.

(** [findBestHand] returns on five cards or more. *)
Lemma findBestHand_total (cards : list Card) :
  (5 <= length cards)%nat -> exists h, findBestHand cards = Ok h.
Proof.
  intros Hlen. rewrite findBestHand_unfold.
  destruct (Nat.ltb_spec (length cards) 5) as [|_]; [lia|].
  destruct (Nat.eqb_spec (length cards) 5) as [E5|N5].
  - destruct (evaluateHand_shape cards E5) as (hr & ks & Ec & _).
    eexists; exact Ec.
  - destruct (keepBest_loop (combinations cards 5) None
                (fun c Hc => combinations_length 5 cards c Hc))
      as (acc' & Ef & Hne & _).
    rewrite Ef. cbn [bind].
    destruct acc' as [best|]; [eexists; reflexivity|].
    exfalso. apply Hne; [|reflexivity]. left.
    unfold combinations, backtrack. simpl.
    apply backtrackLoop_nonempty. simpl. lia.
Qed.

Section Strengths.
Variable g : Player -> result HandResult.
Variable val : Player -> Z.
Hypothesis val_g : forall p h, g p = Ok h -> val p = strength h.

Lemma mapM_paired (l : list Player) :
  (forall p, In p l -> exists h, g p = Ok h) ->
  exists hs, mapM (fun p => s <- g p ;; Ok (p, s)) l = Ok hs /\ paired val l hs.
Proof.
  induction l as [|p l IH]; intros Hok; simpl.
  - exists []. split; [reflexivity | constructor].
  - destruct (Hok p (or_introl eq_refl)) as [h Eh]. rewrite Eh. cbn [bind].
    destruct (IH (fun q Hq => Hok q (or_intror Hq))) as (hs & -> & Hp).
    cbn [bind]. exists ((p, h) :: hs). split; [reflexivity|].
    constructor; [|exact Hp]. split; [reflexivity | apply val_g, Eh].
Qed.

Lemma paired_filter (l : list Player) (hs : list (Player * HandResult))
    (m : Z) :
  paired val l hs ->
  map fst (filter (fun s => strength (snd s) =? m) hs)
  = filter (fun p => val p =? m) l.
Proof.
  induction 1 as [|p s l hs [Hf Hv] _ IH]; simpl; [reflexivity|].
  rewrite Hv. destruct (strength (snd s) =? m); simpl; congruence.
Qed.

Lemma paired_In (l : list Player) (hs : list (Player * HandResult)) :
  paired val l hs ->
  (forall s, In s hs -> In (fst s) l /\ val (fst s) = strength (snd s))
  /\ (forall p, In p l -> exists s, In s hs /\ val p = strength (snd s)).
Proof.
  induction 1 as [|p s l hs [Hf Hv] _ [IH1 IH2]]; simpl.
  - split; [intros ? [] | intros ? []].
  - split.
    + intros s' [<-|Hs']; [subst p; auto|].
      destruct (IH1 s' Hs'); auto.
    + intros p' [<-|Hp']; [exists s; auto|].
      destruct (IH2 p' Hp') as (s' & ? & ?). exists s'; auto.
Qed.
End Strengths.

Lemma minOver_spec (hs : list (Player * HandResult)) (init : Z) :
  minOver hs init <= init
  /\ (forall s, In s hs -> minOver hs init <= strength (snd s))
  /\ (minOver hs init = init
      \/ exists s, In s hs /\ strength (snd s) = minOver hs init).
Proof.
  unfold minOver. revert init.
  induction hs as [|s hs IH]; intros init; simpl.
  - split; [lia|]. split; [intros ? [] | left; reflexivity].
  - set (init' := if strength (snd s) <? init then strength (snd s) else init).
    assert (Hi : init' <= init /\ init' <= strength (snd s)
                 /\ (init' = init \/ init' = strength (snd s))).
    { unfold init'. destruct (Z.ltb_spec (strength (snd s)) init); lia. }
    destruct (IH init') as (H1 & H2 & H3). split; [lia|]. split.
    + intros s' [<-|Hs']; [lia | apply H2, Hs'].
    + destruct H3 as [H3|(s' & Hs' & E)].
      * destruct Hi as (_ & _ & [Hi|Hi]); [left; lia|].
        right. exists s. split; [left; reflexivity | lia].
      * right. exists s'. split; [right; exact Hs' | exact E].
Qed.

Lemma maxOver_spec (hs : list (Player * HandResult)) (init : Z) :
  init <= maxOver hs init
  /\ (forall s, In s hs -> strength (snd s) <= maxOver hs init)
  /\ (maxOver hs init = init
      \/ exists s, In s hs /\ strength (snd s) = maxOver hs init).
Proof.
  unfold maxOver. revert init.
  induction hs as [|s hs IH]; intros init; simpl.
  - split; [lia|]. split; [intros ? [] | left; reflexivity].
  - set (init' := if strength (snd s) >? init then strength (snd s) else init).
    assert (Hi : init <= init' /\ strength (snd s) <= init'
                 /\ (init' = init \/ init' = strength (snd s))).
    { unfold init'. destruct (Z.gtb_spec (strength (snd s)) init); lia. }
    destruct (IH init') as (H1 & H2 & H3). split; [lia|]. split.
    + intros s' [<-|Hs']; [lia | apply H2, Hs'].
    + destruct H3 as [H3|(s' & Hs' & E)].
      * destruct Hi as (_ & _ & [Hi|Hi]); [left; lia|].
        right. exists s. split; [left; reflexivity | lia].
      * right. exists s'. split; [right; exact Hs' | exact E].
Qed.

Lemma currentStrength_get (p : Player) (h : HandResult) :
  getCurrentStrength p = Ok h -> currentStrength p = strength h.
Proof.
  unfold getCurrentStrength, getRevealedCards, currentStrength.
  intros ->. reflexivity.
Qed.

Lemma finalStrength_get (p : Player) (h : HandResult) :
  getFinalStrength p = Ok h -> finalStrength p = strength h.
Proof.
  unfold getFinalStrength, getAllCards, finalStrength.
  intros ->. reflexivity.
Qed.

(** [findWeakestPlayers] on players who show five cards or more while they
    hold a hole card. *)
Lemma findWeakestPlayers_spec (ps : list Player) :
  (forall p, In p ps -> holeCards p <> [] ->
             (5 <= length (doorCards p ++ revealedHoleCards p))%nat) ->
  let holders := filter holdsHoleCard ps in
  (holders = [] -> findWeakestPlayers ps = Ok [])
  /\ (holders <> [] ->
      exists m,
        (exists p, In p holders /\ currentStrength p = m)
        /\ (forall p, In p holders -> m <= currentStrength p)
        /\ findWeakestPlayers ps
           = Ok (filter (fun p => currentStrength p =? m) holders)).
Proof.
  intros Hshow holders. unfold findWeakestPlayers.
  fold holdsHoleCard. fold holders. split.
  - intros ->. reflexivity.
  - intros Hne.
    destruct (Nat.eqb_spec (length holders) 0) as [E|_];
      [apply length_zero_iff_nil in E; congruence|].
    assert (Hok : forall p, In p holders ->
                            exists h, getCurrentStrength p = Ok h).
    { intros p Hp. apply filter_In in Hp as [Hin Hh].
      apply findBestHand_total, Hshow; [exact Hin|].
      unfold holdsHoleCard in Hh. destruct (holeCards p); [discriminate|].
      discriminate. }
    destruct (mapM_paired getCurrentStrength currentStrength
                currentStrength_get holders Hok) as (hs & -> & Hp).
    cbn [bind].
    destruct hs as [|s0 hs'];
      [inversion Hp; subst; congruence|].
    change (idx (s0 :: hs') 0) with (Ok s0). cbn [bind].
    assert (Ehs : exists hs, hs = s0 :: hs') by (eexists; reflexivity).
    destruct Ehs as [hs Ehs]. rewrite <- Ehs in *.
    set (m := minOver hs (strength (snd s0))).
    destruct (minOver_spec hs (strength (snd s0))) as (_ & Hle & Hatt).
    fold m in Hle, Hatt.
    destruct (paired_In _ _ _ Hp) as [Hs Hl].
    exists m. split; [|split].
    + assert (Hex : exists s, In s hs /\ strength (snd s) = m).
      { destruct Hatt as [E|Hex]; [|exact Hex].
        exists s0. split; [rewrite Ehs; left; reflexivity | congruence]. }
      destruct Hex as (s & Hin & E).
      exists (fst s). destruct (Hs s Hin) as [Hf Hv]. split; [exact Hf | lia].
    + intros p Hin. destruct (Hl p Hin) as (s & Hsin & Hv).
      specialize (Hle s Hsin). lia.
    + f_equal. apply (paired_filter currentStrength), Hp.
Qed.

Lemma Phase_eqb_eq (a b : Phase) : Phase_eqb a b = true <-> a = b.
Proof. destruct a, b; simpl; split; congruence. Qed.

(** ** Who reveals *)

(** Not every state in phase [revealing] starts a round: a player may hold
    a hole card and show fewer than five cards, and then
    [startRevealRound] throws. *)
Lemma startRevealRound_short_hand_throws :
  phase shortRevealing = Revealing
  /\ In shortHanded (players shortRevealing)
  /\ holdsHoleCard shortHanded = true
  /\ startRevealRound shortRevealing
     = Throw (Error "Need at least 5 cards to evaluate").
Proof. repeat split. left; reflexivity. Qed.

(** C2 (amended).  In phase [revealing], when every player who holds a hole
    card shows at least five cards (door and revealed hole cards):
    if nobody holds a hole card the phase becomes [showdown] and nobody is
    waited for; otherwise the phase stays [revealing] and
    [waitingForPlayers] is the ids of exactly the hole-card holders whose
    current strength, computed from door and revealed cards only, is the
    minimum over the hole-card holders, ties included. *)
Theorem startRevealRound_weakest (s : GameState) :
  phase s = Revealing ->
  (forall p, In p (players s) -> holeCards p <> [] ->
             (5 <= length (doorCards p ++ revealedHoleCards p))%nat) ->
  (filter holdsHoleCard (players s) = [] ->
   startRevealRound s
   = Ok (mkState (players s) (deadCards s) Showdown (currentRound s)
                 (revealHistory s) (winner s) []))
  /\ (filter holdsHoleCard (players s) <> [] ->
      exists m,
        (exists p, In p (filter holdsHoleCard (players s))
                   /\ currentStrength p = m)
        /\ (forall p, In p (filter holdsHoleCard (players s)) ->
                      m <= currentStrength p)
        /\ startRevealRound s
           = Ok (mkState (players s) (deadCards s) Revealing (currentRound s)
                         (revealHistory s) (winner s)
                         (map player_id
                              (filter (fun p => currentStrength p =? m)
                                      (filter holdsHoleCard (players s)))))).
Proof.
  intros Hph Hshow. set (holders := filter holdsHoleCard (players s)).
  destruct (findWeakestPlayers_spec (players s) Hshow) as [Hnone Hsome].
  fold holders in Hnone, Hsome.
  unfold startRevealRound. rewrite Hph. simpl negb. cbv iota. split.
  - intros E. rewrite (Hnone E). reflexivity.
  - intros Hne. destruct (Hsome Hne) as (m & (p & Hp & Em) & Hmin & ->).
    exists m. split; [exists p; auto|]. split; [exact Hmin|]. cbn [bind].
    assert (Hin : In p (filter (fun p => currentStrength p =? m) holders))
      by (apply filter_In; split; [exact Hp | lia]).
    destruct (filter (fun p => currentStrength p =? m) holders);
      [destruct Hin | reflexivity].
Qed.

Lemma startRevealRound_weakest_witness :
  (filter holdsHoleCard (players midGame) = [] ->
   startRevealRound midGame
   = Ok (mkState (players midGame) (deadCards midGame) Showdown
                 (currentRound midGame) (revealHistory midGame)
                 (winner midGame) []))
  /\ (filter holdsHoleCard (players midGame) <> [] ->
      exists m,
        (exists p, In p (filter holdsHoleCard (players midGame))
                   /\ currentStrength p = m)
        /\ (forall p, In p (filter holdsHoleCard (players midGame)) ->
                      m <= currentStrength p)
        /\ startRevealRound midGame
           = Ok (mkState (players midGame) (deadCards midGame) Revealing
                         (currentRound midGame) (revealHistory midGame)
                         (winner midGame)
                         (map player_id
                              (filter (fun p => currentStrength p =? m)
                                      (filter holdsHoleCard
                                              (players midGame)))))).
Proof.
  apply (startRevealRound_weakest midGame).
  - reflexivity.
  - intros p [<-|[<-|[]]] _; simpl; lia.
Defined.

Example midGame_waits_for_A :
  startRevealRound midGame
  = Ok (mkState [playerA; playerB] [] Revealing 0 [] None [0]).
Proof. reflexivity. Qed.

(** ** Who wins *)

(** Not every state in phase [showdown] names a winner: a player may have
    fewer than five cards, and then [determineWinner] throws. *)
Lemma determineWinner_short_hand_throws :
  phase shortShowdown = Showdown
  /\ players shortShowdown <> []
  /\ determineWinner shortShowdown
     = Throw (Error "Need at least 5 cards to evaluate").
Proof. repeat split. discriminate. Qed.

(** [determineWinner] on hands of five cards or more. *)
Lemma determineWinner_max (s : GameState) :
  phase s = Showdown -> players s <> [] ->
  (forall p, In p (players s) ->
             (5 <= length (doorCards p ++ revealedHoleCards p ++ holeCards p))%nat) ->
  exists m,
    (exists p, In p (players s) /\ finalStrength p = m)
    /\ (forall p, In p (players s) -> finalStrength p <= m)
    /\ determineWinner s
       = Ok (mkState (players s) (deadCards s) Finished (currentRound s)
                     (revealHistory s)
                     (Some (filter (fun p => finalStrength p =? m) (players s)))
                     (waitingForPlayers s)).
Proof.
  intros Hph Hne Hfive. unfold determineWinner. rewrite Hph.
  simpl negb. cbv iota.
  assert (Hok : forall p, In p (players s) ->
                          exists h, getFinalStrength p = Ok h)
    by (intros p Hp; apply findBestHand_total, Hfive, Hp).
  destruct (mapM_paired getFinalStrength finalStrength finalStrength_get
              (players s) Hok) as (hs & -> & Hp).
  cbn [bind].
  destruct hs as [|s0 hs']; [inversion Hp; subst; congruence|].
  change (idx (s0 :: hs') 0) with (Ok s0). cbn [bind].
  assert (Ehs : exists hs, hs = s0 :: hs') by (eexists; reflexivity).
  destruct Ehs as [hs Ehs]. rewrite <- Ehs in *.
  set (m := maxOver hs (strength (snd s0))).
  destruct (maxOver_spec hs (strength (snd s0))) as (_ & Hle & Hatt).
  fold m in Hle, Hatt.
  destruct (paired_In _ _ _ Hp) as [Hs Hl].
  exists m. split; [|split].
  - assert (Hex : exists s, In s hs /\ strength (snd s) = m).
    { destruct Hatt as [E|Hex]; [|exact Hex].
      exists s0. split; [rewrite Ehs; left; reflexivity | congruence]. }
    destruct Hex as (s1 & Hin & E).
    exists (fst s1). destruct (Hs s1 Hin) as [Hf Hv]. split; [exact Hf | lia].
  - intros p Hin. destruct (Hl p Hin) as (s1 & Hsin & Hv).
    specialize (Hle s1 Hsin). lia.
  - rewrite (paired_filter finalStrength _ _ m Hp). reflexivity.
Qed.


(** C3 (amended).  In phase [showdown], with at least one player and every
    player having at least five cards in all, the phase becomes [finished]
    and [winner] is exactly the players whose final strength, over door,
    revealed and remaining hole cards, is the maximum: every tied player and
    nobody weaker. *)
Theorem determineWinner_strongest (s : GameState) :
  phase s = Showdown -> players s <> [] ->
  (forall p, In p (players s) ->
             (5 <= length (doorCards p ++ revealedHoleCards p ++ holeCards p))%nat) ->
  exists m,
    (exists p, In p (players s) /\ finalStrength p = m)
    /\ (forall p, In p (players s) -> finalStrength p <= m)
    /\ determineWinner s
       = Ok (mkState (players s) (deadCards s) Finished (currentRound s)
                     (revealHistory s)
                     (Some (filter (fun p => finalStrength p =? m) (players s)))
                     (waitingForPlayers s)).
Proof. exact (determineWinner_max s). Qed.

Example tied_winners :
  exists s', determineWinner tiedShowdown = Ok s'
             /\ phase s' = Finished
             /\ option_map (map player_id) (winner s') = Some [1; 3].
Proof. eexists. split; [vm_compute; reflexivity|]. split; reflexivity. Qed.

Lemma determineWinner_strongest_witness :
  exists m,
    (exists p, In p (players tiedShowdown) /\ finalStrength p = m)
    /\ (forall p, In p (players tiedShowdown) -> finalStrength p <= m)
    /\ determineWinner tiedShowdown
       = Ok (mkState (players tiedShowdown) (deadCards tiedShowdown) Finished
                     (currentRound tiedShowdown) (revealHistory tiedShowdown)
                     (Some (filter (fun p => finalStrength p =? m)
                                   (players tiedShowdown)))
                     (waitingForPlayers tiedShowdown)).
Proof.
  apply (determineWinner_strongest tiedShowdown).
  - reflexivity.
  - discriminate.
  - intros p [<-|[<-|[<-|[<-|[]]]]]; simpl; lia.
Defined.

(** ** Dealing *)

Lemma slice_length {A : Type} (l : list A) (a b : nat) :
  (b <= length l)%nat -> length (slice l a b) = (b - a)%nat.
Proof.
  intros H. unfold slice. rewrite length_firstn, length_skipn. lia.
Qed.

Lemma slice_length_le {A : Type} (l : list A) (a b : nat) :
  (length (slice l a b) <= b - a)%nat.
Proof. unfold slice. rewrite length_firstn. lia. Qed.

Lemma dealPlayers_cons (deck : list Card) (cfg : DifficultyConfig)
    (nm : string) (names : list string) (i k : nat) :
  let config := seatConfig cfg i in
  let k1 := (k + cfg_doorCards config)%nat in
  let k2 := (k1 + cfg_holeCards config)%nat in
  dealPlayers deck cfg (nm :: names) i k
  = (mkPlayer (Z.of_nat i) nm (slice deck k k1) (slice deck k1 k2) []
       :: fst (dealPlayers deck cfg names (S i) k2),
     snd (dealPlayers deck cfg names (S i) k2)).
Proof.
  cbv zeta. unfold seatConfig. cbn [dealPlayers].
  destruct (dealPlayers deck cfg names (S i) _). reflexivity.
Qed.

Lemma dealPlayers_spec (deck : list Card) (cfg : DifficultyConfig)
    (names : list string) (i k : nat) :
  (5 <= cfg_doorCards cfg)%nat -> (cfg_holeCards cfg <= 5)%nat ->
  (cfg_doorCards cfg + cfg_holeCards cfg <= 10)%nat ->
  (k + 10 * length names <= length deck)%nat ->
  let ps := fst (dealPlayers deck cfg names i k) in
  length ps = length names
  /\ Forall (fun p => (5 <= length (doorCards p))%nat) ps
  /\ Forall (fun p => (length (holeCards p) <= 5)%nat) ps
  /\ (i <> 0%nat -> Forall (fun p => length (holeCards p) = 5%nat) ps).
Proof.
  intros Hd Hh Hsum. revert i k.
  induction names as [|nm names IH]; intros i k Hk.
  - simpl. repeat split; constructor.
  - cbv zeta. rewrite dealPlayers_cons. cbv zeta. cbn [fst].
    set (config := seatConfig cfg i).
    assert (Hc : (5 <= cfg_doorCards config)%nat
                 /\ (cfg_holeCards config <= 5)%nat
                 /\ (cfg_doorCards config + cfg_holeCards config <= 10)%nat
                 /\ (i <> 0%nat -> cfg_holeCards config = 5%nat)).
    { unfold config, seatConfig. destruct (Nat.eqb_spec i 0); simpl; lia. }
    destruct Hc as (Hcd & Hch & Hcs & Hcn). simpl length in Hk.
    destruct (IH (S i) (k + cfg_doorCards config + cfg_holeCards config)%nat)
      as (Hl & Hdoor & Hhole & Hfive); [lia|].
    split; [simpl; lia|]. split; [|split].
    + constructor; [|exact Hdoor]. simpl. rewrite slice_length; lia.
    + constructor; [|exact Hhole]. simpl.
      pose proof (slice_length_le deck (k + cfg_doorCards config)
                    (k + cfg_doorCards config + cfg_holeCards config)).
      lia.
    + intros Hi. constructor; [|apply Hfive; lia]. simpl.
      rewrite slice_length; [|lia]. specialize (Hcn Hi). lia.
Qed.

Lemma hidden_le (ps : list Player) (n : nat) :
  Forall (fun p => (length (holeCards p) <= n)%nat) ps ->
  (hidden ps <= n * length ps)%nat.
Proof.
  unfold hidden. induction 1 as [|p ps Hp _ IH]; simpl; lia.
Qed.

Lemma DIFFICULTY_CONFIGS_bounds (d : Difficulty) :
  (5 <= cfg_doorCards (DIFFICULTY_CONFIGS d))%nat
  /\ (cfg_holeCards (DIFFICULTY_CONFIGS d) <= 5)%nat
  /\ (cfg_doorCards (DIFFICULTY_CONFIGS d)
      + cfg_holeCards (DIFFICULTY_CONFIGS d) <= 10)%nat.
Proof. destruct d; simpl; lia. Qed.

(** [initializeGame] with 2 to 5 names on a deck of 52 cards returns a state
    the game can be played from. *)
Lemma initializeGame_unfold (names : list string) (d : Difficulty)
    (deck : list Card) :
  initializeGame names d deck =
  if (length names <? 2)%nat || (5 <? length names)%nat
  then Throw (Error "Game requires 2-5 players")
  else
    let dealt := dealPlayers deck (DIFFICULTY_CONFIGS d) names 0 0 in
    Ok (mkState (fst dealt) (skipn (snd dealt) deck) Revealing 0 [] None []).
Proof.
  unfold initializeGame.
  destruct (dealPlayers deck (DIFFICULTY_CONFIGS d) names 0 0). reflexivity.
Qed.

Lemma initializeGame_playable (names : list string) (d : Difficulty)
    (deck : list Card) :
  (2 <= length names <= 5)%nat -> length deck = 52%nat ->
  exists s0,
    initializeGame names d deck = Ok s0
    /\ playable s0 /\ phase s0 = Revealing
    /\ (hidden (players s0) <= 25)%nat.
Proof.
  intros [Hlo Hhi] Hdeck. rewrite initializeGame_unfold.
  destruct (Nat.ltb_spec (length names) 2) as [|_]; [lia|].
  destruct (Nat.ltb_spec 5 (length names)) as [|_]; [lia|].
  simpl orb. cbv iota zeta.
  destruct (DIFFICULTY_CONFIGS_bounds d) as (Hd & Hh & Hsum).
  destruct (dealPlayers_spec deck (DIFFICULTY_CONFIGS d) names 0 0
              Hd Hh Hsum ltac:(lia)) as (Hl & Hdoor & Hhole & _).
  eexists. split; [reflexivity|]. unfold playable. cbn [players phase].
  split; [|split; [reflexivity|]].
  - split; [|split; [exact Hdoor|]].
    + intros E. rewrite E in Hl. simpl in Hl. lia.
    + left. split; [reflexivity|].
      destruct names as [|n0 [|n1 rest]]; try (simpl in Hlo; lia).
      rewrite dealPlayers_cons. cbv zeta. cbn [fst].
      set (k2 := (0 + cfg_doorCards (seatConfig (DIFFICULTY_CONFIGS d) 0)
                  + cfg_holeCards (seatConfig (DIFFICULTY_CONFIGS d) 0))%nat).
      assert (Hk2 : (k2 <= 10)%nat) by (unfold k2, seatConfig; simpl; lia).
      destruct (dealPlayers_spec deck (DIFFICULTY_CONFIGS d) (n1 :: rest) 1 k2
                  Hd Hh Hsum) as (Hl1 & _ & _ & Hfive).
      { simpl length in *. lia. }
      specialize (Hfive ltac:(lia)).
      destruct (fst (dealPlayers deck (DIFFICULTY_CONFIGS d) (n1 :: rest) 1 k2))
        as [|p1 ps]; [discriminate Hl1|].
      inversion Hfive; subst. unfold hidden. simpl. lia.
  - pose proof (hidden_le _ 5 Hhole) as Hle. lia.
Qed.

(** ** Reveal rounds make progress *)

Lemma revealFirst_doorCards (w : list Player) (p : Player) :
  doorCards (fst (revealFirst w p)) = doorCards p.
Proof.
  unfold revealFirst.
  destruct (existsb _ w); [|reflexivity].
  destruct (holeCards p); reflexivity.
Qed.

Lemma revealFirst_holeCards (w : list Player) (p : Player) :
  (length (holeCards (fst (revealFirst w p))) <= length (holeCards p))%nat
  /\ (existsb (fun wp => player_id wp =? player_id p) w = true ->
      holeCards p <> [] ->
      (length (holeCards (fst (revealFirst w p))) < length (holeCards p))%nat).
Proof.
  unfold revealFirst.
  destruct (existsb _ w).
  - destruct p as [i nm door hole rev]. simpl.
    destruct hole as [|c hole]; simpl.
    + split; [lia | congruence].
    + split; [lia | intros; lia].
  - simpl. split; [lia | discriminate].
Qed.

Lemma hidden_map_lt (f : Player -> Player) (ps : list Player) :
  (forall p, (length (holeCards (f p)) <= length (holeCards p))%nat) ->
  (exists p, In p ps
             /\ (length (holeCards (f p)) < length (holeCards p))%nat) ->
  (hidden (map f ps) < hidden ps)%nat.
Proof.
  intros Hle (p & Hin & Hlt). unfold hidden.
  assert (Hall : forall l,
             (list_sum (map (fun q => length (holeCards q)) (map f l))
              <= list_sum (map (fun q => length (holeCards q)) l))%nat).
  { induction l as [|q l IH]; simpl; [lia|]. specialize (Hle q). lia. }
  induction ps as [|q ps IH]; [destruct Hin|]. simpl.
  destruct Hin as [->|Hin].
  - specialize (Hall ps). lia.
  - specialize (IH Hin). specialize (Hle q). lia.
Qed.

Lemma hidden_pos_holders (ps : list Player) :
  (0 < hidden ps)%nat -> filter holdsHoleCard ps <> [].
Proof.
  unfold hidden. induction ps as [|p ps IH]; simpl; [lia|].
  intros H. unfold holdsHoleCard at 1.
  destruct (Nat.ltb_spec 0 (length (holeCards p))); [discriminate|].
  apply IH. lia.
Qed.

Lemma not_all_revealed (ps : list Player) :
  forallb (fun p => (length (holeCards p) =? 0)%nat) ps = false ->
  (0 < hidden ps)%nat.
Proof.
  unfold hidden. induction ps as [|p ps IH]; simpl; [discriminate|].
  destruct (Nat.eqb_spec (length (holeCards p)) 0); simpl; [|lia].
  intros H. specialize (IH H). lia.
Qed.

Lemma playable_shows_five (s : GameState) (p : Player) :
  playable s -> In p (players s) ->
  (5 <= length (doorCards p ++ revealedHoleCards p))%nat
  /\ (5 <= length (doorCards p ++ revealedHoleCards p ++ holeCards p))%nat.
Proof.
  intros (_ & Hdoor & _) Hin. rewrite Forall_forall in Hdoor.
  specialize (Hdoor p Hin). rewrite !length_app. lia.
Qed.

(** A reveal round of a playable state in phase [revealing] returns, keeps
    the state playable and hides strictly fewer hole cards. *)
Lemma processRevealRound_progress (s : GameState) :
  playable s -> phase s = Revealing ->
  exists s',
    processRevealRound s = Ok s' /\ playable s'
    /\ (hidden (players s') < hidden (players s))%nat.
Proof.
  intros Hplay Hph.
  assert (Hshow : forall p, In p (players s) -> holeCards p <> [] ->
                            (5 <= length (doorCards p
                                          ++ revealedHoleCards p))%nat)
    by (intros p Hp _; apply (playable_shows_five s p Hplay Hp)).
  destruct Hplay as (Hne & Hdoor & [[_ Hpos]|Hsd]); [|congruence].
  destruct (findWeakestPlayers_spec (players s) Hshow) as [_ Hsome].
  destruct (Hsome (hidden_pos_holders _ Hpos))
    as (m & (p & Hp & Em) & _ & Hw).
  unfold processRevealRound. rewrite Hph, Hw. simpl negb. cbv iota.
  cbn [bind].
  set (weakest := filter (fun p => currentStrength p =? m)
                         (filter holdsHoleCard (players s))) in *.
  assert (Hpw : In p weakest)
    by (apply filter_In; split; [exact Hp | lia]).
  destruct (Nat.eqb_spec (length weakest) 0) as [E|_].
  { apply length_zero_iff_nil in E. rewrite E in Hpw. destruct Hpw. }
  set (newPlayers := map (fun p => fst (revealFirst weakest p)) (players s)).
  eexists. split; [reflexivity|]. cbn [players phase].
  assert (Hlt : (hidden newPlayers < hidden (players s))%nat).
  { apply hidden_map_lt.
    - intros q. apply revealFirst_holeCards.
    - apply filter_In in Hp as [Hin Hh]. exists p. split; [exact Hin|].
      apply revealFirst_holeCards.
      + apply existsb_exists. exists p. split; [exact Hpw | lia].
      + unfold holdsHoleCard in Hh. destruct (holeCards p);
          [discriminate | discriminate]. }
  split; [|exact Hlt].
  split; [|split].
  - cbn [players]. unfold newPlayers.
    destruct (players s); [congruence | discriminate].
  - cbn [players]. unfold newPlayers. apply Forall_map.
    eapply Forall_impl; [|exact Hdoor].
    intros q Hq. rewrite revealFirst_doorCards. exact Hq.
  - cbn [players phase].
    destruct (forallb (fun p => (length (holeCards p) =? 0)%nat) newPlayers)
      eqn:Eall.
    + right; reflexivity.
    + left. split; [reflexivity | apply not_all_revealed, Eall].
Qed.

Lemma processRevealRound_playable (s : GameState) :
  playable s -> exists s', processRevealRound s = Ok s' /\ playable s'.
Proof.
  intros Hplay.
  destruct (Phase_eqb (phase s) Revealing) eqn:Hph.
  - apply Phase_eqb_eq in Hph.
    destruct (processRevealRound_progress s Hplay Hph) as (s' & E & Hp & _).
    exists s'. split; assumption.
  - exists s. split; [|exact Hplay].
    unfold processRevealRound. rewrite Hph. reflexivity.
Qed.

Lemma rounds_playable (n : nat) (s0 s : GameState) :
  playable s0 -> rounds n s0 = Ok s -> playable s.
Proof.
  revert s0. induction n as [|n IH]; intros s0 Hplay; simpl.
  - intros [= <-]. exact Hplay.
  - destruct (processRevealRound_playable s0 Hplay) as (s1 & -> & Hp1).
    cbn [bind]. apply IH, Hp1.
Qed.

(** The loop of [runFullGame] ends in phase [showdown] once the fuel exceeds
    the number of hidden hole cards. *)
Lemma revealLoop_terminates (fuel : nat) (s : GameState) :
  playable s -> (hidden (players s) < fuel)%nat ->
  exists s', revealLoop fuel s = Ok s' /\ playable s' /\ phase s' = Showdown.
Proof.
  revert s. induction fuel as [|fuel IH]; intros s Hplay Hfuel; [lia|].
  simpl. destruct (Phase_eqb (phase s) Revealing) eqn:Hph.
  - apply Phase_eqb_eq in Hph.
    destruct (processRevealRound_progress s Hplay Hph) as (s1 & -> & Hp1 & Hlt).
    cbn [bind]. apply IH; [exact Hp1 | lia].
  - exists s. split; [reflexivity|]. split; [exact Hplay|].
    destruct Hplay as (_ & _ & [[E _]|E]); [|exact E].
    rewrite E in Hph. discriminate.
Qed.

(** The result of the loop does not depend on the fuel left over. *)
Lemma revealLoop_fuel (f1 f2 : nat) (s a b : GameState) :
  revealLoop f1 s = Ok a -> revealLoop f2 s = Ok b -> a = b.
Proof.
  revert f2 s. induction f1 as [|f1 IH]; intros f2 s; simpl.
  - destruct (Phase_eqb (phase s) Revealing) eqn:Hph; [discriminate|].
    intros [= <-]. destruct f2; simpl; rewrite Hph; congruence.
  - destruct (Phase_eqb (phase s) Revealing) eqn:Hph.
    + destruct f2; simpl; rewrite Hph; [discriminate|].
      destruct (processRevealRound s) as [s'|]; [|discriminate].
      cbn [bind]. apply IH.
    + intros [= <-]. destruct f2; simpl; rewrite Hph; congruence.
Qed.

(** ** A full game *)

(** C4.  From [initializeGame] with 2 to 5 names on a shuffled deck of 52
    cards, [runFullGame] returns once its loop may run more rounds than
    hole cards are hidden (at most 25): the final state is in phase
    [finished] and its winner list is not empty.  Each reveal round met on
    the way, in phase [revealing], strictly decreases the number of hidden
    hole cards. *)
Theorem runFullGame_finishes (names : list string) (d : Difficulty)
    (deck : list Card) :
  (2 <= length names <= 5)%nat -> shuffled_deck deck ->
  exists s0,
    initializeGame names d deck = Ok s0
    /\ (hidden (players s0) <= 25)%nat
    /\ (exists final w,
           (forall fuel, (hidden (players s0) < fuel)%nat ->
                         runFullGame fuel s0 = Ok final)
           /\ phase final = Finished
           /\ winner final = Some w /\ w <> [])
    /\ (forall n s,
           rounds n s0 = Ok s -> phase s = Revealing ->
           exists s', processRevealRound s = Ok s'
                      /\ (hidden (players s') < hidden (players s))%nat).
Proof.
  intros Hn [Hdeck _].
  destruct (initializeGame_playable names d deck Hn Hdeck)
    as (s0 & E0 & Hplay & _ & H25).
  exists s0. split; [exact E0|]. split; [exact H25|]. split.
  - destruct (revealLoop_terminates (S (hidden (players s0))) s0 Hplay
                ltac:(lia)) as (s1 & E1 & Hp1 & Hph1).
    destruct (determineWinner_max s1 Hph1 (proj1 Hp1)
                (fun p Hp => proj2 (playable_shows_five s1 p Hp1 Hp)))
      as (m & (p & Hin & Em) & _ & Ew).
    set (w := filter (fun p => finalStrength p =? m) (players s1)) in *.
    exists (mkState (players s1) (deadCards s1) Finished (currentRound s1)
                    (revealHistory s1) (Some w) (waitingForPlayers s1)), w.
    split; [|split; [reflexivity|split; [reflexivity|]]].
    + intros fuel Hfuel.
      destruct (revealLoop_terminates fuel s0 Hplay Hfuel)
        as (s2 & E2 & _ & Hph2).
      rewrite (revealLoop_fuel _ _ _ _ _ E2 E1) in E2.
      unfold runFullGame. rewrite E2. cbn [bind]. rewrite Hph1. exact Ew.
    + intros Hnil.
      assert (Hp : In p w) by (apply filter_In; split; [exact Hin | lia]).
      rewrite Hnil in Hp. destruct Hp.
  - intros n s Er Hph.
    pose proof (rounds_playable n s0 s Hplay Er) as Hp.
    destruct (processRevealRound_progress s Hp Hph) as (s' & E & _ & Hlt).
    exists s'. split; assumption.
Qed.

Lemma distinct_strings_NoDup (l : list string) :
  distinct_strings l = true -> NoDup l.
Proof.
  induction l as [|x l IH]; simpl; [constructor|].
  rewrite andb_true_iff, negb_true_iff. intros [Hx Hl].
  constructor; [|apply IH, Hl].
  intros Hin.
  assert (Hex : existsb (String.eqb x) l = true)
    by (apply existsb_exists; exists x; split;
        [exact Hin | apply String.eqb_refl]).
  congruence.
Qed.

Lemma standardDeck_shuffled : shuffled_deck standardDeck.
Proof.
  split; [reflexivity|]. apply distinct_strings_NoDup. vm_compute. reflexivity.
Qed.

(** Two players on the unshuffled deck: seat 1 reveals alone until its
    diamonds tie the straight flush of seat 0, then both reveal, and seat 0
    reveals alone once seat 1 has no hole card left. *)
Example sample_game_runs :
  exists final,
    runFullGame 8 sampleStart = Ok final
    /\ phase final = Finished
    /\ currentRound final = 8
    /\ hidden (players final) = 0%nat
    /\ map playerIds (revealHistory final)
       = [[1]; [1]; [1]; [0; 1]; [0; 1]; [0]; [0]; [0]]
    /\ option_map (map player_id) (winner final) = Some [0]
    /\ runFullGame 7 sampleStart = Throw OutOfFuel.
Proof.
  eexists. split; [vm_compute; reflexivity|]. repeat split.
Qed.

Lemma runFullGame_finishes_witness :
  exists s0,
    initializeGame sampleNames hard standardDeck = Ok s0
    /\ (hidden (players s0) <= 25)%nat
    /\ (exists final w,
           (forall fuel, (hidden (players s0) < fuel)%nat ->
                         runFullGame fuel s0 = Ok final)
           /\ phase final = Finished
           /\ winner final = Some w /\ w <> [])
    /\ (forall n s,
           rounds n s0 = Ok s -> phase s = Revealing ->
           exists s', processRevealRound s = Ok s'
                      /\ (hidden (players s') < hidden (players s))%nat).
Proof.
  apply (runFullGame_finishes sampleNames hard standardDeck).
  - simpl; lia.
  - split; [reflexivity|].
    apply distinct_strings_NoDup. vm_compute. reflexivity.
Defined.

(** ** Conservation of the cards *)

Lemma slices_prefix {A : Type} (l : list A) (k d h : nat) :
  exists rest,
    skipn k l = (slice l k (k + d) ++ slice l (k + d) (k + d + h)) ++ rest.
Proof.
  unfold slice.
  replace (k + d - k)%nat with d by lia.
  replace (k + d + h - (k + d))%nat with h by lia.
  exists (skipn h (skipn (k + d) l)).
  rewrite <- app_assoc, firstn_skipn.
  replace (k + d)%nat with (d + k)%nat by lia.
  rewrite <- skipn_skipn. apply eq_sym, firstn_skipn.
Qed.

Lemma dealPlayers_distinct (deck : list Card) (cfg : DifficultyConfig)
    (names : list string) (i k : nat) :
  NoDup (map card_id deck) ->
  Forall (fun p => NoDup (map card_id (allCards p)))
         (fst (dealPlayers deck cfg names i k)).
Proof.
  intros Hnd. revert i k.
  induction names as [|nm names IH]; intros i k.
  - constructor.
  - rewrite dealPlayers_cons. cbv zeta. cbn [fst].
    constructor; [|apply IH].
    unfold allCards. cbn [doorCards holeCards revealedHoleCards].
    rewrite app_nil_r.
    destruct (slices_prefix deck k (cfg_doorCards (seatConfig cfg i))
                (cfg_holeCards (seatConfig cfg i))) as [rest Hrest].
    rewrite <- (firstn_skipn k deck), Hrest, !map_app in Hnd.
    apply NoDup_app_remove_l, NoDup_app_remove_r in Hnd.
    rewrite map_app. exact Hnd.
Qed.

Lemma same_hand_refl (p : Player) :
  NoDup (map card_id (allCards p)) -> same_hand p p.
Proof.
  intros H. repeat split; [apply Permutation_refl | exact H].
Qed.

Lemma moves_at_most_one_refl (p : Player) : moves_at_most_one p p.
Proof. repeat split. left; split; reflexivity. Qed.

Lemma Forall2_same {A : Type} (R : A -> A -> Prop) (l : list A) :
  (forall x, In x l -> R x x) -> Forall2 R l l.
Proof.
  induction l as [|x l IH]; intros H; constructor.
  - apply H; left; reflexivity.
  - apply IH. intros y Hy. apply H; right; exact Hy.
Qed.

Lemma Forall2_compose {A : Type} (R S T : A -> A -> Prop) (l1 l2 l3 : list A) :
  (forall x y z, R x y -> S y z -> T x z) ->
  Forall2 R l1 l2 -> Forall2 S l2 l3 -> Forall2 T l1 l3.
Proof.
  intros H H12. revert l3.
  induction H12 as [|x y l1 l2 Hxy _ IH]; intros l3 H23;
    inversion H23; subst; constructor; eauto.
Qed.

Lemma Forall2_map_r {A : Type} (R : A -> A -> Prop) (f : A -> A) (l : list A) :
  (forall x, R x (f x)) -> Forall2 R l (map f l).
Proof. intros H. induction l; simpl; constructor; auto. Qed.

Lemma Forall2_set_index {A : Type} (R : A -> A -> Prop) (l : list A) (i : nat)
    (x y : A) :
  (forall z, R z z) -> nth_error l i = Some x -> R x y ->
  Forall2 R l (set_index l i y).
Proof.
  intros Hrefl. revert i.
  induction l as [|z l IH]; intros i Hnth Hxy; [destruct i; discriminate|].
  destruct i as [|i]; simpl in *.
  - injection Hnth as ->. constructor; [exact Hxy|].
    apply Forall2_same. intros; apply Hrefl.
  - constructor; [apply Hrefl | apply IH; assumption].
Qed.

(** A player who moved at most one hole card still has the hand dealt. *)
Lemma same_hand_moves (p0 p p' : Player) :
  same_hand p0 p -> moves_at_most_one p p' -> same_hand p0 p'.
Proof.
  intros (Hid & Hdoor & Hperm & Hnd) (Hid' & Hdoor' & Hmove).
  assert (HP : Permutation (allCards p') (allCards p)).
  { unfold allCards. rewrite Hdoor'.
    destruct Hmove as [[-> ->]|(c & pre & post & -> & -> & -> & _)];
      [apply Permutation_refl|].
    apply Permutation_app_head.
    rewrite <- !app_assoc. apply Permutation_app_head. simpl.
    eapply Permutation_trans;
      [apply Permutation_app_head, Permutation_app_comm|].
    simpl. apply Permutation_sym, Permutation_middle. }
  repeat split; try congruence.
  - eapply Permutation_trans; eassumption.
  - eapply Permutation_NoDup; [|exact Hnd].
    apply Permutation_map, Permutation_sym, HP.
Qed.

Lemma revealFirst_moves (w : list Player) (p : Player) :
  moves_at_most_one p (fst (revealFirst w p)).
Proof.
  unfold revealFirst.
  destruct (existsb _ w); [|apply moves_at_most_one_refl].
  destruct (holeCards p) as [|c rest] eqn:E; [apply moves_at_most_one_refl|].
  repeat split; simpl. right. exists c, [], rest. rewrite E.
  repeat split.
Qed.

(** Removing the cards with the id of the first card that has it removes
    that card only, when ids are distinct. *)
Lemma filter_out_found (hole : list Card) (cardId : string) (ci : nat) :
  NoDup (map card_id hole) ->
  findIndex (fun c => String.eqb (card_id c) cardId) hole = Some ci ->
  exists c pre post,
    hole = pre ++ c :: post
    /\ nth_error hole ci = Some c
    /\ filter (fun c => negb (String.eqb (card_id c) cardId)) hole
       = pre ++ post.
Proof.
  intros Hnd Hfind.
  destruct (findIndex_Some _ _ _ Hfind) as (pre & c & post & -> & Hl & Hc & Hpre).
  exists c, pre, post. split; [reflexivity|]. split.
  - rewrite nth_error_app2 by lia.
    replace (ci - length pre)%nat with 0%nat by lia. reflexivity.
  - apply String.eqb_eq in Hc.
    rewrite filter_app. cbn [filter]. rewrite Hc, String.eqb_refl.
    cbn [negb]. rewrite map_app in Hnd. apply NoDup_remove_2 in Hnd.
    f_equal.
    + apply forallb_filter_id. apply forallb_forall. intros y Hy.
      rewrite (Hpre y Hy). reflexivity.
    + apply forallb_filter_id. apply forallb_forall. intros y Hy.
      destruct (String.eqb_spec (card_id y) cardId) as [E|]; [|reflexivity].
      exfalso. apply Hnd. simpl. apply in_or_app. right.
      rewrite Hc, <- E. apply in_map, Hy.
Qed.

Lemma startRevealRound_players (s s' : GameState) :
  startRevealRound s = Ok s' -> players s' = players s.
Proof.
  unfold startRevealRound.
  destruct (negb (Phase_eqb (phase s) Revealing)); [congruence|].
  destruct (findWeakestPlayers (players s)) as [w|]; [|discriminate].
  cbn [bind]. destruct (length w =? 0)%nat; intros [= <-]; reflexivity.
Qed.

Lemma determineWinner_players (s s' : GameState) :
  determineWinner s = Ok s' -> players s' = players s.
Proof.
  unfold determineWinner.
  destruct (negb (Phase_eqb (phase s) Showdown)); [congruence|].
  destruct (mapM _ (players s)) as [hs|]; [|discriminate].
  cbn [bind]. destruct (idx hs 0); [|discriminate].
  cbn [bind]. intros [= <-]; reflexivity.
Qed.

Lemma processRevealRound_players (s s' : GameState) :
  processRevealRound s = Ok s' ->
  players s' = players s
  \/ exists w, players s' = map (fun p => fst (revealFirst w p)) (players s).
Proof.
  unfold processRevealRound.
  destruct (negb (Phase_eqb (phase s) Revealing)); [left; congruence|].
  destruct (findWeakestPlayers (players s)) as [w|]; [|discriminate].
  cbn [bind]. destruct (length w =? 0)%nat; intros [= <-];
    [left; reflexivity | right; exists w; reflexivity].
Qed.

Lemma revealSelectedCard_players (s s' : GameState) (playerId : Z)
    (cardId : string) :
  revealSelectedCard s playerId cardId = Ok s' ->
  players s' = players s
  \/ exists i player ci card,
      nth_error (players s) i = Some player
      /\ findIndex (fun c => String.eqb (card_id c) cardId) (holeCards player)
         = Some ci
      /\ nth_error (holeCards player) ci = Some card
      /\ players s'
         = set_index (players s) i
             (mkPlayer (player_id player) (name player) (doorCards player)
                (filter (fun c => negb (String.eqb (card_id c) cardId))
                        (holeCards player))
                (revealedHoleCards player ++ [card])).
Proof.
  unfold revealSelectedCard.
  destruct (negb (Phase_eqb (phase s) Revealing)); [left; congruence|].
  destruct (negb (existsb _ (waitingForPlayers s))); [left; congruence|].
  destruct (findIndex _ (players s)) as [i|]; [|left; congruence].
  unfold idx. destruct (nth_error (players s) i) as [player|] eqn:Ep;
    [|discriminate].
  cbn [bind].
  destruct (findIndex _ (holeCards player)) as [ci|] eqn:Ec;
    [|left; congruence].
  unfold at_index. destruct (nth_error (holeCards player) ci) as [card|] eqn:En;
    [|discriminate].
  cbn [bind].
  destruct (length _ =? 0)%nat; intros [= <-]; right;
    exists i, player, ci, card; repeat split; assumption.
Qed.

(** Every transition moves at most one hole card of each player, given
    distinct card ids in each hand. *)
Lemma step_moves (s s' : GameState) :
  (forall p, In p (players s) -> NoDup (map card_id (holeCards p))) ->
  step s s' -> Forall2 moves_at_most_one (players s) (players s').
Proof.
  intros Hnd Hstep.
  assert (Hsame : players s' = players s ->
                  Forall2 moves_at_most_one (players s) (players s')).
  { intros ->. apply Forall2_same. intros; apply moves_at_most_one_refl. }
  destruct Hstep as [s s' H|s s' pid cid H|s s' H|s s' H].
  - apply Hsame, (startRevealRound_players _ _ H).
  - destruct (revealSelectedCard_players _ _ _ _ H)
      as [E|(i & player & ci & card & Hp & Hc & Hn & ->)]; [exact (Hsame E)|].
    apply (Forall2_set_index _ _ _ player);
      [apply moves_at_most_one_refl | exact Hp |].
    destruct (filter_out_found (holeCards player) cid ci)
      as (c & pre & post & Eh & Hn' & Ef);
      [apply Hnd; eapply nth_error_In; exact Hp | exact Hc |].
    assert (c = card) by congruence. subst c.
    repeat split; simpl. right. exists card, pre, post.
    rewrite Ef, Eh. repeat split. rewrite !length_app. simpl. lia.
  - destruct (processRevealRound_players _ _ H) as [E|[w ->]];
      [exact (Hsame E)|].
    apply Forall2_map_r. intros p. apply revealFirst_moves.
  - apply Hsame, (determineWinner_players _ _ H).
Qed.

Lemma same_hand_hole_distinct (ps0 ps : list Player) (p : Player) :
  Forall2 same_hand ps0 ps -> In p ps -> NoDup (map card_id (holeCards p)).
Proof.
  induction 1 as [|p0 q ps0 ps (_ & _ & _ & Hnd) _ IH]; [intros []|].
  intros [<-|Hin]; [|apply IH, Hin].
  unfold allCards in Hnd. rewrite !map_app in Hnd.
  apply NoDup_app_remove_l, NoDup_app_remove_r in Hnd. exact Hnd.
Qed.

(** Every reachable state holds, seat by seat, the hands of the deal. *)
Lemma reachable_same_hands (s0 s : GameState) :
  Forall2 same_hand (players s0) (players s0) ->
  reachable s0 s -> Forall2 same_hand (players s0) (players s).
Proof.
  intros H0. induction 1 as [|s s' _ IH Hstep]; [exact H0|].
  eapply Forall2_compose; [exact same_hand_moves | exact IH |].
  apply step_moves; [|exact Hstep].
  intros p Hp. eapply same_hand_hole_distinct; eassumption.
Qed.

(** C8.  In every state reachable from [initializeGame] on a shuffled deck,
    each player has the door cards dealt, the cards dealt in all (door, hole
    and revealed hole cards together, as a multiset) and no card twice; and
    each transition from such a state leaves the door cards of each player
    alone and moves at most one of the hole cards, to the revealed ones. *)
Theorem cards_conserved (names : list string) (d : Difficulty)
    (deck : list Card) (s0 s : GameState) :
  shuffled_deck deck -> initializeGame names d deck = Ok s0 ->
  reachable s0 s ->
  Forall2 same_hand (players s0) (players s)
  /\ (forall s', step s s' ->
                 Forall2 moves_at_most_one (players s) (players s')).
Proof.
  intros [_ Hnd] Hinit Hreach.
  assert (H0 : Forall2 same_hand (players s0) (players s0)).
  { rewrite initializeGame_unfold in Hinit.
    destruct (_ || _); [discriminate|]. cbv zeta in Hinit.
    injection Hinit as <-. cbn [players].
    apply Forall2_same. intros p Hp. apply same_hand_refl.
    pose proof (dealPlayers_distinct deck (DIFFICULTY_CONFIGS d) names 0 0 Hnd)
      as Hall.
    rewrite Forall_forall in Hall. apply Hall, Hp. }
  pose proof (reachable_same_hands s0 s H0 Hreach) as Hs.
  split; [exact Hs|].
  intros s' Hstep. apply step_moves; [|exact Hstep].
  intros p Hp. eapply same_hand_hole_distinct; eassumption.
Qed.

Lemma cards_conserved_witness :
  Forall2 same_hand (players sampleStart) (players sampleStart)
  /\ (forall s', step sampleStart s' ->
                 Forall2 moves_at_most_one (players sampleStart) (players s')).
Proof.
  apply (cards_conserved sampleNames normal standardDeck sampleStart sampleStart).
  - split; [reflexivity|].
    apply distinct_strings_NoDup. vm_compute. reflexivity.
  - vm_compute. reflexivity.
  - apply reach_init.
Defined.


(** * Further properties of the hand evaluator *)

(** ** Rank counts *)

(** X1.  [getRankCounts] maps each rank of the hand to the number of cards
    that have it, holds no other key and no key twice, and its counts add
    up to the number of cards. *)
Theorem getRankCounts_lookup (cards : list Card) (r : Z) :
  map_get (getRankCounts cards) r
  = (if 0 <? cnt r (map rank cards)
     then Some (cnt r (map rank cards)) else None)
  /\ (In r (map fst (getRankCounts cards)) <-> In r (map rank cards))
  /\ NoDup (map fst (getRankCounts cards))
  /\ sumZ (map snd (getRankCounts cards)) = Z.of_nat (length cards).
Proof.
  destruct (getRankCounts_counts_of cards) as [Hnd Hget].
  split; [apply Hget|]. split; [|split; [exact Hnd | apply getRankCounts_sum]].
  rewrite <- (cnt_pos_In r (map rank cards)).
  destruct (map_get (getRankCounts cards) r) as [n|] eqn:E.
  - pose proof E as E'. rewrite Hget in E'.
    destruct (Z.ltb_spec 0 (cnt r (map rank cards))) as [Hpos|];
      [|discriminate].
    split; [intros _; exact Hpos|]. intros _.
    apply (map_get_In _ _ _ Hnd) in E.
    apply in_map_iff. exists (r, n). split; [reflexivity | exact E].
  - pose proof E as E'. rewrite Hget in E'.
    destruct (Z.ltb_spec 0 (cnt r (map rank cards))) as [|Hle];
      [discriminate|].
    apply map_get_None_keys in E. split; [tauto | intros; lia].
Qed.

(** ** Order of the cards *)

Lemma evaluateHand_cards (cs : list Card) (r : HandResult) :
  evaluateHand cs = Ok r ->
  length cs = 5%nat /\ cards r = cs
  /\ strength r = calculateStrength (hand_rank r) (kickers r)
  /\ length (kickers r) = kickerCount (hand_rank r)
  /\ Forall (fun k => In k (map rank cs)) (kickers r).
Proof.
  intros He.
  assert (Hlen : length cs = 5%nat).
  { unfold evaluateHand in He.
    destruct (Nat.eqb_spec (length cs) 5); [assumption | discriminate]. }
  destruct (evaluateHand_shape cs Hlen) as (hr & ks & He' & Hk & Hin).
  rewrite He' in He. injection He as <-. simpl. auto.
Qed.

(** X2.  The category, the kickers and the strength that [evaluateHand]
    gives five cards do not depend on the order in which they are given:
    on a rearrangement it returns the same result but for its [cards]. *)
Theorem evaluateHand_order_independent (cs cs' : list Card) (r : HandResult) :
  Permutation cs cs' -> evaluateHand cs = Ok r ->
  exists r',
    evaluateHand cs' = Ok r'
    /\ hand_rank r' = hand_rank r /\ kickers r' = kickers r
    /\ strength r' = strength r /\ cards r' = cs'.
Proof.
  intros HP He. exists (withCards cs' r).
  split; [exact (evaluateHand_perm cs cs' r HP He)|]. repeat split.
Qed.

Lemma evaluateHand_order_independent_witness :
  exists r',
    evaluateHand (rev pairHand) = Ok r'
    /\ hand_rank r' = hand_rank (handOf OnePair pairHand [13; 9; 7; 2])
    /\ kickers r' = kickers (handOf OnePair pairHand [13; 9; 7; 2])
    /\ strength r' = strength (handOf OnePair pairHand [13; 9; 7; 2])
    /\ cards r' = rev pairHand.
Proof.
  apply (evaluateHand_order_independent pairHand (rev pairHand)).
  - apply Permutation_rev.
  - reflexivity.
Defined.

(** ** Ties *)

Lemma HAND_RANK_VALUES_inj (a b : HandRank) :
  HAND_RANK_VALUES a = HAND_RANK_VALUES b -> a = b.
Proof. destruct a, b; simpl; intros H; try reflexivity; discriminate H. Qed.

Lemma lexCompare_Eq (k1 k2 : list Z) : lexCompare k1 k2 = Eq -> k1 = k2.
Proof.
  revert k2. induction k1 as [|a k1 IH]; intros [|b k2]; simpl;
    try discriminate; [reflexivity|].
  destruct (Z.compare_spec a b) as [Hab| |]; try discriminate.
  intros Hrest. subst. f_equal. apply IH, Hrest.
Qed.

(** X3.  Two five-card hands of valid cards have the same strength exactly
    when they have the same category and the same kickers; [compareHands]
    is then 0, and otherwise it is not. *)
Theorem strength_ties (h1 h2 : list Card) (r1 r2 : HandResult) :
  Forall valid_card h1 -> Forall valid_card h2 ->
  evaluateHand h1 = Ok r1 -> evaluateHand h2 = Ok r2 ->
  (compareHands r1 r2 = 0 <-> strength r1 = strength r2)
  /\ (strength r1 = strength r2 <->
      hand_rank r1 = hand_rank r2 /\ kickers r1 = kickers r2).
Proof.
  intros V1 V2 E1 E2. split; [unfold compareHands; lia|].
  destruct (evaluateHand_cards _ _ E1) as (_ & _ & S1 & K1 & I1).
  destruct (evaluateHand_cards _ _ E2) as (_ & _ & S2 & K2 & I2).
  split.
  - intros Heq.
    pose proof (evaluateHand_band h1 _ V1 E1) as B1.
    pose proof (evaluateHand_band h2 _ V2 E2) as B2.
    assert (Hr : hand_rank r1 = hand_rank r2)
      by (apply HAND_RANK_VALUES_inj; lia).
    split; [exact Hr|]. apply lexCompare_Eq.
    rewrite S1, S2, <- Hr in Heq.
    rewrite (calculateStrength_lex (hand_rank r1) (kickers r1) (kickers r2)).
    + apply Z.compare_eq_iff, Heq.
    + congruence.
    + rewrite K1. apply kickerCount_le_5.
    + apply (valid_kickers h1); assumption.
    + apply (valid_kickers h2); assumption.
  - intros [Hr Hk]. rewrite S1, S2, Hr, Hk. reflexivity.
Qed.

Lemma strength_ties_witness :
  (compareHands (handOf Straight wheelHand [5])
                (handOf OnePair pairHand [13; 9; 7; 2]) = 0
   <-> strength (handOf Straight wheelHand [5])
       = strength (handOf OnePair pairHand [13; 9; 7; 2]))
  /\ (strength (handOf Straight wheelHand [5])
      = strength (handOf OnePair pairHand [13; 9; 7; 2])
      <-> hand_rank (handOf Straight wheelHand [5])
          = hand_rank (handOf OnePair pairHand [13; 9; 7; 2])
          /\ kickers (handOf Straight wheelHand [5])
             = kickers (handOf OnePair pairHand [13; 9; 7; 2])).
Proof.
  apply (strength_ties wheelHand pairHand);
    try reflexivity;
    repeat constructor; unfold valid_card, valid_rank; simpl; lia.
Defined.

(** ** Combinations *)

Lemma subseq_nil_l {T : Type} (l : list T) : subseq [] l.
Proof. induction l; constructor; assumption. Qed.

Lemma subseq_refl {T : Type} (l : list T) : subseq l l.
Proof.
  induction l as [|x l IH]; [apply subseq_nil | apply subseq_take, IH].
Qed.

Lemma subseq_length {T : Type} (s l : list T) :
  subseq s l -> (length s <= length l)%nat.
Proof. induction 1; simpl; lia. Qed.

Lemma subseq_full {T : Type} (s l : list T) :
  subseq s l -> length s = length l -> s = l.
Proof.
  induction 1 as [|x s l H IH|x s l H IH]; simpl; intros Hlen.
  - reflexivity.
  - apply subseq_length in H. lia.
  - f_equal. apply IH. lia.
Qed.

Lemma subseq_trans {T : Type} (a b c : list T) :
  subseq a b -> subseq b c -> subseq a c.
Proof.
  intros Hab Hbc. revert a Hab.
  induction Hbc as [|x b c Hbc IH|x b c Hbc IH]; intros a Hab.
  - exact Hab.
  - constructor. apply IH, Hab.
  - inversion Hab as [|y s l Hs|y s l Hs]; subst.
    + apply subseq_skip, IH, Hs.
    + apply subseq_take, IH, Hs.
Qed.

Lemma subseq_app_l {T : Type} (l extra : list T) : subseq l (l ++ extra).
Proof.
  induction l as [|x l IH]; simpl;
    [apply subseq_nil_l | apply subseq_take, IH].
Qed.

Lemma subseq_app_r {T : Type} (l extra : list T) : subseq l (extra ++ l).
Proof.
  induction extra as [|x extra IH]; simpl;
    [apply subseq_refl | constructor; exact IH].
Qed.

Lemma subseq_incl {T : Type} (s l : list T) : subseq s l -> incl s l.
Proof.
  induction 1 as [|x s l H IH|x s l H IH]; intros y Hy.
  - exact Hy.
  - right. apply IH, Hy.
  - destruct Hy as [<-|Hy]; [left; reflexivity | right; apply IH, Hy].
Qed.

Lemma backtrackLoop_sound {T : Type} (k : nat) (rest current c : list T) :
  In c (backtrackLoop k rest current) ->
  exists s, c = current ++ s /\ s <> [] /\ subseq s rest.
Proof.
  revert current. induction rest as [|x rest IH]; intros current; simpl.
  - tauto.
  - rewrite in_app_iff. intros [H|H].
    + destruct (length (current ++ [x]) =? k)%nat.
      * destruct H as [<-|[]]. exists [x].
        split; [reflexivity|]. split; [discriminate|].
        apply subseq_take, subseq_nil_l.
      * destruct (IH _ H) as (s & -> & _ & Hs). exists (x :: s).
        split; [rewrite <- app_assoc; reflexivity|].
        split; [discriminate | apply subseq_take, Hs].
    + destruct (IH _ H) as (s & -> & Hne & Hs). exists s.
      split; [reflexivity|]. split; [exact Hne | apply subseq_skip, Hs].
Qed.

Lemma backtrackLoop_subseq {T : Type} (k : nat) (rest s : list T) :
  subseq s rest -> forall current,
  s <> [] -> (length current + length s = k)%nat ->
  In (current ++ s) (backtrackLoop k rest current).
Proof.
  induction 1 as [|x s l H IH|x s l H IH]; intros current Hne Hlen.
  - congruence.
  - simpl. apply in_or_app. right. apply IH; assumption.
  - simpl. apply in_or_app. left. simpl in Hlen.
    replace (current ++ x :: s) with ((current ++ [x]) ++ s)
      by (rewrite <- app_assoc; reflexivity).
    destruct (Nat.eqb_spec (length (current ++ [x])) k) as [E|E];
      rewrite length_app in E; simpl in E.
    + assert (Hnil : s = []) by (apply length_zero_iff_nil; lia).
      rewrite Hnil, app_nil_r. left; reflexivity.
    + apply IH.
      * intros Hnil. rewrite Hnil in Hlen. simpl in Hlen. lia.
      * rewrite length_app. simpl. lia.
Qed.

(** X4.  [combinations array k] holds exactly the selections of [k]
    elements of [array] kept in their order: each one it returns is such a
    selection, and every such selection is returned. *)
Theorem combinations_spec {T : Type} (array c : list T) (k : nat) :
  In c (combinations array k) <-> subseq c array /\ length c = k.
Proof.
  split.
  - intros Hin. split; [|exact (combinations_length k array c Hin)].
    unfold combinations, backtrack in Hin.
    destruct (length (@nil T) =? k)%nat.
    + destruct Hin as [<-|[]]. apply subseq_nil_l.
    + destruct (backtrackLoop_sound _ _ _ _ Hin) as (s & -> & _ & Hs).
      exact Hs.
  - intros [Hs Hlen]. unfold combinations, backtrack.
    destruct (Nat.eqb_spec (length (@nil T)) k) as [E|E]; simpl in E.
    + rewrite <- E in Hlen. apply length_zero_iff_nil in Hlen.
      left. congruence.
    + apply (backtrackLoop_subseq k array c Hs []); [|exact Hlen].
      intros ->. simpl in Hlen. congruence.
Qed.

Lemma choose_gt (n k : nat) : (n < k)%nat -> choose n k = 0%nat.
Proof.
  revert k. induction n as [|n IH]; intros [|k] H; simpl; try lia.
  rewrite !IH by lia. reflexivity.
Qed.

Lemma choose_fact (n k : nat) :
  (k <= n)%nat -> (choose n k * (fact k * fact (n - k)) = fact n)%nat.
Proof.
  revert k. induction n as [|n IH]; intros [|k] Hk; try lia.
  - reflexivity.
  - simpl choose. rewrite Nat.sub_0_r. simpl fact at 1. lia.
  - simpl choose. replace (S n - S k)%nat with (n - k)%nat by lia.
    pose proof (IH k ltac:(lia)) as H1.
    destruct (Nat.eq_dec k n) as [->|Hne].
    + rewrite (choose_gt n (S n)) by lia.
      rewrite Nat.sub_diag in *. change (fact 0) with 1%nat in *.
      change (fact (S n)) with (S n * fact n)%nat.
      rewrite Nat.add_0_r, Nat.mul_1_r in *.
      rewrite Nat.mul_assoc, (Nat.mul_comm (choose n n)), <- Nat.mul_assoc.
      rewrite H1. reflexivity.
    + pose proof (IH (S k) ltac:(lia)) as H2.
      replace (n - k)%nat with (S (n - S k)) in * by lia.
      remember (n - S k)%nat as m.
      remember (choose n k) as A. remember (choose n (S k)) as B.
      change (fact (S n)) with (S n * fact n)%nat.
      change (fact (S k)) with (S k * fact k)%nat in *.
      change (fact (S m)) with (S m * fact m)%nat in *.
      remember (fact k) as fk. remember (fact m) as fm.
      remember (fact n) as fn.
      transitivity (S k * (A * (fk * (S m * fm)))
                    + S m * (B * (S k * fk * fm)))%nat; [ring|].
      rewrite H1, H2. replace (S n) with (S k + S m)%nat by lia. ring.
Qed.

Lemma backtrackLoop_count {T : Type} (k : nat) (rest current : list T) :
  (length current < k)%nat ->
  length (backtrackLoop k rest current)
  = choose (length rest) (k - length current).
Proof.
  revert current. induction rest as [|x rest IH]; intros current Hlt; simpl.
  - destruct (k - length current)%nat eqn:E; [lia | reflexivity].
  - rewrite length_app.
    destruct (k - length current)%nat as [|j] eqn:E; [lia|].
    rewrite (IH current Hlt), E. f_equal.
    destruct (Nat.eqb_spec (length (current ++ [x])) k) as [E'|E'];
      rewrite length_app in E'; simpl in E'.
    + assert (j = 0%nat) by lia. subst j.
      destruct (length rest); reflexivity.
    + rewrite IH by (rewrite length_app; simpl; lia).
      rewrite length_app. simpl. f_equal. lia.
Qed.

Lemma combinations_choose {T : Type} (array : list T) (k : nat) :
  length (combinations array k) = choose (length array) k.
Proof.
  unfold combinations, backtrack.
  destruct (Nat.eqb_spec (length (@nil T)) k) as [E|E]; simpl in E.
  - subst k. destruct (length array); reflexivity.
  - rewrite backtrackLoop_count by (simpl; lia).
    simpl. rewrite Nat.sub_0_r. reflexivity.
Qed.

(** X5.  [combinations array k] has n! / (k! (n - k)!) elements for an array
    of length n >= k, none when k > n; for n <= 10 and k = 5 that is at most
    252. *)
Theorem combinations_count {T : Type} (array : list T) (k : nat) :
  ((k <= length array)%nat ->
   (length (combinations array k) * (fact k * fact (length array - k))
    = fact (length array))%nat)
  /\ ((length array < k)%nat -> combinations array k = [])
  /\ ((length array <= 10)%nat ->
      (length (combinations array 5) <= 252)%nat).
Proof.
  split; [|split].
  - intros Hk. rewrite combinations_choose. apply choose_fact, Hk.
  - intros Hk. apply length_zero_iff_nil.
    rewrite combinations_choose. apply choose_gt, Hk.
  - intros Hn. rewrite combinations_choose.
    remember (length array) as n.
    do 11 (destruct n as [|n]; [vm_compute; lia|]). lia.
Qed.

(** ** The best hand is one of the selections *)

Lemma combinations_subseq {T : Type} (array c : list T) (k : nat) :
  subseq c array -> length c = k -> In c (combinations array k).
Proof.
  intros Hs Hlen. unfold combinations, backtrack.
  destruct (Nat.eqb_spec (length (@nil T)) k) as [E|E]; simpl in E.
  - rewrite <- E in Hlen. apply length_zero_iff_nil in Hlen.
    left. congruence.
  - apply (backtrackLoop_subseq k array c Hs []); [|exact Hlen].
    intros ->. simpl in Hlen. congruence.
Qed.

Lemma combinations_are_subseq {T : Type} (array c : list T) (k : nat) :
  In c (combinations array k) -> subseq c array.
Proof.
  unfold combinations, backtrack.
  destruct (length (@nil T) =? k)%nat.
  - intros [<-|[]]. apply subseq_nil_l.
  - intros Hin.
    destruct (backtrackLoop_sound _ _ _ _ Hin) as (s & -> & _ & Hs).
    exact Hs.
Qed.

(** What the loop of [findBestHand] ends with is what it started with or
    the hand of a combination it met. *)
Lemma keepBest_loop_origin (combos : list (list Card))
    (acc : option HandResult) (b : HandResult) :
  foldM keepBest combos acc = Ok (Some b) ->
  acc = Some b \/ exists c, In c combos /\ evaluateHand c = Ok b.
Proof.
  revert acc. induction combos as [|c combos IH]; intros acc; simpl.
  - intros [= ->]. left; reflexivity.
  - unfold keepBest at 1.
    destruct (evaluateHand c) as [hand|e] eqn:Ec; [|discriminate].
    cbn [bind].
    assert (Hstep : forall acc1,
               foldM keepBest combos acc1 = Ok (Some b) ->
               acc1 = Some hand \/ acc1 = acc ->
               acc = Some b
               \/ exists c0, In c0 (c :: combos) /\ evaluateHand c0 = Ok b).
    { intros acc1 Hf Hacc1. destruct (IH _ Hf) as [E|(c0 & Hin & E)].
      - destruct Hacc1 as [->| ->]; [|left; exact E].
        injection E as ->. right. exists c. split; [left; reflexivity|].
        exact Ec.
      - right. exists c0. split; [right; exact Hin | exact E]. }
    destruct acc as [best|]; cbn [bind].
    + destruct (strength hand >? strength best); cbn [bind]; intros Hf;
        apply (Hstep _ Hf); auto.
    + intros Hf. apply (Hstep _ Hf); auto.
Qed.

Lemma findBestHand_origin (cs : list Card) (best : HandResult) :
  findBestHand cs = Ok best ->
  subseq (cards best) cs /\ evaluateHand (cards best) = Ok best.
Proof.
  rewrite findBestHand_unfold.
  destruct (length cs <? 5)%nat; [discriminate|].
  destruct (length cs =? 5)%nat.
  - intros He. destruct (evaluateHand_cards _ _ He) as (_ & -> & _).
    split; [apply subseq_refl | exact He].
  - destruct (foldM keepBest (combinations cs 5) None) as [[b|]|e] eqn:Ef;
      cbn [bind]; try discriminate.
    intros [= ->].
    destruct (keepBest_loop_origin _ _ _ Ef) as [E|(c & Hin & Ec)];
      [discriminate|].
    destruct (evaluateHand_cards _ _ Ec) as (_ & -> & _).
    split; [eapply combinations_are_subseq; exact Hin | exact Ec].
Qed.

Lemma findBestHand_upper (cs sub : list Card) (best : HandResult) :
  findBestHand cs = Ok best -> subseq sub cs -> length sub = 5%nat ->
  exists r, evaluateHand sub = Ok r /\ strength r <= strength best.
Proof.
  rewrite findBestHand_unfold. intros Hf Hs Hl.
  destruct (length cs <? 5)%nat; [discriminate|].
  destruct (Nat.eqb_spec (length cs) 5) as [E5|N5].
  - assert (sub = cs) by (apply subseq_full; [exact Hs | congruence]).
    subst sub. exists best. split; [exact Hf | lia].
  - destruct (keepBest_loop (combinations cs 5) None
                (fun c Hc => combinations_length 5 cs c Hc))
      as (acc' & Ef & _ & _ & Hall).
    rewrite Ef in Hf. cbn [bind] in Hf.
    destruct (Hall sub (combinations_subseq cs sub 5 Hs Hl))
      as (r & b' & Er & Eb & Hle).
    rewrite Eb in Hf. injection Hf as <-.
    exists r. split; assumption.
Qed.

(** X6.  [findBestHand] throws below five cards.  On five cards or more it
    returns [evaluateHand] of five of the given cards, kept in their order,
    and no selection of five of the cards evaluates to a greater
    strength. *)
Theorem findBestHand_selects_maximum (cs : list Card) :
  ((length cs < 5)%nat ->
   findBestHand cs = Throw (Error "Need at least 5 cards to evaluate"))
  /\ ((5 <= length cs)%nat ->
      exists best,
        findBestHand cs = Ok best
        /\ subseq (cards best) cs /\ length (cards best) = 5%nat
        /\ evaluateHand (cards best) = Ok best
        /\ (forall sub,
               subseq sub cs -> length sub = 5%nat ->
               exists r, evaluateHand sub = Ok r
                         /\ strength r <= strength best)).
Proof.
  split.
  - intros Hlt. unfold findBestHand.
    destruct (Nat.ltb_spec (length cs) 5); [reflexivity | lia].
  - intros Hge. destruct (findBestHand_total cs Hge) as [best Hb].
    exists best. split; [exact Hb|].
    destruct (findBestHand_origin cs best Hb) as [Hs He].
    split; [exact Hs|].
    split; [exact (proj1 (evaluateHand_cards _ _ He))|].
    split; [exact He|].
    intros sub Hsub Hl. exact (findBestHand_upper cs sub best Hb Hsub Hl).
Qed.

(** A hand that contains another, in the same order, is at least as
    strong. *)
Lemma findBestHand_subseq (cs cs' : list Card) (b : HandResult) :
  subseq cs cs' -> findBestHand cs = Ok b ->
  exists b', findBestHand cs' = Ok b' /\ strength b <= strength b'.
Proof.
  intros Hs Hb.
  assert (Hlen : (5 <= length cs)%nat).
  { rewrite findBestHand_unfold in Hb.
    destruct (Nat.ltb_spec (length cs) 5); [discriminate | assumption]. }
  destruct (findBestHand_total cs') as [b' Hb'];
    [apply subseq_length in Hs; lia|].
  exists b'. split; [exact Hb'|].
  destruct (findBestHand_origin cs b Hb) as [Hsub He].
  destruct (findBestHand_upper cs' (cards b) b' Hb'
              (subseq_trans _ _ _ Hsub Hs)
              (proj1 (evaluateHand_cards _ _ He))) as (r & Er & Hle).
  rewrite He in Er. injection Er as <-. exact Hle.
Qed.

(** X7.  More cards never make a weaker hand: when [cs'] contains the cards
    of [cs] in their order (as when cards are appended), [findBestHand] of
    [cs'] returns and is at least as strong as [findBestHand] of [cs]. *)
Theorem findBestHand_monotone (cs cs' : list Card) (b : HandResult) :
  subseq cs cs' -> findBestHand cs = Ok b ->
  exists b', findBestHand cs' = Ok b' /\ strength b <= strength b'.
Proof. exact (findBestHand_subseq cs cs' b). Qed.

Lemma findBestHand_monotone_witness :
  exists b',
    findBestHand sevenCards = Ok b'
    /\ strength (handOf OnePair pairHand [13; 9; 7; 2]) <= strength b'.
Proof.
  apply (findBestHand_monotone pairHand sevenCards).
  - apply subseq_app_l.
  - reflexivity.
Defined.

Lemma filter_subseq {T : Type} (f : T -> bool) (l : list T) :
  subseq (filter f l) l.
Proof.
  induction l as [|x l IH]; simpl; [apply subseq_nil|].
  destruct (f x); [apply subseq_take, IH | apply subseq_skip, IH].
Qed.

Lemma subseq_NoDup {T : Type} (s l : list T) :
  subseq s l -> NoDup l -> NoDup s.
Proof.
  induction 1 as [|x s l H IH|x s l H IH]; intros Hnd.
  - exact Hnd.
  - inversion Hnd; subst. apply IH; assumption.
  - inversion Hnd as [|? ? Hx Hl]; subst. constructor; [|apply IH, Hl].
    intros Hin. apply Hx. apply (subseq_incl _ _ H), Hin.
Qed.

(** Among distinct cards the best hand of a rearrangement is no stronger. *)
Lemma findBestHand_perm_le (cs cs' : list Card) (b b' : HandResult) :
  NoDup cs' -> Permutation cs cs' ->
  findBestHand cs = Ok b -> findBestHand cs' = Ok b' ->
  strength b <= strength b'.
Proof.
  intros Hnd' HP Hb Hb'.
  assert (Hnd : NoDup cs)
    by (eapply Permutation_NoDup; [apply Permutation_sym, HP | exact Hnd']).
  destruct (findBestHand_origin cs b Hb) as [Hsub He].
  destruct (evaluateHand_cards _ _ He) as (Hl & _).
  assert (Hincl : incl (cards b) cs').
  { intros x Hx. eapply Permutation_in; [exact HP|].
    apply (subseq_incl _ _ Hsub), Hx. }
  pose proof (subset_as_filter cs' (cards b) Hnd'
                (subseq_NoDup _ _ Hsub Hnd) Hincl) as Hpick.
  set (pick := filter (fun c => existsb (Card_eqb c) (cards b)) cs') in *.
  destruct (findBestHand_upper cs' pick b' Hb' (filter_subseq _ _))
    as (r & Er & Hle); [rewrite (Permutation_length Hpick); exact Hl|].
  pose proof (evaluateHand_perm pick (cards b) r Hpick Er) as Er'.
  rewrite He in Er'. injection Er' as ->. simpl in Hle. exact Hle.
Qed.

(** X8.  Among distinct cards the strength of the best hand does not depend
    on the order of the cards: on a rearrangement [findBestHand] returns a
    hand of the same strength. *)
Theorem findBestHand_order_independent (cs cs' : list Card) (b : HandResult) :
  NoDup cs -> Permutation cs cs' -> findBestHand cs = Ok b ->
  exists b', findBestHand cs' = Ok b' /\ strength b' = strength b.
Proof.
  intros Hnd HP Hb.
  assert (Hlen : (5 <= length cs')%nat).
  { rewrite <- (Permutation_length HP).
    rewrite findBestHand_unfold in Hb.
    destruct (Nat.ltb_spec (length cs) 5); [discriminate | assumption]. }
  destruct (findBestHand_total cs' Hlen) as [b' Hb'].
  exists b'. split; [exact Hb'|].
  assert (Hnd' : NoDup cs') by (eapply Permutation_NoDup; eassumption).
  pose proof (findBestHand_perm_le cs cs' b b' Hnd' HP Hb Hb').
  pose proof (findBestHand_perm_le cs' cs b' b Hnd (Permutation_sym HP) Hb' Hb).
  lia.
Qed.

Lemma findBestHand_order_independent_witness :
  exists b',
    findBestHand (rev pairHand) = Ok b'
    /\ strength b' = strength (handOf OnePair pairHand [13; 9; 7; 2]).
Proof.
  apply (findBestHand_order_independent pairHand (rev pairHand)).
  - repeat (constructor; [simpl; intuition congruence|]). constructor.
  - apply Permutation_rev.
  - reflexivity.
Defined.

(** ** The categories of the rules *)

Lemma sorted_counts_entries (cs : list Card) (r n : Z) :
  In (r, n) (sortBy countsCmp (getRankCounts cs))
  <-> 0 < n /\ cnt r (map rank cs) = n.
Proof.
  destruct (getRankCounts_counts_of cs) as [Hnd Hget].
  rewrite sortBy_In, (map_get_In _ _ _ Hnd), Hget.
  destruct (Z.ltb_spec 0 (cnt r (map rank cs))); split.
  - intros [= <-]. split; [assumption | reflexivity].
  - intros [_ ->]. reflexivity.
  - discriminate.
  - intros [Hpos <-]. lia.
Qed.

Lemma sorted_counts_keys (cs : list Card) :
  NoDup (map fst (sortBy countsCmp (getRankCounts cs))).
Proof.
  eapply Permutation_NoDup;
    [apply Permutation_map, Permutation_sym, sortBy_perm|].
  apply getRankCounts_counts_of.
Qed.

Lemma hasRank_In (ranks : list Z) (r : Z) : hasRank ranks r = true <-> In r ranks.
Proof.
  unfold hasRank. rewrite existsb_exists. split.
  - intros (x & Hx & E). apply Z.eqb_eq in E. subst; exact Hx.
  - intros H. exists r. split; [exact H | apply Z.eqb_refl].
Qed.

Lemma sameSuit_spec (cs : list Card) :
  sameSuit cs = true <->
  forall c c', In c cs -> In c' cs -> suit c = suit c'.
Proof.
  unfold sameSuit. rewrite forallb_forall. split.
  - intros H c c' Hc Hc'. apply Suit_eqb_eq.
    specialize (H c Hc). rewrite forallb_forall in H. apply H, Hc'.
  - intros H c Hc. apply forallb_forall. intros c' Hc'.
    apply Suit_eqb_eq, H; assumption.
Qed.

Lemma isFlush_sameSuit (cs : list Card) (fl : bool) :
  isFlush cs = Ok fl -> fl = sameSuit cs.
Proof.
  intros H. apply eq_true_iff_eq.
  rewrite (isFlush_spec cs fl H), sameSuit_spec. tauto.
Qed.

(** Five ranks that contain five given distinct ranks are those ranks. *)
Lemma five_ranks_perm (ranks five : list Z) :
  length ranks = 5%nat -> length five = 5%nat -> NoDup five ->
  (forall r, In r five -> In r ranks) -> Permutation five ranks.
Proof.
  intros Hl Hf Hnd Hincl.
  apply NoDup_Permutation_bis; [exact Hnd | lia | exact Hincl].
Qed.

Lemma sorted_asc (l : list Z) :
  StronglySorted (before (fun a b => a - b)) (sortBy (fun a b => a - b) l).
Proof. apply sortBy_sorted; intros; lia. Qed.

Lemma isStraight_isRun (cs : list Card) (st : StraightInfo) :
  length cs = 5%nat -> isStraight cs = Ok st ->
  is_straight st = isRun (map rank cs).
Proof.
  intros Hlen. unfold isStraight, isRun.
  set (ranks := map rank cs).
  assert (Hl : length ranks = 5%nat)
    by (unfold ranks; rewrite length_map; exact Hlen).
  set (sorted := sortBy (fun a b => a - b) ranks).
  assert (Hs : length sorted = 5%nat)
    by (unfold sorted; rewrite sortBy_length; exact Hl).
  assert (Hin : forall r, In r sorted <-> In r ranks)
    by (intros r; apply sortBy_In).
  pose proof (sorted_asc ranks) as Hsorted. fold sorted in Hsorted.
  assert (Hwheel : (index_is sorted 0 2 && index_is sorted 1 3
                    && index_is sorted 2 4 && index_is sorted 3 5
                    && index_is sorted 4 14)
                   = forallb (hasRank ranks) [14; 2; 3; 4; 5]).
  { apply eq_true_iff_eq. split.
    - intros H. repeat (apply andb_prop in H as [H ?]).
      simpl. rewrite !andb_true_iff.
      repeat split; try reflexivity; apply hasRank_In, Hin;
        eapply index_is_In; eassumption.
    - intros H. simpl in H. rewrite !andb_true_iff in H.
      destruct H as (H14 & H2 & H3 & H4 & H5 & _).
      rewrite hasRank_In in H14, H2, H3, H4, H5.
      assert (HP : Permutation [14; 2; 3; 4; 5] ranks).
      { apply five_ranks_perm; try reflexivity; try assumption.
        - repeat (constructor; [simpl; lia|]). constructor.
        - intros r [<-|[<-|[<-|[<-|[<-|[]]]]]]; assumption. }
      unfold sorted. rewrite <- (sort_asc_unique _ _ HP). reflexivity. }
  assert (Hcons : consecutive sorted = existsb (runFrom ranks) ranks).
  { apply eq_true_iff_eq. split.
    - intros H.
      destruct sorted as [|a [|b [|c [|d [|e [|]]]]]] eqn:E;
        try discriminate Hs.
      simpl in H.
      repeat match type of H with
             | (if negb (?x =? ?y) then _ else _) = true =>
                 destruct (Z.eqb_spec x y); [simpl in H | discriminate H]
             end.
      subst. apply existsb_exists. exists a.
      split; [apply Hin; left; reflexivity|].
      unfold runFrom. simpl. rewrite !andb_true_iff.
      repeat split; try reflexivity; apply hasRank_In, Hin; simpl.
      + left; lia.
      + right; left; lia.
      + right; right; left; lia.
      + right; right; right; left; lia.
      + right; right; right; right; left; lia.
    - intros H. apply existsb_exists in H as (lo & _ & H).
      unfold runFrom in H. simpl in H. rewrite !andb_true_iff in H.
      destruct H as (H0 & H1 & H2 & H3 & H4 & _).
      rewrite hasRank_In in H0, H1, H2, H3, H4.
      assert (HP : Permutation [lo + 0; lo + 1; lo + 2; lo + 3; lo + 4]
                               ranks).
      { apply five_ranks_perm; try reflexivity; try assumption.
        - repeat (constructor; [simpl; lia|]). constructor.
        - intros r [<-|[<-|[<-|[<-|[<-|[]]]]]]; assumption. }
      assert (E : sorted = [lo + 0; lo + 1; lo + 2; lo + 3; lo + 4]).
      { apply (sorted_perm_eq (fun a b => a - b)).
        - intros a b Hab Hba. lia.
        - exact Hsorted.
        - repeat (constructor; [|repeat constructor; unfold before; lia]).
          constructor.
        - eapply Permutation_trans; [apply sortBy_perm|].
          apply Permutation_sym, HP. }
      rewrite E. simpl.
      repeat match goal with
             | |- (if negb (?x =? ?y) then _ else _) = true =>
                 destruct (Z.eqb_spec x y); [simpl | lia]
             end.
      reflexivity. }
  rewrite Hwheel, Hcons.
  destruct (forallb (hasRank ranks) [14; 2; 3; 4; 5]).
  - intros [= <-]. simpl. rewrite orb_true_r. reflexivity.
  - destruct (existsb (runFrom ranks) ranks).
    + unfold at_index. destruct (nth_error sorted 4); [|discriminate].
      cbn [bind]. intros [= <-]. reflexivity.
    + intros [= <-]. reflexivity.
Qed.

Lemma ofAKind_counts (cs : list Card) (n : Z) :
  0 < n ->
  ofAKind (map rank cs) n
  = existsb (fun e => snd e =? n) (sortBy countsCmp (getRankCounts cs)).
Proof.
  intros Hn. apply eq_true_iff_eq. unfold ofAKind.
  rewrite !existsb_exists. split.
  - intros (r & Hr & E). apply Z.eqb_eq in E. exists (r, n).
    split; [|apply Z.eqb_refl]. apply sorted_counts_entries. auto.
  - intros ([r m] & He & E). simpl in E. apply Z.eqb_eq in E. subst m.
    apply sorted_counts_entries in He as [Hpos Hc].
    exists r. split; [apply cnt_pos_In; lia | lia].
Qed.

Lemma twoPairs_counts (cs : list Card) :
  twoPairs (map rank cs)
  = existsb (fun e1 =>
               existsb (fun e2 => negb (fst e1 =? fst e2) && (snd e1 =? 2)
                                  && (snd e2 =? 2))
                       (sortBy countsCmp (getRankCounts cs)))
            (sortBy countsCmp (getRankCounts cs)).
Proof.
  apply eq_true_iff_eq. unfold twoPairs. split.
  - intros H. apply existsb_exists in H as (r1 & H1 & H).
    apply existsb_exists in H as (r2 & H2 & H).
    rewrite !andb_true_iff, negb_true_iff, !Z.eqb_eq, Z.eqb_neq in H.
    destruct H as ((Hne & E1) & E2).
    apply existsb_exists. exists (r1, 2).
    split; [apply sorted_counts_entries; lia|].
    apply existsb_exists. exists (r2, 2).
    split; [apply sorted_counts_entries; lia|]. simpl.
    rewrite !andb_true_iff, negb_true_iff, Z.eqb_neq. auto.
  - intros H. apply existsb_exists in H as ([r1 n1] & H1 & H).
    apply existsb_exists in H as ([r2 n2] & H2 & H). simpl in H.
    rewrite !andb_true_iff, negb_true_iff, !Z.eqb_eq, Z.eqb_neq in H.
    destruct H as ((Hne & ->) & ->).
    apply sorted_counts_entries in H1 as [_ E1].
    apply sorted_counts_entries in H2 as [_ E2].
    apply existsb_exists. exists r1. split; [apply cnt_pos_In; lia|].
    apply existsb_exists. exists r2. split; [apply cnt_pos_In; lia|].
    rewrite !andb_true_iff, negb_true_iff, !Z.eqb_eq, Z.eqb_neq. auto.
Qed.

Ltac count_values :=
  repeat match goal with
         | H : 1 <= ?n |- _ =>
             is_var n;
             assert (n = 1 \/ n = 2 \/ n = 3 \/ n = 4 \/ n = 5) as
               [->|[->|[->|[->| ->]]]] by lia;
             clear H; try lia
         end.

Ltac distinct_keys :=
  simpl in *;
  repeat match goal with
         | H : NoDup (_ :: _) |- _ => inversion H; subst; clear H
         | H : NoDup [] |- _ => clear H
         end;
  simpl in *;
  repeat match goal with
         | H : ~ (_ \/ _) |- _ => apply Decidable.not_or in H; destruct H
         end.

Lemma counts_length_le (ranks : list Z) (scs : list (Z * Z)) :
  Forall (fun e => 1 <= snd e /\ In (fst e) ranks) scs ->
  Z.of_nat (length scs) <= sumZ (map snd scs).
Proof. induction 1 as [|e l [He _] _ IH]; simpl length; simpl sumZ; lia. Qed.

Lemma classify_category (cs : list Card) (ranks : list Z) (fl : bool)
    (st : StraightInfo) (scs : list (Z * Z)) (desc : list Z) (r : HandResult) :
  count_facts ranks 5 scs -> NoDup (map fst scs) ->
  classify cs fl st scs desc = Ok r ->
  hand_rank r
  = categoryFrom fl (is_straight st)
      (existsb (fun e => snd e =? 4) scs)
      (existsb (fun e => snd e =? 3) scs)
      (existsb (fun e => snd e =? 2) scs)
      (existsb (fun e1 =>
                  existsb (fun e2 => negb (fst e1 =? fst e2) && (snd e1 =? 2)
                                     && (snd e2 =? 2)) scs) scs).
Proof.
  intros (Hsum & Hall & Hsort) Hnd.
  pose proof (counts_length_le ranks scs Hall) as Hlen.
  unfold classify, categoryFrom.
  destruct (fl && is_straight st) eqn:Hsf; [intros [= <-]; reflexivity|].
  destruct scs as [|[r0 n0] [|[r1 n1] [|[r2 n2] [|[r3 n3] [|[r4 n4] [|e5 t]]]]]];
    simpl length in Hlen; try lia;
    split_hyps; simpl in Hsum; try lia.
  all: distinct_keys.
  all: count_values.
  all: unfold idx; simpl;
    rewrite ?Z.eqb_refl; simpl;
    repeat match goal with
           | H : ?a <> ?b |- context [?a =? ?b] =>
               rewrite (proj2 (Z.eqb_neq a b) H)
           | H : ?b <> ?a |- context [?a =? ?b] =>
               rewrite (proj2 (Z.eqb_neq a b) (not_eq_sym H))
           end; simpl;
    destruct fl, (is_straight st); try discriminate Hsf; simpl;
    intros [= <-]; reflexivity.
Qed.

(** X9.  The category [evaluateHand] gives a hand is the one the rules of
    poker give it, read off the cards without the sorted counts of the
    program: straight flush, four of a kind, full house, flush, straight,
    three of a kind, two pair, one pair, high card, the first that
    applies. *)
Theorem evaluateHand_textbook (cs : list Card) (r : HandResult) :
  evaluateHand cs = Ok r -> hand_rank r = textbookCategory cs.
Proof.
  intros He. destruct (evaluateHand_cards cs r He) as (Hlen & _).
  rewrite evaluateHand_classify, Hlen in He.
  change (negb (5 =? 5)%nat) with false in He. cbv iota in He.
  destruct (isFlush cs) as [fl|] eqn:Efl; [|discriminate].
  destruct (isStraight cs) as [st|] eqn:Est; [|discriminate].
  cbn [bind] in He.
  pose proof (sorted_counts_facts cs) as Hfacts. rewrite Hlen in Hfacts.
  rewrite (classify_category cs _ fl st _ _ r Hfacts
             (sorted_counts_keys cs) He).
  unfold textbookCategory.
  rewrite <- (isFlush_sameSuit cs fl Efl).
  rewrite <- (isStraight_isRun cs st Hlen Est).
  rewrite !ofAKind_counts by lia. rewrite twoPairs_counts. reflexivity.
Qed.

Lemma evaluateHand_textbook_witness :
  hand_rank (handOf OnePair pairHand [13; 9; 7; 2]) = textbookCategory pairHand.
Proof. apply (evaluateHand_textbook pairHand). reflexivity. Defined.

Example textbook_categories :
  map textbookCategory
      [wheelHand; suitedWheelHand; sixHighHand; flushHand; pairHand]
  = [Straight; StraightFlush; Straight; Flush; OnePair].
Proof. reflexivity. Qed.

(** * Further properties of the round state machine *)

(** ** The deal *)

Lemma slices_cover {A : Type} (l : list A) (k d h : nat) :
  skipn k l
  = slice l k (k + d) ++ slice l (k + d) (k + d + h) ++ skipn (k + d + h) l.
Proof.
  unfold slice.
  replace (k + d - k)%nat with d by lia.
  replace (k + d + h - (k + d))%nat with h by lia.
  replace (k + d + h)%nat with (h + (d + k))%nat by lia.
  replace (k + d)%nat with (d + k)%nat by lia.
  rewrite <- !skipn_skipn, !firstn_skipn. reflexivity.
Qed.

Lemma dealPlayers_seats (deck : list Card) (cfg : DifficultyConfig)
    (names : list string) (i k : nat) :
  let ps := fst (dealPlayers deck cfg names i k) in
  let final := snd (dealPlayers deck cfg names i k) in
  map player_id ps = map Z.of_nat (seq i (length names))
  /\ map name ps = names
  /\ Forall (fun p => revealedHoleCards p = []) ps
  /\ flat_map (fun p => doorCards p ++ holeCards p) ps ++ skipn final deck
     = skipn k deck.
Proof.
  revert i k. induction names as [|nm names IH]; intros i k.
  - simpl. repeat split. constructor.
  - cbv zeta. rewrite dealPlayers_cons. cbv zeta. cbn [fst snd].
    set (dr := cfg_doorCards (seatConfig cfg i)).
    set (hl := cfg_holeCards (seatConfig cfg i)).
    destruct (IH (S i) (k + dr + hl)%nat) as (Hid & Hnm & Hrev & Hcov).
    cbn [map length seq flat_map doorCards holeCards player_id name].
    split; [f_equal; exact Hid|]. split; [f_equal; exact Hnm|].
    split; [constructor; [reflexivity | exact Hrev]|].
    rewrite <- !app_assoc, Hcov. symmetry. apply slices_cover.
Qed.

Lemma dealPlayers_counts (deck : list Card) (cfg : DifficultyConfig)
    (names : list string) (i k : nat) :
  (cfg_doorCards cfg + cfg_holeCards cfg <= 10)%nat ->
  (k + 10 * length names <= length deck)%nat ->
  forall j p,
    nth_error (fst (dealPlayers deck cfg names i k)) j = Some p ->
    length (doorCards p) = cfg_doorCards (seatConfig cfg (i + j))
    /\ length (holeCards p) = cfg_holeCards (seatConfig cfg (i + j)).
Proof.
  intros Hsum. revert i k.
  induction names as [|nm names IH]; intros i k Hk j p.
  - destruct j; discriminate.
  - rewrite dealPlayers_cons. cbv zeta. cbn [fst].
    set (dr := cfg_doorCards (seatConfig cfg i)).
    set (hl := cfg_holeCards (seatConfig cfg i)).
    assert (Hc : (dr + hl <= 10)%nat).
    { unfold dr, hl, seatConfig. destruct (i =? 0)%nat; simpl; lia. }
    simpl length in Hk.
    destruct j as [|j]; simpl nth_error.
    + intros [= <-]. cbn [doorCards holeCards].
      rewrite Nat.add_0_r, !slice_length by lia. fold dr hl. lia.
    + intros Hp. replace (i + S j)%nat with (S i + j)%nat by lia.
      apply (IH (S i) (k + dr + hl)%nat); [lia | exact Hp].
Qed.

(** X10.  [initializeGame] throws unless it is given 2 to 5 names.
    Otherwise it returns a state in phase [revealing], round 0, with no
    history, winner or waited-for player, whose players have the ids
    0, 1, ... and the names given, in order, and no revealed hole card; the
    door and hole cards of the players, seat after seat, followed by the
    dead cards are the deck.  On a deck of 52 cards seat 0 has the door and
    hole cards of the difficulty, every other seat five of each. *)
Theorem initializeGame_deal (names : list string) (d : Difficulty)
    (deck : list Card) :
  ((length names < 2 \/ 5 < length names)%nat ->
   initializeGame names d deck = Throw (Error "Game requires 2-5 players"))
  /\ ((2 <= length names <= 5)%nat ->
      exists s0,
        initializeGame names d deck = Ok s0
        /\ phase s0 = Revealing /\ currentRound s0 = 0
        /\ revealHistory s0 = [] /\ winner s0 = None
        /\ waitingForPlayers s0 = []
        /\ map player_id (players s0)
           = map Z.of_nat (seq 0 (length names))
        /\ map name (players s0) = names
        /\ Forall (fun p => revealedHoleCards p = []) (players s0)
        /\ flat_map (fun p => doorCards p ++ holeCards p) (players s0)
           ++ deadCards s0 = deck
        /\ (length deck = 52%nat ->
            forall j p,
              nth_error (players s0) j = Some p ->
              length (doorCards p)
              = cfg_doorCards (seatConfig (DIFFICULTY_CONFIGS d) j)
              /\ length (holeCards p)
                 = cfg_holeCards (seatConfig (DIFFICULTY_CONFIGS d) j))).
Proof.
  rewrite initializeGame_unfold. split.
  - intros H.
    destruct (Nat.ltb_spec (length names) 2), (Nat.ltb_spec 5 (length names));
      try reflexivity; lia.
  - intros [Hlo Hhi].
    destruct (Nat.ltb_spec (length names) 2) as [|_]; [lia|].
    destruct (Nat.ltb_spec 5 (length names)) as [|_]; [lia|].
    simpl orb. cbv iota zeta.
    destruct (dealPlayers_seats deck (DIFFICULTY_CONFIGS d) names 0 0)
      as (Hid & Hnm & Hrev & Hcov).
    eexists. split; [reflexivity|]. cbn [phase currentRound revealHistory
      winner waitingForPlayers players deadCards].
    repeat (split; [reflexivity || assumption|]).
    intros Hdeck j p Hp.
    apply (dealPlayers_counts deck (DIFFICULTY_CONFIGS d) names 0 0);
      [destruct d; simpl; lia | lia | exact Hp].
Qed.

Lemma initializeGame_deal_witness :
  exists s0,
    initializeGame sampleNames hard standardDeck = Ok s0
    /\ map name (players s0) = sampleNames
    /\ flat_map (fun p => doorCards p ++ holeCards p) (players s0)
       ++ deadCards s0 = standardDeck.
Proof.
  destruct (proj2 (initializeGame_deal sampleNames hard standardDeck))
    as (s0 & E & _ & _ & _ & _ & _ & _ & Hn & _ & Hd & _).
  - simpl. lia.
  - exists s0. split; [exact E|]. split; assumption.
Defined.

(** ** An accepted reveal *)

Lemma existsb_eqb_In (l : list Z) (x : Z) :
  existsb (fun w => w =? x) l = true <-> In x l.
Proof.
  rewrite existsb_exists. split.
  - intros (w & Hw & E). apply Z.eqb_eq in E. subst; exact Hw.
  - intros H. exists x. split; [exact H | apply Z.eqb_refl].
Qed.

Lemma revealSelectedCard_unfold (s : GameState) (playerId : Z)
    (cardId : string) :
  revealSelectedCard s playerId cardId =
  if negb (Phase_eqb (phase s) Revealing) then Ok s
  else if negb (existsb (fun w => w =? playerId) (waitingForPlayers s))
  then Ok s
  else
    match findIndex (fun p => player_id p =? playerId) (players s) with
    | None => Ok s
    | Some i =>
        p <- idx (players s) i ;;
        match findIndex (fun c => String.eqb (card_id c) cardId)
                        (holeCards p) with
        | None => Ok s
        | Some ci =>
            card <- at_index (holeCards p) ci ;;
            Ok (afterReveal s playerId cardId i p card)
        end
    end.
Proof.
  unfold revealSelectedCard, afterReveal, withReveal, recordReveal.
  destruct (negb (Phase_eqb (phase s) Revealing)); [reflexivity|].
  destruct (negb (existsb _ (waitingForPlayers s))); [reflexivity|].
  destruct (findIndex _ (players s)) as [i|]; [|reflexivity].
  destruct (idx (players s) i) as [p|]; [|reflexivity]. cbn [bind].
  destruct (findIndex _ (holeCards p)) as [ci|]; [|reflexivity].
  destruct (at_index (holeCards p) ci) as [card|]; [|reflexivity].
  cbn [bind]. cbv zeta.
  destruct (length _ =? 0)%nat; reflexivity.
Qed.

(** What [revealSelectedCard] returns is the state it was given, or the
    state after an accepted reveal. *)
Lemma revealSelectedCard_cases (s s' : GameState) (playerId : Z)
    (cardId : string) :
  revealSelectedCard s playerId cardId = Ok s' ->
  s' = s
  \/ exists i p ci card,
      phase s = Revealing /\ In playerId (waitingForPlayers s)
      /\ findIndex (fun p => player_id p =? playerId) (players s) = Some i
      /\ nth_error (players s) i = Some p
      /\ findIndex (fun c => String.eqb (card_id c) cardId) (holeCards p)
         = Some ci
      /\ nth_error (holeCards p) ci = Some card
      /\ s' = afterReveal s playerId cardId i p card.
Proof.
  rewrite revealSelectedCard_unfold.
  destruct (Phase_eqb (phase s) Revealing) eqn:Hph; simpl;
    [|left; congruence].
  destruct (existsb _ (waitingForPlayers s)) eqn:Hw; simpl;
    [|left; congruence].
  destruct (findIndex _ (players s)) as [i|] eqn:Hi; [|left; congruence].
  unfold idx. destruct (nth_error (players s) i) as [p|] eqn:Hp;
    [|discriminate].
  cbn [bind].
  destruct (findIndex _ (holeCards p)) as [ci|] eqn:Hci; [|left; congruence].
  unfold at_index.
  destruct (nth_error (holeCards p) ci) as [card|] eqn:Hc; [|discriminate].
  cbn [bind]. intros [= <-]. right. exists i, p, ci, card.
  repeat split; try assumption.
  - apply Phase_eqb_eq, Hph.
  - apply existsb_eqb_In, Hw.
Qed.

Lemma findIndex_of_find {A : Type} (f : A -> bool) (l : list A) (x : A) :
  find f l = Some x ->
  exists i, findIndex f l = Some i /\ nth_error l i = Some x.
Proof.
  induction l as [|y l IH]; simpl; [discriminate|].
  destruct (f y).
  - intros [= <-]. exists 0%nat. split; reflexivity.
  - intros H. destruct (IH H) as (i & -> & Hn). exists (S i).
    split; [reflexivity | exact Hn].
Qed.

Lemma findIndex_first {A : Type} (f : A -> bool) (pre post : list A) (x : A) :
  f x = true -> (forall y, In y pre -> f y = false) ->
  findIndex f (pre ++ x :: post) = Some (length pre).
Proof.
  intros Hx. induction pre as [|y pre IH]; intros Hpre; simpl.
  - rewrite Hx. reflexivity.
  - rewrite (Hpre y (or_introl eq_refl)).
    rewrite IH by (intros z Hz; apply Hpre; right; exact Hz). reflexivity.
Qed.

(** With distinct ids the card with a given id is the first with that id,
    and it is the only one that is filtered out. *)
Lemma distinct_ids_split (hole pre post : list Card) (c : Card) :
  NoDup (map card_id hole) -> hole = pre ++ c :: post ->
  findIndex (fun c' => String.eqb (card_id c') (card_id c)) hole
  = Some (length pre)
  /\ nth_error hole (length pre) = Some c
  /\ filter (fun c' => negb (String.eqb (card_id c') (card_id c))) hole
     = pre ++ post.
Proof.
  intros Hnd ->.
  assert (Hpre : forall y, In y pre ->
                           String.eqb (card_id y) (card_id c) = false).
  { intros y Hy. apply String.eqb_neq. intros E.
    rewrite map_app in Hnd. simpl in Hnd. apply NoDup_remove_2 in Hnd.
    apply Hnd. apply in_or_app. left. rewrite <- E. apply in_map, Hy. }
  assert (Hfind : findIndex (fun c' => String.eqb (card_id c') (card_id c))
                            (pre ++ c :: post) = Some (length pre))
    by (apply findIndex_first; [apply String.eqb_refl | exact Hpre]).
  split; [exact Hfind|].
  split; [rewrite nth_error_app2 by lia; rewrite Nat.sub_diag; reflexivity|].
  assert (Hpost : forall y, In y post ->
                            String.eqb (card_id y) (card_id c) = false).
  { intros y Hy. apply String.eqb_neq. intros E.
    rewrite map_app in Hnd. simpl in Hnd. apply NoDup_remove_2 in Hnd.
    apply Hnd. apply in_or_app. right. rewrite <- E. apply in_map, Hy. }
  rewrite filter_app. cbn [filter]. rewrite String.eqb_refl. cbn [negb].
  f_equal; apply forallb_filter_id, forallb_forall; intros y Hy.
  - rewrite (Hpre y Hy). reflexivity.
  - rewrite (Hpost y Hy). reflexivity.
Qed.

Lemma set_index_map {A B : Type} (f : A -> B) (l : list A) (i : nat) (x y : A) :
  nth_error l i = Some x -> f y = f x -> map f (set_index l i y) = map f l.
Proof.
  revert i. induction l as [|z l IH]; intros i Hn Hf; [reflexivity|].
  destruct i as [|i]; simpl in *.
  - injection Hn as ->. rewrite Hf. reflexivity.
  - f_equal. apply IH; assumption.
Qed.

Lemma set_index_length {A : Type} (l : list A) (i : nat) (y : A) :
  length (set_index l i y) = length l.
Proof.
  revert i. induction l as [|z l IH]; intros [|i]; simpl; auto.
Qed.

Lemma hidden_set_index (ps : list Player) (i : nat) (p p' : Player) :
  nth_error ps i = Some p ->
  (hidden (set_index ps i p') + length (holeCards p)
   = hidden ps + length (holeCards p'))%nat.
Proof.
  unfold hidden. revert i.
  induction ps as [|q ps IH]; intros i Hn; [destruct i; discriminate|].
  destruct i as [|i]; simpl in *.
  - injection Hn as ->. lia.
  - specialize (IH i Hn). lia.
Qed.

Lemma all_revealed_hidden (ps : list Player) :
  forallb (fun p => (length (holeCards p) =? 0)%nat) ps = true <->
  hidden ps = 0%nat.
Proof.
  unfold hidden. induction ps as [|p ps IH]; simpl; [tauto|].
  rewrite andb_true_iff, IH, Nat.eqb_eq. lia.
Qed.

(** X11.  A reveal that is accepted (phase [revealing], a player who is
    waited for, a hole card of the player with that id, card ids distinct
    in the hand) moves exactly that card to the end of the revealed hole
    cards of that player, leaves every other player, the dead cards and the
    winner alone, and takes the player off [waitingForPlayers].  When
    nobody is waited for any more the round number goes up by one and the
    phase is [showdown] if no hole card is hidden, [revealing] otherwise;
    when somebody is, round and phase stay. *)
Theorem revealSelectedCard_accepted (s : GameState) (playerId : Z)
    (p : Player) (pre post : list Card) (c : Card) :
  phase s = Revealing -> In playerId (waitingForPlayers s) ->
  find (fun p => player_id p =? playerId) (players s) = Some p ->
  holeCards p = pre ++ c :: post ->
  NoDup (map card_id (holeCards p)) ->
  exists s' i,
    revealSelectedCard s playerId (card_id c) = Ok s'
    /\ nth_error (players s) i = Some p
    /\ players s'
       = set_index (players s) i
           (mkPlayer (player_id p) (name p) (doorCards p) (pre ++ post)
                     (revealedHoleCards p ++ [c]))
    /\ (hidden (players s') + 1 = hidden (players s))%nat
    /\ deadCards s' = deadCards s /\ winner s' = winner s
    /\ waitingForPlayers s'
       = filter (fun w => negb (w =? playerId)) (waitingForPlayers s)
    /\ (waitingForPlayers s' = [] ->
        currentRound s' = currentRound s + 1
        /\ phase s' = (if (hidden (players s') =? 0)%nat
                       then Showdown else Revealing))
    /\ (waitingForPlayers s' <> [] ->
        currentRound s' = currentRound s /\ phase s' = Revealing)
    /\ (exists ev, In ev (revealHistory s')
                   /\ round ev = currentRound s
                   /\ In (playerId, c) (ev_cards ev)).
Proof.
  intros Hph Hw Hfind Hhole Hnd.
  destruct (findIndex_of_find _ _ _ Hfind) as (i & Hi & Hn).
  destruct (distinct_ids_split _ pre post c Hnd Hhole) as (Hci & Hc & Hf).
  assert (He : revealSelectedCard s playerId (card_id c)
               = Ok (afterReveal s playerId (card_id c) i p c)).
  { rewrite revealSelectedCard_unfold, Hph. simpl negb. cbv iota.
    rewrite (proj2 (existsb_eqb_In _ _) Hw). simpl negb. cbv iota.
    rewrite Hi, (idx_Ok _ _ _ Hn). cbn [bind].
    rewrite Hci. unfold at_index. rewrite Hc. reflexivity. }
  exists (afterReveal s playerId (card_id c) i p c), i.
  split; [exact He|]. split; [exact Hn|].
  assert (Hp' : withReveal p (card_id c) c
                = mkPlayer (player_id p) (name p) (doorCards p) (pre ++ post)
                           (revealedHoleCards p ++ [c]))
    by (unfold withReveal; rewrite Hf; reflexivity).
  assert (Hhid : (hidden (set_index (players s) i (withReveal p (card_id c) c))
                  + 1 = hidden (players s))%nat).
  { pose proof (hidden_set_index (players s) i p
                  (withReveal p (card_id c) c) Hn) as H.
    rewrite Hp', Hhole in H. simpl in H. rewrite !length_app in H.
    simpl in H. rewrite Hp'. lia. }
  assert (Hev : exists ev,
             In ev (recordReveal (revealHistory s) (currentRound s)
                                 playerId c)
             /\ round ev = currentRound s /\ In (playerId, c) (ev_cards ev)).
  { unfold recordReveal.
    destruct (find (fun e => round e =? currentRound s) (revealHistory s))
      as [e|] eqn:Ee.
    - apply find_some in Ee as [Hin Er].
      exists (mkEvent (round e) (playerIds e ++ [playerId])
                      (ev_cards e ++ [(playerId, c)])).
      split; [|split].
      + apply in_map_iff. exists e. rewrite Er. split; [reflexivity | exact Hin].
      + apply Z.eqb_eq, Er.
      + apply in_or_app. right. left. reflexivity.
    - exists (mkEvent (currentRound s) [playerId] [(playerId, c)]).
      split; [apply in_or_app; right; left; reflexivity|].
      split; [reflexivity | left; reflexivity]. }
  unfold afterReveal. cbv zeta.
  destruct (Nat.eqb_spec
              (length (filter (fun w => negb (w =? playerId))
                              (waitingForPlayers s))) 0) as [E|E];
    cbn [players deadCards winner waitingForPlayers currentRound phase
         revealHistory].
  - apply length_zero_iff_nil in E. rewrite E.
    split; [rewrite Hp'; reflexivity|]. split; [exact Hhid|].
    repeat (split; [reflexivity|]). split; [|split; [congruence | exact Hev]].
    intros _. split; [reflexivity|].
    destruct (forallb _ _) eqn:Eall.
    + apply all_revealed_hidden in Eall. rewrite Eall. reflexivity.
    + destruct (Nat.eqb_spec
                  (hidden (set_index (players s) i
                                     (withReveal p (card_id c) c))) 0)
        as [E0|]; [|reflexivity].
      apply all_revealed_hidden in E0. congruence.
  - split; [rewrite Hp'; reflexivity|]. split; [exact Hhid|].
    repeat (split; [reflexivity|]). split; [|split; [|exact Hev]].
    + intros Enil. rewrite Enil in E. simpl in E. congruence.
    + intros _. split; [reflexivity | exact Hph].
Qed.

Lemma revealSelectedCard_accepted_witness :
  exists s' i,
    revealSelectedCard midGame 0 "KH" = Ok s'
    /\ nth_error (players midGame) i = Some playerA
    /\ (hidden (players s') + 1 = hidden (players midGame))%nat
    /\ waitingForPlayers s' = [].
Proof.
  destruct (revealSelectedCard_accepted midGame 0 playerA []
              [mkCard "3D" Diamonds 3] (mkCard "KH" Hearts 13))
    as (s' & i & E & Hn & _ & Hh & _ & _ & Hw & _).
  - reflexivity.
  - simpl. left. reflexivity.
  - reflexivity.
  - reflexivity.
  - simpl. repeat (constructor; [simpl; intuition congruence|]). constructor.
  - exists s', i. split; [exact E|]. split; [exact Hn|].
    split; [exact Hh|]. rewrite Hw. reflexivity.
Defined.

(** ** Phases and bookkeeping *)

Lemma startRevealRound_cases (s s' : GameState) :
  startRevealRound s = Ok s' ->
  (phase s <> Revealing /\ s' = s)
  \/ exists w,
      phase s = Revealing /\ findWeakestPlayers (players s) = Ok w
      /\ ((w = []
           /\ s' = mkState (players s) (deadCards s) Showdown (currentRound s)
                           (revealHistory s) (winner s) [])
          \/ (w <> []
              /\ s' = mkState (players s) (deadCards s) Revealing
                              (currentRound s) (revealHistory s) (winner s)
                              (map player_id w))).
Proof.
  unfold startRevealRound.
  destruct (Phase_eqb (phase s) Revealing) eqn:Hph; simpl.
  - apply Phase_eqb_eq in Hph.
    destruct (findWeakestPlayers (players s)) as [w|]; [|discriminate].
    cbn [bind]. intros H. right. exists w.
    split; [exact Hph|]. split; [reflexivity|].
    destruct w as [|p w]; simpl in H; injection H as <-.
    + left. split; reflexivity.
    + right. split; [discriminate | rewrite Hph; reflexivity].
  - intros [= <-]. left. split; [|reflexivity].
    intros E. rewrite E in Hph. discriminate.
Qed.

Lemma processRevealRound_cases (s s' : GameState) :
  processRevealRound s = Ok s' ->
  (phase s <> Revealing /\ s' = s)
  \/ exists w,
      phase s = Revealing /\ findWeakestPlayers (players s) = Ok w
      /\ ((w = []
           /\ s' = mkState (players s) (deadCards s) Showdown (currentRound s)
                           (revealHistory s) (winner s)
                           (waitingForPlayers s))
          \/ (w <> []
              /\ s' = mkState
                        (map (fun p => fst (revealFirst w p)) (players s))
                        (deadCards s)
                        (if forallb
                              (fun p => (length (holeCards p) =? 0)%nat)
                              (map (fun p => fst (revealFirst w p))
                                   (players s))
                         then Showdown else Revealing)
                        (currentRound s + 1)
                        (revealHistory s
                         ++ [mkEvent (currentRound s) (map player_id w)
                               (flat_map (fun p => snd (revealFirst w p))
                                         (players s))])
                        (winner s) [])).
Proof.
  unfold processRevealRound.
  destruct (Phase_eqb (phase s) Revealing) eqn:Hph; simpl.
  - apply Phase_eqb_eq in Hph.
    destruct (findWeakestPlayers (players s)) as [w|]; [|discriminate].
    cbn [bind]. intros H. right. exists w.
    split; [exact Hph|]. split; [reflexivity|].
    destruct w as [|p w]; simpl length in H; cbn [Nat.eqb] in H;
      injection H as <-.
    + left. split; reflexivity.
    + right. split; [discriminate | reflexivity].
  - intros [= <-]. left. split; [|reflexivity].
    intros E. rewrite E in Hph. discriminate.
Qed.

Lemma strongest_nonempty (hs : list (Player * HandResult))
    (s0 : Player * HandResult) :
  idx hs 0 = Ok s0 ->
  filter (fun s => strength (snd s) =? maxOver hs (strength (snd s0))) hs
  <> [].
Proof.
  intros H0.
  destruct hs as [|h hs']; [discriminate|]. injection H0 as ->.
  destruct (maxOver_spec (s0 :: hs') (strength (snd s0))) as (_ & _ & Hatt).
  assert (Hex : exists s, In s (s0 :: hs')
                          /\ strength (snd s)
                             = maxOver (s0 :: hs') (strength (snd s0))).
  { destruct Hatt as [E|Hex]; [|exact Hex].
    exists s0. split; [left; reflexivity | congruence]. }
  destruct Hex as (s & Hin & E). intros Hnil.
  assert (Hf : In s (filter
                       (fun s => strength (snd s)
                                 =? maxOver (s0 :: hs') (strength (snd s0)))
                       (s0 :: hs')))
    by (apply filter_In; split; [exact Hin | apply Z.eqb_eq, E]).
  rewrite Hnil in Hf. destruct Hf.
Qed.

Lemma determineWinner_cases (s s' : GameState) :
  determineWinner s = Ok s' ->
  (phase s <> Showdown /\ s' = s)
  \/ exists winners,
      phase s = Showdown /\ winners <> []
      /\ s' = mkState (players s) (deadCards s) Finished (currentRound s)
                      (revealHistory s) (Some winners) (waitingForPlayers s).
Proof.
  unfold determineWinner.
  destruct (Phase_eqb (phase s) Showdown) eqn:Hph; simpl.
  - apply Phase_eqb_eq in Hph.
    destruct (mapM _ (players s)) as [hs|]; [|discriminate]. cbn [bind].
    destruct (idx hs 0) as [s0|] eqn:E0; [|discriminate]. cbn [bind].
    intros [= <-]. right. eexists. split; [exact Hph|].
    split; [|reflexivity].
    intros Hnil. apply map_eq_nil in Hnil.
    exact (strongest_nonempty hs s0 E0 Hnil).
  - intros [= <-]. left. split; [|reflexivity].
    intros E. rewrite E in Hph. discriminate.
Qed.

Lemma afterReveal_phase (s : GameState) (playerId : Z) (cardId : string)
    (i : nat) (p : Player) (c : Card) :
  phase s = Revealing ->
  phase (afterReveal s playerId cardId i p c) = Revealing
  \/ phase (afterReveal s playerId cardId i p c) = Showdown.
Proof.
  intros Hph. unfold afterReveal. cbv zeta.
  destruct (length _ =? 0)%nat; cbn [phase]; [|left; exact Hph].
  destruct (forallb _ _); [right | left]; reflexivity.
Qed.

(** X12.  No transition takes the game back: the phase after it is the
    phase before it or a later one in the order dealing, revealing,
    showdown, finished; a state in phase [dealing] or [finished] is
    returned as it is. *)
Theorem step_phase_monotone (s s' : GameState) :
  step s s' ->
  (phaseRank (phase s) <= phaseRank (phase s'))%nat
  /\ (phase s = Dealing \/ phase s = Finished -> s' = s).
Proof.
  intros Hstep.
  assert (Hsame : s' = s ->
                  (phaseRank (phase s) <= phaseRank (phase s'))%nat
                  /\ (phase s = Dealing \/ phase s = Finished -> s' = s))
    by (intros ->; split; [lia | reflexivity]).
  destruct Hstep as [s s' H|s s' pid cid H|s s' H|s s' H].
  - destruct (startRevealRound_cases _ _ H)
      as [[_ E]|(w & Hph & _ & [[_ ->]|[_ ->]])]; [exact (Hsame E)| |];
      rewrite Hph; simpl; (split; [lia | intros [?|?]; discriminate]).
  - destruct (revealSelectedCard_cases _ _ _ _ H)
      as [E|(i & p & ci & c & Hph & _ & _ & _ & _ & _ & ->)];
      [exact (Hsame E)|].
    split; [|rewrite Hph; intros [?|?]; discriminate].
    destruct (afterReveal_phase s pid cid i p c Hph) as [-> | ->];
      rewrite Hph; simpl; lia.
  - destruct (processRevealRound_cases _ _ H)
      as [[_ E]|(w & Hph & _ & [[_ ->]|[_ ->]])]; [exact (Hsame E)| |];
      rewrite Hph; cbn [phase];
      (split; [|intros [?|?]; discriminate]).
    + simpl; lia.
    + destruct (forallb _ _); simpl; lia.
  - destruct (determineWinner_cases _ _ H)
      as [[_ E]|(w & Hph & _ & ->)]; [exact (Hsame E)|].
    rewrite Hph. simpl. split; [lia | intros [?|?]; discriminate].
Qed.

Lemma step_phase_monotone_witness :
  (phaseRank (phase midGame)
   <= phaseRank (phase (mkState [playerA; playerB] [] Revealing 0 [] None [0%Z])))%nat
  /\ (phase midGame = Dealing \/ phase midGame = Finished ->
      mkState [playerA; playerB] [] Revealing 0 [] None [0] = midGame).
Proof.
  apply (step_phase_monotone midGame). apply step_start. reflexivity.
Defined.

Lemma revealFirst_id_name (w : list Player) (p : Player) :
  player_id (fst (revealFirst w p)) = player_id p
  /\ name (fst (revealFirst w p)) = name p.
Proof.
  unfold revealFirst. destruct (existsb _ w); [|split; reflexivity].
  destruct (holeCards p); split; reflexivity.
Qed.

(** What every transition keeps, and when the winner is set. *)
Lemma step_bookkeeping (s s' : GameState) :
  step s s' ->
  deadCards s' = deadCards s
  /\ map player_id (players s') = map player_id (players s)
  /\ map name (players s') = map name (players s)
  /\ (phase s <> Dealing -> phase s' <> Dealing)
  /\ ((winner s' = winner s /\ (phase s' = Finished <-> phase s = Finished))
      \/ (phase s' = Finished
          /\ exists w, winner s' = Some w /\ w <> [])).
Proof.
  intros Hstep.
  assert (Hsame : s' = s ->
     deadCards s' = deadCards s
     /\ map player_id (players s') = map player_id (players s)
     /\ map name (players s') = map name (players s)
     /\ (phase s <> Dealing -> phase s' <> Dealing)
     /\ ((winner s' = winner s /\ (phase s' = Finished <-> phase s = Finished))
         \/ (phase s' = Finished
             /\ exists w, winner s' = Some w /\ w <> []))).
  { intros ->. repeat (split; [reflexivity || (intro; assumption)|]).
    left. split; [reflexivity | tauto]. }
  destruct Hstep as [s s' H|s s' pid cid H|s s' H|s s' H].
  - destruct (startRevealRound_cases _ _ H)
      as [[_ E]|(w & Hph & _ & [[_ ->]|[_ ->]])]; [exact (Hsame E)| |];
      cbn [deadCards players phase winner];
      (repeat (split; [reflexivity || (intros; discriminate)|]));
      left; (split; [reflexivity | rewrite Hph; split; discriminate]).
  - destruct (revealSelectedCard_cases _ _ _ _ H)
      as [E|(i & p & ci & c & Hph & _ & _ & Hn & _ & _ & ->)];
      [exact (Hsame E)|].
    assert (Hpl : players (afterReveal s pid cid i p c)
                  = set_index (players s) i (withReveal p cid c)
                  /\ deadCards (afterReveal s pid cid i p c) = deadCards s
                  /\ winner (afterReveal s pid cid i p c) = winner s).
    { unfold afterReveal. cbv zeta.
      destruct (length _ =? 0)%nat; repeat split. }
    destruct Hpl as (-> & -> & ->).
    split; [reflexivity|].
    split; [apply (set_index_map player_id _ _ p); [exact Hn | reflexivity]|].
    split; [apply (set_index_map name _ _ p); [exact Hn | reflexivity]|].
    destruct (afterReveal_phase s pid cid i p c Hph) as [E|E]; rewrite E;
      (split; [intros; discriminate|]);
      left; (split; [reflexivity | rewrite Hph; split; discriminate]).
  - destruct (processRevealRound_cases _ _ H)
      as [[_ E]|(w & Hph & _ & [[_ ->]|[_ ->]])]; [exact (Hsame E)| |];
      cbn [deadCards players phase winner].
    + repeat (split; [reflexivity || (intros; discriminate)|]).
      left. split; [reflexivity | rewrite Hph; split; discriminate].
    + split; [reflexivity|].
      split; [rewrite map_map; apply map_ext; intros q;
              apply revealFirst_id_name|].
      split; [rewrite map_map; apply map_ext; intros q;
              apply revealFirst_id_name|].
      destruct (forallb _ _);
        (split; [intros; discriminate|]);
        left; (split; [reflexivity | rewrite Hph; split; discriminate]).
  - destruct (determineWinner_cases _ _ H)
      as [[_ E]|(w & Hph & Hne & ->)]; [exact (Hsame E)|].
    cbn [deadCards players phase winner].
    repeat (split; [reflexivity || (intros; discriminate)|]).
    right. split; [reflexivity|]. exists w. split; [reflexivity | exact Hne].
Qed.

(** X13.  In every state reachable from [initializeGame] the dead cards are
    those of the deal, the players have the ids 0, 1, ... and the names
    given, the phase is never [dealing], and a winner is set exactly in
    phase [finished], where the winner list is not empty. *)
Theorem reachable_bookkeeping (names : list string) (d : Difficulty)
    (deck : list Card) (s0 s : GameState) :
  initializeGame names d deck = Ok s0 -> reachable s0 s ->
  deadCards s = deadCards s0
  /\ map player_id (players s) = map Z.of_nat (seq 0 (length names))
  /\ map name (players s) = names
  /\ phase s <> Dealing
  /\ (winner s = None <-> phase s <> Finished)
  /\ (forall w, winner s = Some w -> w <> []).
Proof.
  intros Hinit Hreach.
  assert (H0 : map player_id (players s0) = map Z.of_nat (seq 0 (length names))
               /\ map name (players s0) = names
               /\ phase s0 = Revealing /\ winner s0 = None).
  { rewrite initializeGame_unfold in Hinit.
    destruct (_ || _); [discriminate|]. cbv zeta in Hinit.
    injection Hinit as <-. cbn [players phase winner].
    destruct (dealPlayers_seats deck (DIFFICULTY_CONFIGS d) names 0 0)
      as (Hid & Hnm & _). auto. }
  destruct H0 as (Hid & Hnm & Hph0 & Hw0).
  induction Hreach as [|s s' _ IH Hstep].
  - rewrite Hph0, Hw0. repeat split; try assumption; try discriminate.
  - destruct IH as (Hd & Hi & Hn & Hp & Hw & Hne).
    destruct (step_bookkeeping s s' Hstep) as (Hd' & Hi' & Hn' & Hp' & Hw').
    split; [congruence|]. split; [congruence|]. split; [congruence|].
    split; [apply Hp', Hp|].
    destruct Hw' as [[Ew Hfin]|(Hfin & w & Ew & Hw1)].
    + rewrite Ew. split; [|exact Hne]. rewrite Hw, Hfin. tauto.
    + rewrite Ew, Hfin. split.
      * split; [discriminate | intros Hf; exfalso; apply Hf; reflexivity].
      * intros w' [= <-]. exact Hw1.
Qed.

Lemma reachable_bookkeeping_witness :
  exists s,
    processRevealRound sampleStart = Ok s
    /\ deadCards s = deadCards sampleStart
    /\ map name (players s) = sampleNames
    /\ phase s <> Dealing
    /\ (winner s = None <-> phase s <> Finished).
Proof.
  destruct (processRevealRound sampleStart) as [s|e] eqn:E;
    [|vm_compute in E; discriminate].
  exists s. split; [reflexivity|].
  destruct (reachable_bookkeeping sampleNames normal standardDeck
              sampleStart s) as (H1 & _ & H3 & H4 & H5 & _).
  - vm_compute. reflexivity.
  - eapply reach_step; [apply reach_init | apply step_process; exact E].
  - split; [exact H1|]. split; [exact H3|]. split; assumption.
Defined.

(** ** Strength while cards are revealed *)

Lemma revealFirst_revealed (w : list Player) (p : Player) :
  exists extra,
    revealedHoleCards (fst (revealFirst w p)) = revealedHoleCards p ++ extra.
Proof.
  unfold revealFirst. destruct (existsb _ w);
    [|exists []; rewrite app_nil_r; reflexivity].
  destruct (holeCards p) as [|c rest];
    [exists []; rewrite app_nil_r; reflexivity | exists [c]; reflexivity].
Qed.

(** Every transition keeps the door cards and only adds revealed cards. *)
Lemma step_reveals_more (s s' : GameState) :
  step s s' ->
  Forall2 (fun p p' =>
             doorCards p' = doorCards p
             /\ exists extra,
                 revealedHoleCards p' = revealedHoleCards p ++ extra)
          (players s) (players s').
Proof.
  intros Hstep.
  assert (Hrefl : forall p : Player,
             doorCards p = doorCards p
             /\ exists extra,
                 revealedHoleCards p = revealedHoleCards p ++ extra)
    by (intros p; split; [reflexivity|];
        exists []; rewrite app_nil_r; reflexivity).
  assert (Hsame : forall ps ps' : list Player, ps' = ps ->
             Forall2 (fun p p' =>
                        doorCards p' = doorCards p
                        /\ exists extra,
                            revealedHoleCards p'
                            = revealedHoleCards p ++ extra) ps ps')
    by (intros ps ps' ->; apply Forall2_same; intros; apply Hrefl).
  destruct Hstep as [s s' H|s s' pid cid H|s s' H|s s' H].
  - apply Hsame, (startRevealRound_players _ _ H).
  - destruct (revealSelectedCard_players _ _ _ _ H)
      as [E|(i & p & ci & c & Hp & _ & _ & ->)]; [exact (Hsame _ _ E)|].
    apply (Forall2_set_index _ _ _ p); [exact Hrefl | exact Hp |].
    split; [reflexivity | exists [c]; reflexivity].
  - destruct (processRevealRound_players _ _ H) as [E|[w ->]];
      [exact (Hsame _ _ E)|].
    apply Forall2_map_r. intros p.
    split; [apply revealFirst_doorCards | apply revealFirst_revealed].
  - apply Hsame, (determineWinner_players _ _ H).
Qed.

(** X14.  No transition weakens what a player shows: the current strength
    of a player who shows at least five cards is, after any transition, at
    least what it was. *)
Theorem step_never_weakens (s s' : GameState) :
  step s s' ->
  Forall2 (fun p p' =>
             (5 <= length (doorCards p ++ revealedHoleCards p))%nat ->
             currentStrength p <= currentStrength p')
          (players s) (players s').
Proof.
  intros Hstep.
  eapply Forall2_impl; [|exact (step_reveals_more s s' Hstep)].
  intros p p' (Hdoor & extra & Hrev) Hfive.
  unfold currentStrength. rewrite Hdoor, Hrev, app_assoc.
  destruct (findBestHand_total _ Hfive) as [b Hb]. rewrite Hb.
  destruct (findBestHand_subseq _ ((doorCards p ++ revealedHoleCards p)
                                   ++ extra) b (subseq_app_l _ _) Hb)
    as (b' & -> & Hle).
  exact Hle.
Qed.

Lemma step_never_weakens_witness :
  exists s',
    revealSelectedCard midGame 0 "KH" = Ok s'
    /\ Forall2 (fun p p' =>
                  (5 <= length (doorCards p ++ revealedHoleCards p))%nat ->
                  currentStrength p <= currentStrength p')
               (players midGame) (players s').
Proof.
  destruct (revealSelectedCard midGame 0 "KH") as [s'|e] eqn:E;
    [|vm_compute in E; discriminate].
  exists s'. split; [reflexivity|].
  apply step_never_weakens.
  apply (step_reveal midGame s' 0 "KH"). exact E.
Defined.

(** ** A round of the local game *)

Lemma NoDup_map_eq {A B : Type} (f : A -> B) (l : list A) (a b : A) :
  NoDup (map f l) -> In a l -> In b l -> f a = f b -> a = b.
Proof.
  induction l as [|x l IH]; simpl; intros Hnd Ha Hb E; [destruct Ha|].
  inversion Hnd as [|? ? Hx Hl]; subst.
  destruct Ha as [->|Ha], Hb as [->|Hb].
  - reflexivity.
  - exfalso. apply Hx. rewrite E. apply in_map, Hb.
  - exfalso. apply Hx. rewrite <- E. apply in_map, Ha.
  - apply IH; assumption.
Qed.

Lemma flat_map_filter {A B : Type} (P : A -> bool) (f g : A -> list B)
    (l : list A) :
  (forall x, In x l -> f x = if P x then g x else []) ->
  flat_map f l = flat_map g (filter P l).
Proof.
  induction l as [|x l IH]; intros H; simpl; [reflexivity|].
  rewrite (H x (or_introl eq_refl)), IH
    by (intros y Hy; apply H; right; exact Hy).
  destruct (P x); reflexivity.
Qed.

Lemma revealHead_length (p : Player) :
  holeCards p <> [] ->
  (length (holeCards (revealHead p)) + 1 = length (holeCards p))%nat.
Proof.
  unfold revealHead. destruct (holeCards p) as [|c rest] eqn:E;
    [congruence|].
  intros _. simpl. lia.
Qed.

Lemma hidden_map_filter (P : Player -> bool) (ps : list Player) :
  (forall p, In p ps -> P p = true -> holeCards p <> []) ->
  (hidden (map (fun p => if P p then revealHead p else p) ps)
   + length (filter P ps) = hidden ps)%nat.
Proof.
  unfold hidden. induction ps as [|p ps IH]; intros H; simpl; [reflexivity|].
  specialize (IH (fun q Hq => H q (or_intror Hq))).
  pose proof (H p (or_introl eq_refl)) as Hp.
  destruct (P p) eqn:EP; cbn [length map list_sum].
  - pose proof (revealHead_length p (Hp eq_refl)). lia.
  - lia.
Qed.

(** X15.  A reveal round of the local game, in phase [revealing] with
    players of distinct ids of whom those who hold a hole card show at
    least five cards and at least one holds a hole card: exactly the
    hole-card holders of minimum current strength move their first hole
    card to the end of their revealed cards, everybody else is left alone;
    the round number goes up by one, nobody is waited for, one event is
    appended to the history with the round, the ids of those players and
    the cards revealed, and the phase is [showdown] if no hole card is
    hidden any more, [revealing] otherwise. *)
Theorem processRevealRound_round (s : GameState) :
  phase s = Revealing ->
  (forall p, In p (players s) -> holeCards p <> [] ->
             (5 <= length (doorCards p ++ revealedHoleCards p))%nat) ->
  NoDup (map player_id (players s)) ->
  filter holdsHoleCard (players s) <> [] ->
  exists m s',
    (exists p, In p (filter holdsHoleCard (players s))
               /\ currentStrength p = m)
    /\ (forall p, In p (filter holdsHoleCard (players s)) ->
                  m <= currentStrength p)
    /\ processRevealRound s = Ok s'
    /\ players s'
       = map (fun p => if holdsHoleCard p && (currentStrength p =? m)
                       then revealHead p else p)
             (players s)
    /\ (hidden (players s')
        + length (filter (fun p => holdsHoleCard p
                                   && (currentStrength p =? m)%Z)
                         (players s))
        = hidden (players s))%nat
    /\ currentRound s' = currentRound s + 1
    /\ waitingForPlayers s' = []
    /\ deadCards s' = deadCards s /\ winner s' = winner s
    /\ phase s' = (if (hidden (players s') =? 0)%nat
                   then Showdown else Revealing)
    /\ revealHistory s'
       = revealHistory s
         ++ [mkEvent (currentRound s)
               (map player_id
                    (filter (fun p => holdsHoleCard p
                                      && (currentStrength p =? m))
                            (players s)))
               (flat_map (fun p => match holeCards p with
                                   | c :: _ => [(player_id p, c)]
                                   | [] => []
                                   end)
                         (filter (fun p => holdsHoleCard p
                                           && (currentStrength p =? m))
                                 (players s)))].
Proof.
  intros Hph Hshow Hids Hne.
  destruct (findWeakestPlayers_spec (players s) Hshow) as [_ Hsome].
  destruct (Hsome Hne) as (m & Hatt & Hmin & Hw).
  set (weak := fun p => holdsHoleCard p && (currentStrength p =? m)).
  remember (filter (fun p => currentStrength p =? m)
                   (filter holdsHoleCard (players s))) as weakest eqn:Ew.
  assert (Hweak : forall p, In p (players s) ->
                            (In p weakest <-> weak p = true)).
  { intros p Hp. rewrite Ew. unfold weak.
    rewrite !filter_In, andb_true_iff. tauto. }
  assert (Hex : forall p, In p (players s) ->
             existsb (fun wp => player_id wp =? player_id p) weakest
             = weak p).
  { intros p Hp. apply eq_true_iff_eq. rewrite <- (Hweak p Hp).
    rewrite existsb_exists. split.
    - intros (wp & Hwp & E). apply Z.eqb_eq in E.
      assert (Hwp' : In wp (players s)).
      { rewrite Ew in Hwp. rewrite !filter_In in Hwp. tauto. }
      rewrite <- (NoDup_map_eq player_id _ wp p Hids Hwp' Hp E). exact Hwp.
    - intros Hin. exists p. split; [exact Hin | apply Z.eqb_refl]. }
  assert (Hfirst : forall p, In p (players s) ->
             revealFirst weakest p
             = if weak p
               then (revealHead p,
                     match holeCards p with
                     | c :: _ => [(player_id p, c)]
                     | [] => []
                     end)
               else (p, [])).
  { intros p Hp. unfold revealFirst, revealHead. rewrite (Hex p Hp).
    destruct (weak p); [|reflexivity].
    destruct (holeCards p); reflexivity. }
  assert (Hfilter : filter weak (players s) = weakest).
  { rewrite Ew. unfold weak. clear.
    induction (players s) as [|p ps IH]; simpl; [reflexivity|].
    destruct (holdsHoleCard p); simpl; [|exact IH].
    destruct (currentStrength p =? m); simpl; [f_equal|]; exact IH. }
  assert (Hwne : weakest <> []).
  { destruct Hatt as (p & Hp & Em). intros Hnil.
    assert (Hin : In p weakest)
      by (rewrite Ew; apply filter_In; split; [exact Hp | lia]).
    rewrite Hnil in Hin. destruct Hin. }
  assert (Hpl : map (fun p => fst (revealFirst weakest p)) (players s)
                = map (fun p => if weak p then revealHead p else p)
                      (players s)).
  { apply map_ext_in. intros p Hp. rewrite (Hfirst p Hp).
    destruct (weak p); reflexivity. }
  assert (Hcards : flat_map (fun p => snd (revealFirst weakest p)) (players s)
                   = flat_map (fun p => match holeCards p with
                                        | c :: _ => [(player_id p, c)]
                                        | [] => []
                                        end)
                              (filter weak (players s))).
  { apply flat_map_filter. intros p Hp. rewrite (Hfirst p Hp).
    destruct (weak p); reflexivity. }
  assert (Hhid : (hidden (map (fun p => if weak p then revealHead p else p)
                              (players s))
                  + length (filter weak (players s))
                  = hidden (players s))%nat).
  { apply hidden_map_filter. intros p Hp Hwk.
    unfold weak, holdsHoleCard in Hwk. apply andb_prop in Hwk as [Hh _].
    destruct (holeCards p); [discriminate Hh | discriminate]. }
  exists m. eexists. split; [exact Hatt|]. split; [exact Hmin|].
  split.
  { unfold processRevealRound. rewrite Hph, Hw. simpl negb. cbv iota.
    cbv beta iota delta [bind].
    assert (Hlen : (length weakest =? 0)%nat = false).
    { apply Nat.eqb_neq. intros E.
      apply length_zero_iff_nil in E. congruence. }
    rewrite Hlen. reflexivity. }
  cbn [players currentRound waitingForPlayers deadCards winner phase
       revealHistory].
  rewrite Hpl, Hcards, <- Hfilter.
  split; [reflexivity|]. split; [exact Hhid|].
  repeat (split; [reflexivity|]). split; [|reflexivity].
  destruct (forallb _ _) eqn:Eall.
  - apply all_revealed_hidden in Eall. rewrite Eall. reflexivity.
  - destruct (Nat.eqb_spec
                (hidden (map (fun p => if weak p then revealHead p else p)
                             (players s))) 0) as [E0|]; [|reflexivity].
    apply all_revealed_hidden in E0. congruence.
Qed.

Lemma processRevealRound_round_witness :
  exists m s',
    processRevealRound midGame = Ok s'
    /\ (forall p, In p (filter holdsHoleCard (players midGame)) ->
                  m <= currentStrength p)
    /\ currentRound s' = 1
    /\ phase s' = (if (hidden (players s') =? 0)%nat
                   then Showdown else Revealing).
Proof.
  destruct (processRevealRound_round midGame)
    as (m & s' & _ & Hmin & E & _ & _ & Hr & _ & _ & _ & Hph & _).
  - reflexivity.
  - intros p Hp _. rewrite length_app.
    assert (Hd : (5 <= length (doorCards p))%nat); [|lia].
    simpl in Hp. destruct Hp as [<-|[<-|[]]]; simpl; lia.
  - simpl. repeat (constructor; [simpl; intuition congruence|]). constructor.
  - simpl. discriminate.
  - exists m, s'. split; [exact E|]. split; [exact Hmin|].
    split; [exact Hr | exact Hph].
Defined.

(** ** The outcome of a local game *)

Lemma revealFirst_keeps_order (w : list Player) (p : Player) :
  revealedHoleCards (fst (revealFirst w p)) ++ holeCards (fst (revealFirst w p))
  = revealedHoleCards p ++ holeCards p.
Proof.
  unfold revealFirst. destruct (existsb _ w); [|reflexivity].
  destruct (holeCards p) as [|c rest] eqn:E; simpl.
  - rewrite E. reflexivity.
  - rewrite <- app_assoc. reflexivity.
Qed.

Lemma seq_snoc_map (n : nat) :
  map Z.of_nat (seq 0 (S n)) = map Z.of_nat (seq 0 n) ++ [Z.of_nat n].
Proof. rewrite seq_S, map_app. reflexivity. Qed.

(** A reveal round of the local game keeps seat, door cards and the order
    of the hole cards (revealed ones first), and numbers its event. *)
Lemma processRevealRound_local (s : GameState) :
  playable s -> phase s = Revealing ->
  exists s',
    processRevealRound s = Ok s' /\ playable s'
    /\ (hidden (players s') < hidden (players s))%nat
    /\ Forall2 (fun p p' =>
                  player_id p' = player_id p /\ doorCards p' = doorCards p
                  /\ revealedHoleCards p' ++ holeCards p'
                     = revealedHoleCards p ++ holeCards p)
               (players s) (players s')
    /\ (phase s' = Showdown -> hidden (players s') = 0%nat)
    /\ currentRound s' = currentRound s + 1
    /\ winner s' = winner s
    /\ exists ev, revealHistory s' = revealHistory s ++ [ev]
                  /\ round ev = currentRound s.
Proof.
  intros Hplay Hph.
  destruct (processRevealRound_progress s Hplay Hph) as (s' & E & Hp' & Hlt).
  exists s'. split; [exact E|]. split; [exact Hp'|]. split; [exact Hlt|].
  destruct (processRevealRound_cases _ _ E)
    as [[Hn _]|(w & _ & _ & [[_ ->]|[_ ->]])]; [congruence| |].
  - cbn [players] in Hlt. lia.
  - cbn [players phase currentRound winner revealHistory].
    split; [|split; [|split; [reflexivity|split; [reflexivity|]]]].
    + apply Forall2_map_r. intros p.
      split; [apply revealFirst_id_name|].
      split; [apply revealFirst_doorCards | apply revealFirst_keeps_order].
    + destruct (forallb _ _) eqn:Eall; [|discriminate].
      intros _. apply all_revealed_hidden, Eall.
    + eexists. split; reflexivity.
Qed.

Lemma revealLoop_local (fuel : nat) (s : GameState) :
  playable s -> (hidden (players s) < fuel)%nat ->
  (phase s = Showdown -> hidden (players s) = 0%nat) ->
  currentRound s = Z.of_nat (length (revealHistory s)) ->
  map round (revealHistory s)
  = map Z.of_nat (seq 0 (length (revealHistory s))) ->
  exists s',
    revealLoop fuel s = Ok s' /\ playable s' /\ phase s' = Showdown
    /\ hidden (players s') = 0%nat
    /\ Forall2 (fun p p' =>
                  player_id p' = player_id p /\ doorCards p' = doorCards p
                  /\ revealedHoleCards p' ++ holeCards p'
                     = revealedHoleCards p ++ holeCards p)
               (players s) (players s')
    /\ winner s' = winner s
    /\ currentRound s' = Z.of_nat (length (revealHistory s'))
    /\ map round (revealHistory s')
       = map Z.of_nat (seq 0 (length (revealHistory s'))).
Proof.
  revert s. induction fuel as [|fuel IH];
    intros s Hplay Hfuel Hsd Hround Hhist; [lia|].
  simpl. destruct (Phase_eqb (phase s) Revealing) eqn:Hph.
  - apply Phase_eqb_eq in Hph.
    destruct (processRevealRound_local s Hplay Hph)
      as (s1 & -> & Hp1 & Hlt & Hrel & Hsd1 & Hr1 & Hw1 & ev & Hh1 & Hev).
    cbn [bind].
    destruct (IH s1 Hp1 ltac:(lia) Hsd1) as
      (s' & E & Hp' & Hph' & Hhid & Hrel' & Hw' & Hr' & Hh').
    + rewrite Hr1, Hh1, length_app, Hround. simpl. lia.
    + rewrite Hh1, length_app, map_app, Hhist. simpl length.
      rewrite Nat.add_1_r, seq_snoc_map. simpl map. f_equal. f_equal.
      congruence.
    + exists s'. split; [exact E|]. split; [exact Hp'|].
      split; [exact Hph'|]. split; [exact Hhid|].
      split; [|split; [congruence|split; assumption]].
      eapply Forall2_compose; [|exact Hrel|exact Hrel'].
      intros x y z (A1 & A2 & A3) (B1 & B2 & B3).
      repeat split; congruence.
  - exists s.
    assert (Hs : phase s = Showdown).
    { destruct Hplay as (_ & _ & [[E _]|E]); [|exact E].
      rewrite E in Hph. discriminate. }
    split; [reflexivity|]. split; [exact Hplay|]. split; [exact Hs|].
    split; [exact (Hsd Hs)|].
    split; [apply Forall2_same; intros; repeat split|].
    split; [reflexivity|]. split; assumption.
Qed.

(** X16.  A local game run to its end from [initializeGame] (2 to 5 names,
    a deck of 52 cards) finishes with every hole card revealed, in the order
    dealt, and the door cards as dealt; its rounds are numbered 0, 1, ...
    in the history and [currentRound] is their number; the winners are
    exactly the seats whose ten dealt cards give the maximum strength, so
    the deal alone decides the game. *)
Theorem runFullGame_outcome (names : list string) (d : Difficulty)
    (deck : list Card) :
  (2 <= length names <= 5)%nat -> length deck = 52%nat ->
  exists s0 final m,
    initializeGame names d deck = Ok s0
    /\ (forall fuel, (hidden (players s0) < fuel)%nat ->
                     runFullGame fuel s0 = Ok final)
    /\ phase final = Finished
    /\ Forall2 (fun p0 p =>
                  player_id p = player_id p0 /\ doorCards p = doorCards p0
                  /\ holeCards p = []
                  /\ revealedHoleCards p = holeCards p0)
               (players s0) (players final)
    /\ currentRound final = Z.of_nat (length (revealHistory final))
    /\ map round (revealHistory final)
       = map Z.of_nat (seq 0 (length (revealHistory final)))
    /\ (forall p0, In p0 (players s0) -> finalStrength p0 <= m)
    /\ (exists p0, In p0 (players s0) /\ finalStrength p0 = m)
    /\ option_map (map player_id) (winner final)
       = Some (map player_id
                   (filter (fun p0 => finalStrength p0 =? m) (players s0))).
Proof.
  intros Hn Hdeck.
  destruct (initializeGame_playable names d deck Hn Hdeck)
    as (s0 & E0 & Hplay & Hph0 & _).
  assert (Hinit : currentRound s0 = 0 /\ revealHistory s0 = []
                  /\ Forall (fun p => revealedHoleCards p = []) (players s0)).
  { pose proof E0 as E. rewrite initializeGame_unfold in E.
    destruct (_ || _); [discriminate|]. cbv zeta in E.
    injection E as <-. cbn [currentRound revealHistory players].
    destruct (dealPlayers_seats deck (DIFFICULTY_CONFIGS d) names 0 0)
      as (_ & _ & Hrev & _). auto. }
  destruct Hinit as (Hr0 & Hh0 & Hrev0).
  assert (Hloop : forall fuel, (hidden (players s0) < fuel)%nat ->
             exists s1,
               revealLoop fuel s0 = Ok s1 /\ playable s1
               /\ phase s1 = Showdown /\ hidden (players s1) = 0%nat
               /\ Forall2 (fun p p' =>
                             player_id p' = player_id p
                             /\ doorCards p' = doorCards p
                             /\ revealedHoleCards p' ++ holeCards p'
                                = revealedHoleCards p ++ holeCards p)
                          (players s0) (players s1)
               /\ winner s1 = winner s0
               /\ currentRound s1 = Z.of_nat (length (revealHistory s1))
               /\ map round (revealHistory s1)
                  = map Z.of_nat (seq 0 (length (revealHistory s1)))).
  { intros fuel Hfuel. apply revealLoop_local; try assumption.
    - rewrite Hph0. discriminate.
    - rewrite Hr0, Hh0. reflexivity.
    - rewrite Hh0. reflexivity. }
  destruct (Hloop (S (hidden (players s0))) ltac:(lia))
    as (s1 & E1 & Hp1 & Hph1 & Hhid & Hrel & _ & Hr1 & Hh1).
  destruct (determineWinner_max s1 Hph1 (proj1 Hp1)
              (fun p Hp => proj2 (playable_shows_five s1 p Hp1 Hp)))
    as (m & (p & Hin & Em) & Hmax & Ew).
  assert (Hfinal : Forall2 (fun p0 p =>
                              player_id p = player_id p0
                              /\ doorCards p = doorCards p0
                              /\ holeCards p = []
                              /\ revealedHoleCards p = holeCards p0
                              /\ finalStrength p = finalStrength p0)
                           (players s0) (players s1)).
  { assert (Hempty : Forall (fun p => holeCards p = []) (players s1)).
    { apply Forall_forall. intros q Hq.
      apply all_revealed_hidden in Hhid. rewrite forallb_forall in Hhid.
      specialize (Hhid q Hq). apply Nat.eqb_eq in Hhid.
      apply length_zero_iff_nil, Hhid. }
    clear - Hrel Hrev0 Hempty.
    induction Hrel as [|p0 q ps0 ps (Hid & Hdoor & Hord) _ IH];
      [constructor|].
    inversion Hrev0 as [|? ? Hr0 Hrev0']; subst.
    inversion Hempty as [|? ? Hq Hempty']; subst.
    constructor; [|apply IH; assumption].
    rewrite Hq, Hr0, app_nil_r in Hord. simpl in Hord.
    repeat split; try assumption.
    unfold finalStrength. rewrite Hdoor, Hq, Hord, Hr0, app_nil_r.
    reflexivity. }
  exists s0,
    (mkState (players s1) (deadCards s1) Finished (currentRound s1)
             (revealHistory s1)
             (Some (filter (fun p => finalStrength p =? m) (players s1)))
             (waitingForPlayers s1)), m.
  split; [exact E0|]. split.
  { intros fuel Hfuel.
    destruct (Hloop fuel Hfuel) as (s2 & E2 & _).
    rewrite (revealLoop_fuel _ _ _ _ _ E2 E1) in E2.
    unfold runFullGame. rewrite E2. cbn [bind]. rewrite Hph1. exact Ew. }
  cbn [phase players currentRound revealHistory winner option_map].
  split; [reflexivity|]. split.
  { eapply Forall2_impl; [|exact Hfinal]. simpl. tauto. }
  split; [exact Hr1|]. split; [exact Hh1|].
  clear - Hfinal Hmax Hin Em. split; [|split].
  - intros p0 Hp0.
    assert (Hex : exists q, In q (players s1)
                            /\ finalStrength q = finalStrength p0).
    { clear - Hfinal Hp0.
      induction Hfinal as [|a b l l' (_ & _ & _ & _ & Hf) _ IH];
        [destruct Hp0|].
      destruct Hp0 as [->|Hp0].
      - exists b. split; [left; reflexivity | exact Hf].
      - destruct (IH Hp0) as (q & Hq & E). exists q.
        split; [right; exact Hq | exact E]. }
    destruct Hex as (q & Hq & <-). apply Hmax, Hq.
  - assert (Hex : exists p0, In p0 (players s0)
                             /\ finalStrength p = finalStrength p0).
    { clear - Hfinal Hin.
      induction Hfinal as [|a b l l' (_ & _ & _ & _ & Hf) _ IH];
        [destruct Hin|].
      destruct Hin as [->|Hin].
      - exists a. split; [left; reflexivity | exact Hf].
      - destruct (IH Hin) as (q & Hq & E). exists q.
        split; [right; exact Hq | exact E]. }
    destruct Hex as (p0 & Hp0 & E). exists p0. split; [exact Hp0 | congruence].
  - f_equal. clear - Hfinal.
    induction Hfinal as [|a b l l' (Hid & _ & _ & _ & Hf) _ IH];
      [reflexivity|].
    simpl. rewrite Hf. destruct (finalStrength a =? m); simpl;
      [f_equal; [exact Hid|]|]; exact IH.
Qed.

Lemma runFullGame_outcome_witness :
  exists s0 final,
    initializeGame sampleNames normal standardDeck = Ok s0
    /\ (forall fuel, (hidden (players s0) < fuel)%nat ->
                     runFullGame fuel s0 = Ok final)
    /\ phase final = Finished
    /\ currentRound final = Z.of_nat (length (revealHistory final)).
Proof.
  destruct (runFullGame_outcome sampleNames normal standardDeck)
    as (s0 & final & m & E & Hrun & Hph & _ & Hr & _).
  - simpl. lia.
  - reflexivity.
  - exists s0, final. split; [exact E|]. split; [exact Hrun|].
    split; assumption.
Defined.

(** * Properties of the online actions *)

(** ** The slot of a player who joins *)

Lemma slotLoop_spec (usedSlots : list Z) (fuel : nat) (slot : Z) :
  0 <= slot -> 5 - slot <= Z.of_nat fuel ->
  exists r,
    slotLoop fuel usedSlots slot = Some r
    /\ slot <= r /\ r <= Z.max 5 slot
    /\ (forall k, slot <= k < r -> In k usedSlots)
    /\ (r < 5 -> ~ In r usedSlots).
Proof.
  revert slot. induction fuel as [|fuel IH]; intros slot H0 Hfuel;
    simpl slotLoop;
    destruct (existsb (Z.eqb slot) usedSlots && (slot <? 5)) eqn:Etest.
  - apply andb_true_iff in Etest as [_ Hlt]. apply Z.ltb_lt in Hlt. lia.
  - exists slot. split; [reflexivity|].
    split; [lia|]. split; [lia|].
    split; [intros k Hk; lia | intros Hlt; exfalso; lia].
  - apply andb_true_iff in Etest as [Hin Hlt]. apply Z.ltb_lt in Hlt.
    apply existsb_exists in Hin as (x & Hx & Ex). apply Z.eqb_eq in Ex.
    subst x.
    destruct (IH (slot + 1)) as (r & E & Hle & Hmax & Hbelow & Hfree);
      [lia | lia |].
    exists r. split; [exact E|]. split; [lia|]. split; [lia|].
    split; [|exact Hfree].
    intros k Hk. destruct (Z.eq_dec k slot) as [->|Hne]; [exact Hx|].
    apply Hbelow. lia.
  - exists slot. split; [reflexivity|]. split; [lia|]. split; [lia|].
    split; [intros k Hk; lia|].
    intros Hlt Hin. apply andb_false_iff in Etest as [E|E].
    + assert (Ht : existsb (Z.eqb slot) usedSlots = true); [|congruence].
      apply existsb_exists. exists slot. split; [exact Hin|apply Z.eqb_refl].
    + apply Z.ltb_ge in E. lia.
Qed.

(** X17.  The slot loop of [joinRoomById] ends within five turns whatever
    the used slots are, on the least slot from 0 that is not used, and on 5
    when 0 to 4 are all used.  With fewer than five players in the room, as
    the test before the loop makes sure, the slot is below 5 and free. *)
Theorem findSlot_least_free (usedSlots : list Z) :
  exists slot,
    findSlot usedSlots = Some slot
    /\ 0 <= slot <= 5
    /\ (forall k, 0 <= k < slot -> In k usedSlots)
    /\ (slot < 5 -> ~ In slot usedSlots)
    /\ ((length usedSlots < 5)%nat -> slot < 5).
Proof.
  destruct (slotLoop_spec usedSlots 5 0) as (r & E & Hle & Hmax & Hbelow & Hfree);
    [lia | simpl; lia |].
  exists r. split; [exact E|]. split; [lia|]. split; [exact Hbelow|].
  split; [exact Hfree|].
  intros Hlen. destruct (Z_lt_ge_dec r 5) as [Hlt|Hge]; [exact Hlt|].
  exfalso.
  assert (Hincl : incl [0; 1; 2; 3; 4] usedSlots).
  { intros k Hk. apply Hbelow. simpl in Hk. lia. }
  apply NoDup_incl_length in Hincl; [simpl in Hincl; lia|].
  repeat (constructor; [simpl; lia|]). constructor.
Qed.

(** ** The states of an online game *)

Lemma Forall_set_index {A : Type} (P : A -> Prop) (l : list A) (i : nat)
    (y : A) :
  Forall P l -> P y -> Forall P (set_index l i y).
Proof.
  intros Hl Hy. revert i. induction Hl as [|x l Hx Hl IH]; intros i.
  - destruct i; constructor.
  - destruct i as [|i]; simpl; constructor; auto.
Qed.

Lemma In_set_index_other {A : Type} (l : list A) (i : nat) (x y q : A) :
  nth_error l i = Some x -> In q l -> q <> x -> In q (set_index l i y).
Proof.
  revert i. induction l as [|a l IH]; intros i Hn Hq Hne; [destruct Hq|].
  destruct i as [|i]; simpl in *.
  - injection Hn as ->. destruct Hq as [->|Hq]; [congruence | right; exact Hq].
  - destruct Hq as [->|Hq]; [left; reflexivity|].
    right. apply (IH i); assumption.
Qed.

Lemma NoDup_map_filter {A B : Type} (f : A -> B) (g : A -> bool)
    (l : list A) :
  NoDup (map f l) -> NoDup (map f (filter g l)).
Proof.
  induction l as [|a l IH]; simpl; intros Hnd; [constructor|].
  inversion Hnd as [|? ? Hnin Hnd']; subst.
  destruct (g a); simpl; [constructor|]; auto.
  intros Hin. apply Hnin. apply in_map_iff in Hin as (x & Ex & Hx).
  apply filter_In in Hx as [Hx _]. apply in_map_iff. exists x. auto.
Qed.

Lemma seq_ids_NoDup (n : nat) : NoDup (map Z.of_nat (seq 0 n)).
Proof.
  generalize (seq_NoDup n 0). generalize (seq 0 n) as l.
  induction l as [|a l IH]; simpl; intros Hnd; [constructor|].
  inversion Hnd as [|? ? Hnin Hnd']; subst.
  constructor; [|apply IH, Hnd'].
  intros Hin. apply in_map_iff in Hin as (b & E & Hb).
  apply Nat2Z.inj in E. subst b. exact (Hnin Hb).
Qed.

Lemma seated_ids (ps : list Player) :
  seated ps -> NoDup (map player_id ps).
Proof. intros (_ & -> & _). apply seq_ids_NoDup. Qed.

(** With the ids 0, 1, ..., the player of an id sits at that index. *)
Lemma seated_lookup (ps : list Player) (p : Player) :
  map player_id ps = map Z.of_nat (seq 0 (length ps)) -> In p ps ->
  0 <= player_id p
  /\ nth_error ps (Z.to_nat (player_id p)) = Some p.
Proof.
  intros Hids Hin. apply In_nth_error in Hin as (i & Hi).
  assert (Hlt : (i < length ps)%nat)
    by (apply nth_error_Some; congruence).
  assert (E : player_id p = Z.of_nat i).
  { pose proof (map_nth_error player_id _ _ Hi) as H1.
    rewrite Hids in H1.
    rewrite (map_nth_error Z.of_nat i (seq 0 (length ps)) (d := i)) in H1.
    - congruence.
    - rewrite nth_error_nth' with (d := 0%nat) by (rewrite length_seq; lia).
      rewrite seq_nth by lia. reflexivity. }
  rewrite E, Nat2Z.id. split; [lia | exact Hi].
Qed.

Lemma find_by_id (ps : list Player) (p : Player) :
  NoDup (map player_id ps) -> In p ps ->
  find (fun q => player_id q =? player_id p) ps = Some p.
Proof.
  induction ps as [|a ps IH]; simpl; intros Hnd Hin; [destruct Hin|].
  inversion Hnd as [|? ? Hnin Hnd']; subst.
  destruct Hin as [->|Hin]; [rewrite Z.eqb_refl; reflexivity|].
  destruct (Z.eqb_spec (player_id a) (player_id p)) as [E|_];
    [|apply IH; assumption].
  exfalso. apply Hnin. rewrite E. apply in_map, Hin.
Qed.

Lemma set_index_as_map (ps : list Player) (i : nat) (p p' : Player) :
  NoDup (map player_id ps) -> nth_error ps i = Some p ->
  set_index ps i p'
  = map (fun q => if player_id q =? player_id p then p' else q) ps.
Proof.
  revert i. induction ps as [|a ps IH]; intros i Hnd Hn;
    [destruct i; discriminate|].
  inversion Hnd as [|? ? Hnin Hnd']; subst.
  destruct i as [|i]; simpl in *.
  - injection Hn as ->. rewrite Z.eqb_refl. f_equal.
    rewrite <- (map_id ps) at 1. apply map_ext_in. intros q Hq.
    destruct (Z.eqb_spec (player_id q) (player_id p)) as [E|_];
      [|reflexivity].
    exfalso. apply Hnin. rewrite <- E. apply in_map, Hq.
  - destruct (Z.eqb_spec (player_id a) (player_id p)) as [E|_].
    + exfalso. apply Hnin. rewrite E. apply in_map.
      apply nth_error_In in Hn. exact Hn.
    + f_equal. apply IH; assumption.
Qed.

(** What an accepted reveal computes. *)
Lemma revealSelectedCard_accepts (s : GameState) (playerId : Z)
    (p : Player) (pre post : list Card) (c : Card) :
  phase s = Revealing -> In playerId (waitingForPlayers s) ->
  find (fun p => player_id p =? playerId) (players s) = Some p ->
  holeCards p = pre ++ c :: post ->
  NoDup (map card_id (holeCards p)) ->
  exists i,
    nth_error (players s) i = Some p
    /\ revealSelectedCard s playerId (card_id c)
       = Ok (afterReveal s playerId (card_id c) i p c)
    /\ withReveal p (card_id c) c
       = mkPlayer (player_id p) (name p) (doorCards p) (pre ++ post)
                  (revealedHoleCards p ++ [c])
    /\ (hidden (set_index (players s) i (withReveal p (card_id c) c)) + 1
        = hidden (players s))%nat.
Proof.
  intros Hph Hw Hfind Hhole Hnd.
  destruct (findIndex_of_find _ _ _ Hfind) as (i & Hi & Hn).
  destruct (distinct_ids_split _ pre post c Hnd Hhole) as (Hci & Hc & Hf).
  exists i. split; [exact Hn|].
  assert (Hp' : withReveal p (card_id c) c
                = mkPlayer (player_id p) (name p) (doorCards p) (pre ++ post)
                           (revealedHoleCards p ++ [c]))
    by (unfold withReveal; rewrite Hf; reflexivity).
  split; [|split; [exact Hp'|]].
  - rewrite revealSelectedCard_unfold, Hph. simpl negb. cbv iota.
    rewrite (proj2 (existsb_eqb_In _ _) Hw). simpl negb. cbv iota.
    rewrite Hi, (idx_Ok _ _ _ Hn). cbn [bind].
    rewrite Hci. unfold at_index. rewrite Hc. reflexivity.
  - pose proof (hidden_set_index (players s) i p
                  (withReveal p (card_id c) c) Hn) as H.
    rewrite Hp', Hhole in H. simpl in H. rewrite !length_app in H.
    simpl in H. rewrite Hp'. lia.
Qed.

Lemma seated_set_index (ps : list Player) (i : nat) (p p' : Player) :
  seated ps -> nth_error ps i = Some p ->
  player_id p' = player_id p ->
  (5 <= length (doorCards p'))%nat ->
  NoDup (map card_id (holeCards p')) ->
  seated (set_index ps i p').
Proof.
  intros (Hne & Hids & Hdoor & Hnd) Hn Hid Hd Hh.
  split; [|split; [|split]].
  - intros E. apply (f_equal (@length _)) in E.
    rewrite set_index_length in E. destruct ps; [congruence | discriminate].
  - rewrite set_index_length, (set_index_map player_id _ _ p); assumption.
  - apply Forall_set_index; assumption.
  - apply Forall_set_index; assumption.
Qed.

Lemma seated_shows_five (ps : list Player) (p : Player) :
  seated ps -> In p ps ->
  (5 <= length (doorCards p ++ revealedHoleCards p))%nat
  /\ (5 <= length (doorCards p ++ revealedHoleCards p ++ holeCards p))%nat.
Proof.
  intros (_ & _ & Hdoor & _) Hin. rewrite Forall_forall in Hdoor.
  specialize (Hdoor p Hin). rewrite !length_app. lia.
Qed.

(** With seated players and a hole card hidden, [startRevealRound] names
    the players to wait for. *)
Lemma startRevealRound_online (s1 : GameState) :
  seated (players s1) -> phase s1 = Revealing ->
  (0 < hidden (players s1))%nat ->
  exists s',
    startRevealRound s1 = Ok s' /\ awaited s'
    /\ players s' = players s1 /\ deadCards s' = deadCards s1
    /\ currentRound s' = currentRound s1
    /\ revealHistory s' = revealHistory s1 /\ winner s' = winner s1.
Proof.
  intros Hseat Hph Hpos.
  destruct (findWeakestPlayers_spec (players s1)) as [_ Hweak].
  { intros p Hp _. apply (seated_shows_five _ p Hseat Hp). }
  destruct Hweak as (m & (p & Hin & Em) & _ & Ew).
  { apply hidden_pos_holders, Hpos. }
  remember (filter (fun p => currentStrength p =? m)
                   (filter holdsHoleCard (players s1))) as w eqn:Hw'.
  assert (Hpw : In p w).
  { rewrite Hw'. apply filter_In. split; [exact Hin|apply Z.eqb_eq, Em]. }
  assert (Hlen : (length w =? 0)%nat = false).
  { destruct w; [destruct Hpw | reflexivity]. }
  exists (mkState (players s1) (deadCards s1) Revealing (currentRound s1)
                  (revealHistory s1) (winner s1) (map player_id w)).
  split; [|split; [|repeat split]].
  - unfold startRevealRound. rewrite Hph. simpl. rewrite Ew.
    cbn [bind]. rewrite Hlen. reflexivity.
  - unfold awaited. cbn [phase players waitingForPlayers].
    split; [reflexivity|]. split; [|split].
    + destruct w; [destruct Hpw | discriminate].
    + rewrite Hw'. apply NoDup_map_filter, NoDup_map_filter.
      apply seated_ids, Hseat.
    + intros x Hx. apply in_map_iff in Hx as (q & Eq & Hq).
      rewrite Hw' in Hq. apply filter_In in Hq as [Hq _].
      apply filter_In in Hq as [Hq Hh]. exists q.
      split; [exact Hq|]. split; [exact Eq|].
      unfold holdsHoleCard in Hh. destruct (holeCards q); discriminate.
Qed.

(** The two tests that end an online action, on a state with seated
    players that still waits for somebody, or waits for nobody and is in
    phase [showdown] exactly when no hole card is hidden. *)
Lemma settleRound_online (s1 : GameState) :
  seated (players s1) ->
  awaited s1
  \/ (waitingForPlayers s1 = []
      /\ phase s1 = if (hidden (players s1) =? 0)%nat
                    then Showdown else Revealing) ->
  exists s',
    settleRound s1 = Ok s' /\ online s'
    /\ players s' = players s1 /\ deadCards s' = deadCards s1
    /\ currentRound s' = currentRound s1
    /\ revealHistory s' = revealHistory s1.
Proof.
  intros Hseat [Haw|[Hw Hph]].
  - exists s1. pose proof Haw as (Hph & Hne & _).
    split; [|split; [split; [exact Hseat | left; exact Haw]|]];
      [|repeat split].
    unfold settleRound. rewrite Hph. simpl Phase_eqb.
    destruct (waitingForPlayers s1); [congruence|]. simpl. rewrite Hph.
    reflexivity.
  - destruct (Nat.eqb_spec (hidden (players s1)) 0) as [Hz|Hnz].
    + destruct (determineWinner_max s1 Hph (proj1 Hseat)
                  (fun p Hp => proj2 (seated_shows_five _ p Hseat Hp)))
        as (m & (p & Hin & Em) & _ & Ew).
      eexists. split; [|split; [split|]].
      * unfold settleRound. rewrite Hph. simpl. rewrite Hph. simpl.
        exact Ew.
      * exact Hseat.
      * right. cbn [phase players winner waitingForPlayers].
        split; [reflexivity|]. split; [exact Hz|]. split; [exact Hw|].
        eexists. split; [reflexivity|].
        intros E.
        assert (Hp : In p (filter (fun p => finalStrength p =? m)
                                  (players s1))).
        { apply filter_In. split; [exact Hin | apply Z.eqb_eq, Em]. }
        rewrite E in Hp. destruct Hp.
      * repeat split.
    + destruct (startRevealRound_online s1 Hseat)
        as (s' & E & Haw & Hpl & Hdead & Hr & Hh & _); [exact Hph | lia |].
      exists s'. split; [|split; [split|]].
      * unfold settleRound. rewrite Hph, Hw. simpl. rewrite E. cbn [bind].
        rewrite (proj1 Haw). reflexivity.
      * rewrite Hpl. exact Hseat.
      * left. exact Haw.
      * repeat split; assumption.
Qed.

(** The state after an accepted reveal is ready for the two tests. *)
Lemma afterReveal_ready (s : GameState) (playerId : Z) (i : nat)
    (p : Player) (pre post : list Card) (c : Card) :
  seated (players s) -> awaited s -> In playerId (waitingForPlayers s) ->
  player_id p = playerId -> nth_error (players s) i = Some p ->
  holeCards p = pre ++ c :: post ->
  let s1 := afterReveal s playerId (card_id c) i p c in
  seated (players s1)
  /\ players s1 = set_index (players s) i (withReveal p (card_id c) c)
  /\ waitingForPlayers s1
     = filter (fun w => negb (w =? playerId)) (waitingForPlayers s)
  /\ deadCards s1 = deadCards s
  /\ (awaited s1
      \/ (waitingForPlayers s1 = []
          /\ phase s1 = if (hidden (players s1) =? 0)%nat
                        then Showdown else Revealing)).
Proof.
  intros Hseat (Hph & Hne & Hnd & Hhold) Hw Hid Hn Hhole s1.
  assert (Hseat1 : seated (set_index (players s) i
                                     (withReveal p (card_id c) c))).
  { pose proof (nth_error_In _ _ Hn) as Hin.
    pose proof Hseat as (_ & _ & Hdoor & Hcards).
    rewrite Forall_forall in Hdoor, Hcards.
    apply (seated_set_index _ _ p); try assumption; try reflexivity.
    - exact (Hdoor p Hin).
    - simpl. apply NoDup_map_filter, (Hcards p Hin). }
  subst s1. unfold afterReveal. cbv zeta.
  destruct (Nat.eqb_spec
              (length (filter (fun w => negb (w =? playerId))
                              (waitingForPlayers s))) 0) as [E|E];
    cbn [players deadCards waitingForPlayers phase].
  - apply length_zero_iff_nil in E.
    split; [exact Hseat1|]. split; [reflexivity|].
    split; [symmetry; exact E|]. split; [reflexivity|].
    right. split; [reflexivity|].
    destruct (forallb _ _) eqn:Eall.
    + apply all_revealed_hidden in Eall. rewrite Eall. reflexivity.
    + destruct (Nat.eqb_spec
                  (hidden (set_index (players s) i
                                     (withReveal p (card_id c) c))) 0)
        as [E0|]; [|reflexivity].
      apply all_revealed_hidden in E0. congruence.
  - split; [exact Hseat1|]. split; [reflexivity|].
    split; [reflexivity|]. split; [reflexivity|].
    left. unfold awaited. cbn [players waitingForPlayers phase].
    split; [exact Hph|]. split; [|split].
    + intros Enil. rewrite Enil in E. simpl in E. congruence.
    + apply NoDup_filter, Hnd.
    + intros w Hin. apply filter_In in Hin as [Hin Hneq].
      destruct (Hhold w Hin) as (q & Hq & Eq & Hh).
      exists q. split; [|split; assumption].
      apply (In_set_index_other _ _ p); [exact Hn | exact Hq|].
      intros ->. rewrite Hid in Eq. subst w.
      rewrite Z.eqb_refl in Hneq. discriminate.
Qed.

(** X18.  In a state of an online game under way, a reveal that is
    eligible makes [revealCardOnline] compute a state that is again a state
    of an online game under way, with exactly one hole card fewer hidden
    and the same dead cards: it is never left in phase [showdown], nor in
    phase [revealing] with nobody waited for. *)
Theorem revealCardOnline_online (s : GameState) (playerId : Z)
    (cardId : string) :
  online s -> eligible s playerId cardId ->
  exists s',
    revealCardOnline s playerId cardId = Ok s'
    /\ online s'
    /\ (hidden (players s') + 1 = hidden (players s))%nat
    /\ deadCards s' = deadCards s.
Proof.
  intros (Hseat & Hstate) (Hph & Hw & p & c & Hfind & Hc & Hcid).
  destruct Hstate as [Haw|(Hfin & _)]; [|congruence].
  apply in_split in Hc as (pre & post & Hhole).
  pose proof (find_some _ _ Hfind) as (Hin & Hid). apply Z.eqb_eq in Hid.
  assert (Hnd : NoDup (map card_id (holeCards p))).
  { destruct Hseat as (_ & _ & _ & Hcards). rewrite Forall_forall in Hcards.
    apply Hcards, Hin. }
  destruct (revealSelectedCard_accepts s playerId p pre post c
              Hph Hw Hfind Hhole Hnd) as (i & Hn & E & _ & Hhid).
  destruct (afterReveal_ready s playerId i p pre post c
              Hseat Haw Hw Hid Hn Hhole)
    as (Hseat1 & Hpl & _ & Hdead & Hready).
  destruct (settleRound_online _ Hseat1 Hready)
    as (s' & Es & Hon & Hpl' & Hdead' & _).
  exists s'. unfold revealCardOnline. rewrite <- Hcid, E. cbn [bind].
  split; [exact Es|]. split; [exact Hon|].
  rewrite Hpl', Hpl, Hdead', Hdead. split; [exact Hhid | reflexivity].
Qed.

(** X19.  In a state of an online game under way, a reveal that is not
    eligible (wrong phase, a player who is not waited for, a card that is
    not a hole card of that player) leaves the state as it is: no round is
    started and no winner named on the occasion. *)
Theorem revealCardOnline_rejected (s : GameState) (playerId : Z)
    (cardId : string) :
  online s -> ~ eligible s playerId cardId ->
  revealCardOnline s playerId cardId = Ok s.
Proof.
  intros (Hseat & Hstate) Hnot.
  destruct (revealSelectedCard_total s playerId cardId) as (s1 & E).
  assert (Hs1 : s1 = s).
  { destruct (revealSelectedCard_cases _ _ _ _ E)
      as [->|(i & p & ci & card & Hph & Hw & Hi & Hn & Hci & Hc & _)];
      [reflexivity|].
    exfalso. apply Hnot. split; [exact Hph|]. split; [exact Hw|].
    exists p, card.
    destruct (findIndex_find _ _ _ Hi) as (x & Hx & Hfind).
    assert (x = p) by congruence. subst x. split; [exact Hfind|].
    split; [apply nth_error_In in Hc; exact Hc|].
    destruct (findIndex_Some _ _ _ Hci) as (pre & x & post & El & Hlen & Hf & _).
    rewrite El, nth_error_app2, Hlen, Nat.sub_diag in Hc by lia.
    simpl in Hc. injection Hc as <-. apply String.eqb_eq, Hf. }
  subst s1. unfold revealCardOnline. rewrite E. cbn [bind].
  unfold settleRound.
  destruct Hstate as [(Hph & Hne & _)|(Hfin & _)].
  - rewrite Hph. simpl Phase_eqb.
    destruct (waitingForPlayers s); [congruence|]. simpl. rewrite Hph.
    reflexivity.
  - rewrite Hfin. simpl. rewrite Hfin. reflexivity.
Qed.

(** ** The start of an online game *)

Lemma hidden_uniform (ps : list Player) (n : nat) :
  Forall (fun p => length (holeCards p) = n) ps ->
  hidden ps = (n * length ps)%nat.
Proof.
  unfold hidden. induction 1 as [|p ps Hp _ IH]; simpl; [lia|].
  rewrite IH, Hp. lia.
Qed.

(** The deal of an online game: normal difficulty, a shuffled deck. *)
Lemma initializeGame_seated (names : list string) (deck : list Card) :
  (2 <= length names <= 5)%nat -> shuffled_deck deck ->
  exists s0,
    initializeGame names normal deck = Ok s0
    /\ seated (players s0) /\ phase s0 = Revealing
    /\ currentRound s0 = 0 /\ revealHistory s0 = [] /\ winner s0 = None
    /\ map name (players s0) = names
    /\ hidden (players s0) = (5 * length names)%nat.
Proof.
  intros Hn (Hlen & Hnd).
  rewrite initializeGame_unfold.
  replace ((length names <? 2)%nat || (5 <? length names)%nat) with false.
  2:{ symmetry. apply orb_false_iff.
      split; [apply Nat.ltb_ge | apply Nat.ltb_ge]; lia. }
  cbv zeta. eexists. split; [reflexivity|].
  cbn [players phase currentRound revealHistory winner].
  destruct (dealPlayers_spec deck (DIFFICULTY_CONFIGS normal) names 0 0)
    as (Hl & Hdoor & _ & _); [simpl; lia | simpl; lia | simpl; lia | lia |].
  destruct (dealPlayers_seats deck (DIFFICULTY_CONFIGS normal) names 0 0)
    as (Hids & Hnames & _ & _).
  pose proof (dealPlayers_distinct deck (DIFFICULTY_CONFIGS normal) names 0 0
                Hnd) as Hcards.
  assert (Hfive : Forall (fun p => length (holeCards p) = 5%nat)
                    (fst (dealPlayers deck (DIFFICULTY_CONFIGS normal)
                                      names 0 0))).
  { apply Forall_forall. intros p Hp.
    apply In_nth_error in Hp as (j & Hj).
    destruct (dealPlayers_counts deck (DIFFICULTY_CONFIGS normal) names 0 0)
      with (j := j) (p := p) as (_ & Hh); [simpl; lia | lia | exact Hj|].
    rewrite Hh. unfold seatConfig. destruct (0 + j =? 0)%nat; reflexivity. }
  split; [|repeat split; try assumption].
  - split; [|split; [|split]].
    + intros E. rewrite E in Hl. simpl in Hl. lia.
    + rewrite Hl. exact Hids.
    + exact Hdoor.
    + eapply Forall_impl; [|exact Hcards]. intros p Hp.
      unfold allCards in Hp. rewrite !map_app in Hp.
      apply NoDup_app_remove_l in Hp. apply NoDup_app_remove_r in Hp.
      exact Hp.
  - rewrite (hidden_uniform _ 5 Hfive), Hl. reflexivity.
Qed.

(** X20.  [startGame] gives no state unless the caller is the host and the
    room has 2 to 5 players.  Otherwise, on a shuffled deck, it gives a
    state of an online game under way: the room players are seated by
    ascending slot, each with five hole cards hidden, the game is in round 0
    of phase [revealing] with no history, and the players to wait for are
    already named. *)
Theorem startGame_online (isHost : bool) (roomPlayers : list RoomPlayer)
    (deck : list Card) :
  ((isHost = false \/ length roomPlayers < 2 \/ 5 < length roomPlayers)%nat ->
   startGame isHost roomPlayers deck = Ok None)
  /\ (isHost = true -> (2 <= length roomPlayers <= 5)%nat ->
      shuffled_deck deck ->
      exists s seats,
        startGame isHost roomPlayers deck = Ok (Some s)
        /\ online s /\ phase s = Revealing /\ currentRound s = 0
        /\ revealHistory s = [] /\ waitingForPlayers s <> []
        /\ Permutation seats roomPlayers
        /\ StronglySorted (fun a b => rp_slot a <= rp_slot b) seats
        /\ map name (players s) = map player_name seats
        /\ hidden (players s) = (5 * length roomPlayers)%nat).
Proof.
  split.
  - intros [->|Hn]; [reflexivity|]. unfold startGame.
    destruct isHost; [|reflexivity]. simpl negb. cbv iota.
    replace ((length roomPlayers <? 2)%nat || (5 <? length roomPlayers)%nat)
      with true; [reflexivity|].
    symmetry. apply orb_true_iff.
    destruct Hn as [Hn|Hn]; [left | right]; apply Nat.ltb_lt; exact Hn.
  - intros -> Hn Hdeck. unfold startGame. simpl negb. cbv iota.
    replace ((length roomPlayers <? 2)%nat || (5 <? length roomPlayers)%nat)
      with false.
    2:{ symmetry. apply orb_false_iff.
        split; [apply Nat.ltb_ge | apply Nat.ltb_ge]; lia. }
    cbv zeta.
    remember (sortBy (fun a b => rp_slot a - rp_slot b) roomPlayers)
      as seats eqn:Hseats.
    assert (Hlen : length (map player_name seats) = length roomPlayers).
    { rewrite length_map, Hseats. apply sortBy_length. }
    destruct (initializeGame_seated (map player_name seats) deck)
      as (s0 & -> & Hseat & Hph & Hr & Hh & _ & Hnames & Hhid);
      [lia | exact Hdeck |].
    cbn [bind].
    destruct (startRevealRound_online s0 Hseat Hph)
      as (s & -> & Haw & Hpl & _ & Hr' & Hh' & _); [lia|].
    cbn [bind]. exists s, seats. split; [reflexivity|].
    split; [split; [rewrite Hpl; exact Hseat | left; exact Haw]|].
    split; [exact (proj1 Haw)|]. split; [congruence|].
    split; [congruence|]. split; [exact (proj1 (proj2 Haw))|].
    split; [rewrite Hseats; apply sortBy_perm|].
    split.
    + rewrite Hseats.
      apply (StronglySorted_weaken
               (before (fun a b => rp_slot a - rp_slot b)));
        [unfold before; intros; lia|].
      apply sortBy_sorted; intros; lia.
    + rewrite Hpl, Hnames, Hhid, Hlen. split; reflexivity.
Qed.

Lemma startGame_online_witness :
  exists s,
    startGame true
      [mkRoomPlayer "u2" "Bob" 3 true; mkRoomPlayer "u1" "Ann" 0 true]
      standardDeck = Ok (Some s)
    /\ online s
    /\ map name (players s) = ["Ann"%string; "Bob"%string]
    /\ hidden (players s) = 10%nat.
Proof.
  destruct (proj2 (startGame_online true
              [mkRoomPlayer "u2" "Bob" 3 true; mkRoomPlayer "u1" "Ann" 0 true]
              standardDeck))
    as (s & seats & E & Hon & _ & _ & _ & _ & _ & _ & _ & Hhid).
  - reflexivity.
  - simpl. lia.
  - apply standardDeck_shuffled.
  - exists s. split; [exact E|]. split; [exact Hon|].
    split; [|exact Hhid].
    vm_compute in E. injection E as <-. reflexivity.
Defined.

(** ** Playing for the players who are offline *)

Lemma revealHead_id (p : Player) : player_id (revealHead p) = player_id p.
Proof. unfold revealHead. destruct (holeCards p); reflexivity. Qed.

Lemma filter_filter {A : Type} (f g : A -> bool) (l : list A) :
  filter f (filter g l) = filter (fun x => g x && f x) l.
Proof.
  induction l as [|a l IH]; simpl; [reflexivity|].
  destruct (g a); simpl; [destruct (f a)|]; rewrite IH; reflexivity.
Qed.

Lemma existsb_eqb_false (l : list Z) (x : Z) :
  ~ In x l -> existsb (Z.eqb x) l = false.
Proof.
  intros Hnin. destruct (existsb (Z.eqb x) l) eqn:E; [|reflexivity].
  apply existsb_exists in E as (y & Hy & Ey). apply Z.eqb_eq in Ey.
  subst y. contradiction.
Qed.

(** The loop of [autoPlayForOfflinePlayers] over slots that are waited
    for, each once. *)
Lemma autoReveal_loop (slots : list Z) (t : GameState) :
  seated (players t) ->
  awaited t
  \/ (waitingForPlayers t = []
      /\ phase t = if (hidden (players t) =? 0)%nat
                   then Showdown else Revealing) ->
  NoDup slots -> incl slots (waitingForPlayers t) ->
  exists t',
    foldM autoReveal slots t = Ok t'
    /\ seated (players t')
    /\ players t'
       = map (fun p => if existsb (Z.eqb (player_id p)) slots
                       then revealHead p else p)
             (players t)
    /\ (hidden (players t') + length slots = hidden (players t))%nat
    /\ deadCards t' = deadCards t
    /\ waitingForPlayers t'
       = filter (fun w => negb (existsb (Z.eqb w) slots))
                (waitingForPlayers t)
    /\ (awaited t'
        \/ (waitingForPlayers t' = []
            /\ phase t' = if (hidden (players t') =? 0)%nat
                          then Showdown else Revealing)).
Proof.
  revert t. induction slots as [|slot rest IH];
    intros t Hseat Hready Hnd Hincl.
  - exists t. split; [reflexivity|]. split; [exact Hseat|].
    split; [simpl; symmetry; apply map_id|].
    split; [simpl; lia|]. split; [reflexivity|].
    split; [|exact Hready].
    simpl. symmetry. apply forallb_filter_id, forallb_forall. reflexivity.
  - assert (Hslot : In slot (waitingForPlayers t))
      by (apply Hincl; left; reflexivity).
    destruct Hready as [Haw|[Hnil _]];
      [|rewrite Hnil in Hslot; destruct Hslot].
    pose proof Haw as (Hph & _ & Hndw & Hhold).
    destruct (Hhold slot Hslot) as (p & Hin & Hid & Hhole).
    pose proof Hseat as (_ & Hids & _ & Hcards).
    destruct (seated_lookup _ p Hids Hin) as (H0 & Hn).
    rewrite Hid in H0, Hn.
    destruct (holeCards p) as [|c post] eqn:Eh; [congruence|].
    assert (Hfind : find (fun q => player_id q =? slot) (players t) = Some p).
    { rewrite <- Hid. apply find_by_id; [apply seated_ids, Hseat | exact Hin]. }
    assert (Hndc : NoDup (map card_id (holeCards p))).
    { rewrite Forall_forall in Hcards. apply Hcards, Hin. }
    destruct (revealSelectedCard_accepts t slot p [] post c
                Hph Hslot Hfind Eh Hndc) as (i & Hi & E & Hp' & Hhid).
    destruct (afterReveal_ready t slot i p [] post c
                Hseat Haw Hslot Hid Hi Eh)
      as (Hseat1 & Hpl & Hw1 & Hdead & Hready1).
    apply NoDup_cons_iff in Hnd as [Hnin Hnd'].
    destruct (IH (afterReveal t slot (card_id c) i p c) Hseat1 Hready1 Hnd')
      as (t' & Ef & Hseat' & Hpl' & Hhid' & Hdead' & Hw' & Hready').
    { intros w Hw. rewrite Hw1. apply filter_In.
      split; [apply Hincl; right; exact Hw|].
      destruct (Z.eqb_spec w slot) as [->|_]; [contradiction | reflexivity]. }
    exists t'. split; [|split; [exact Hseat'|]].
    { simpl foldM. unfold autoReveal at 1.
      replace (slot <? 0) with false by (symmetry; apply Z.ltb_ge; exact H0).
      rewrite Hn, Eh, E. cbn [bind]. exact Ef. }
    assert (Ehead : withReveal p (card_id c) c = revealHead p).
    { rewrite Hp'. unfold revealHead. rewrite Eh. reflexivity. }
    split; [|split; [|split; [congruence|split; [|exact Hready']]]].
    + rewrite Hpl', Hpl, Ehead.
      rewrite (set_index_as_map _ _ p) by (try apply seated_ids; assumption).
      rewrite map_map. apply map_ext_in. intros q Hq. simpl existsb.
      rewrite Hid. destruct (Z.eqb_spec (player_id q) slot) as [Eq|Hne].
      * assert (q = p).
        { apply (NoDup_map_eq player_id (players t));
            [apply seated_ids, Hseat | exact Hq | exact Hin | congruence]. }
        subst q. rewrite revealHead_id, Hid.
        rewrite (existsb_eqb_false _ _ Hnin). reflexivity.
      * reflexivity.
    + rewrite Hpl in Hhid'. simpl length. lia.
    + rewrite Hw', Hw1, filter_filter. apply filter_ext. intros w.
      simpl existsb. rewrite negb_orb. reflexivity.
Qed.

(** [autoPlayFrom] for players picked among those who are waited for. *)
Lemma autoPlayFrom_online (pick : Z -> bool) (s : GameState) :
  online s ->
  let slots := filter pick (waitingForPlayers s) in
  (slots = [] -> autoPlayFrom slots s = Ok None)
  /\ (slots <> [] ->
      exists s',
        autoPlayFrom slots s = Ok (Some s')
        /\ online s'
        /\ players s'
           = map (fun p => if existsb (Z.eqb (player_id p)) slots
                           then revealHead p else p)
                 (players s)
        /\ (hidden (players s') + length slots = hidden (players s))%nat
        /\ deadCards s' = deadCards s).
Proof.
  intros (Hseat & Hstate) slots. unfold autoPlayFrom. split.
  - intros ->. reflexivity.
  - intros Hne.
    destruct Hstate as [Haw|(_ & _ & Hnil & _)].
    2:{ exfalso. apply Hne. unfold slots. rewrite Hnil. reflexivity. }
    assert (Hnd : NoDup slots)
      by (apply NoDup_filter; exact (proj1 (proj2 (proj2 Haw)))).
    assert (Hincl : incl slots (waitingForPlayers s)).
    { intros w Hw. apply filter_In in Hw as [Hw _]. exact Hw. }
    destruct (autoReveal_loop _ s Hseat (or_introl Haw) Hnd Hincl)
      as (t & Ef & Hseat' & Hpl & Hhid & Hdead & _ & Hready).
    destruct (settleRound_online t Hseat' Hready)
      as (s' & Es & Hon & Hpl' & Hdead' & _).
    exists s'.
    destruct slots as [|w ws] eqn:Ew; [congruence|].
    simpl Nat.eqb. cbv iota. rewrite Ef. cbn [bind]. rewrite Es.
    cbn [bind]. split; [reflexivity|]. split; [exact Hon|].
    rewrite Hpl', Hdead'. split; [exact Hpl|]. split; assumption.
Qed.

(** A small online game to run the statements on. *)
Lemma sampleOnline_online : online sampleOnline.
Proof.
  destruct (initializeGame_seated ["Ann"%string; "Bob"%string] standardDeck)
    as (s0 & E0 & Hseat & Hph & _ & _ & _ & _ & Hhid);
    [simpl; lia | apply standardDeck_shuffled |].
  destruct (startRevealRound_online s0 Hseat Hph)
    as (s & E & Haw & Hpl & _); [rewrite Hhid; simpl; lia|].
  assert (Es : s = sampleOnline).
  { vm_compute in E0. injection E0 as <-. vm_compute in E.
    injection E as <-. reflexivity. }
  rewrite <- Es. split; [rewrite Hpl; exact Hseat | left; exact Haw].
Qed.

(** X21.  In a state of an online game under way,
    [autoPlayForOfflinePlayers] gives no state when no player who is waited
    for has the slot of an offline room player.  Otherwise it reveals the
    first hole card of each of those players and of nobody else, so as many
    hole cards fewer are hidden as there are such players, and computes a
    state that is again a state of an online game under way. *)
Theorem autoPlayForOfflinePlayers_online (s : GameState)
    (roomPlayers : list RoomPlayer) :
  online s ->
  (waitingOffline s roomPlayers = [] ->
   autoPlayForOfflinePlayers s roomPlayers = Ok None)
  /\ (waitingOffline s roomPlayers <> [] ->
      exists s',
        autoPlayForOfflinePlayers s roomPlayers = Ok (Some s')
        /\ online s'
        /\ players s'
           = map (fun p =>
                    if existsb (Z.eqb (player_id p))
                               (waitingOffline s roomPlayers)
                    then revealHead p else p)
                 (players s)
        /\ (hidden (players s') + length (waitingOffline s roomPlayers)
            = hidden (players s))%nat
        /\ deadCards s' = deadCards s).
Proof.
  intros Hon. unfold autoPlayForOfflinePlayers, waitingOffline.
  apply autoPlayFrom_online, Hon.
Qed.

Lemma autoPlayForOfflinePlayers_online_witness :
  exists s',
    autoPlayForOfflinePlayers sampleOnline sampleRoom = Ok (Some s')
    /\ online s'
    /\ (hidden (players s') + 1 = hidden (players sampleOnline))%nat.
Proof.
  destruct (proj2 (autoPlayForOfflinePlayers_online sampleOnline sampleRoom
                     sampleOnline_online))
    as (s' & E & Hon & _ & Hhid & _).
  - vm_compute. discriminate.
  - exists s'. split; [exact E|]. split; [exact Hon | exact Hhid].
Defined.

(** X22.  The later version of [autoPlayForOfflinePlayers] plays as the
    first does, for the players who are waited for and whose slot no room
    player has or whose room player is not online: it gives no state when
    there is none, and otherwise reveals the first hole card of each of
    them and of nobody else and computes a state that is again a state of
    an online game under way.  Whoever the first version plays for, the
    later one plays for as well when slots are not shared. *)
Theorem autoPlayForOfflinePlayersRevised_online (s : GameState)
    (roomPlayers : list RoomPlayer) :
  online s ->
  (waitingOfflineRevised s roomPlayers = [] ->
   autoPlayForOfflinePlayersRevised s roomPlayers = Ok None)
  /\ (waitingOfflineRevised s roomPlayers <> [] ->
      exists s',
        autoPlayForOfflinePlayersRevised s roomPlayers = Ok (Some s')
        /\ online s'
        /\ players s'
           = map (fun p =>
                    if existsb (Z.eqb (player_id p))
                               (waitingOfflineRevised s roomPlayers)
                    then revealHead p else p)
                 (players s)
        /\ (hidden (players s')
            + length (waitingOfflineRevised s roomPlayers)
            = hidden (players s))%nat
        /\ deadCards s' = deadCards s)
  /\ (NoDup (map rp_slot roomPlayers) ->
      incl (waitingOffline s roomPlayers)
           (waitingOfflineRevised s roomPlayers)).
Proof.
  intros Hon. split; [|split].
  - intros E. unfold autoPlayForOfflinePlayersRevised. rewrite E.
    reflexivity.
  - unfold autoPlayForOfflinePlayersRevised, waitingOfflineRevised.
    apply (autoPlayFrom_online _ s Hon).
  - intros Hnd w Hw. unfold waitingOffline in Hw.
    apply filter_In in Hw as [Hw Hoff]. apply filter_In.
    split; [exact Hw|].
    apply existsb_exists in Hoff as (x & Hx & Ex). apply Z.eqb_eq in Ex.
    subst x. apply in_map_iff in Hx as (rp & Eslot & Hrp).
    apply filter_In in Hrp as [Hrp Hoff].
    destruct (find (fun p => rp_slot p =? w) roomPlayers) as [rp'|] eqn:Ef;
      [|reflexivity].
    apply find_some in Ef as [Hrp' Eslot']. apply Z.eqb_eq in Eslot'.
    assert (rp' = rp); [|subst rp'; exact Hoff].
    clear - Hnd Hrp Hrp' Eslot Eslot'.
    induction roomPlayers as [|a l IH]; [destruct Hrp|].
    simpl in Hnd. apply NoDup_cons_iff in Hnd as [Hnin Hnd].
    destruct Hrp as [->|Hrp], Hrp' as [->|Hrp']; try reflexivity.
    + exfalso. apply Hnin. rewrite Eslot, <- Eslot'. apply in_map, Hrp'.
    + exfalso. apply Hnin. rewrite Eslot', <- Eslot. apply in_map, Hrp.
    + apply IH; assumption.
Qed.

Lemma autoPlayForOfflinePlayersRevised_online_witness :
  exists s',
    autoPlayForOfflinePlayersRevised sampleOnline sampleRoom = Ok (Some s')
    /\ online s'
    /\ (hidden (players s') + 1 = hidden (players sampleOnline))%nat.
Proof.
  destruct (autoPlayForOfflinePlayersRevised_online sampleOnline sampleRoom
              sampleOnline_online) as (_ & Hplay & _).
  destruct Hplay as (s' & E & Hon & _ & Hhid & _).
  - vm_compute. discriminate.
  - exists s'. split; [exact E|]. split; [exact Hon | exact Hhid].
Defined.

(** X23.  [startNewGame] has no test of its own on the number of names:
    outside 2 to 5 names it throws the error of [initializeGame].  With 2
    to 5 names and a shuffled deck it computes a state of an online game
    under way, in round 0 with no history, the names seated in the order
    given and five hole cards hidden each. *)
Theorem startNewGame_online (playerNames : list string) (deck : list Card) :
  ((length playerNames < 2 \/ 5 < length playerNames)%nat ->
   startNewGame playerNames deck
   = Throw (Error "Game requires 2-5 players"))
  /\ ((2 <= length playerNames <= 5)%nat -> shuffled_deck deck ->
      exists s,
        startNewGame playerNames deck = Ok s
        /\ online s /\ phase s = Revealing /\ currentRound s = 0
        /\ revealHistory s = [] /\ winner s = None
        /\ map name (players s) = playerNames
        /\ hidden (players s) = (5 * length playerNames)%nat).
Proof.
  unfold startNewGame. split.
  - intros Hn. rewrite initializeGame_unfold.
    replace ((length playerNames <? 2)%nat || (5 <? length playerNames)%nat)
      with true; [reflexivity|].
    symmetry. apply orb_true_iff.
    destruct Hn as [Hn|Hn]; [left | right]; apply Nat.ltb_lt; exact Hn.
  - intros Hn Hdeck.
    destruct (initializeGame_seated playerNames deck Hn Hdeck)
      as (s0 & -> & Hseat & Hph & Hr & Hh & Hwin & Hnames & Hhid).
    cbn [bind].
    destruct (startRevealRound_online s0 Hseat Hph)
      as (s & -> & Haw & Hpl & _ & Hr' & Hh' & Hwin'); [lia|].
    exists s. split; [reflexivity|].
    split; [split; [rewrite Hpl; exact Hseat | left; exact Haw]|].
    split; [exact (proj1 Haw)|].
    rewrite Hpl. repeat split; congruence.
Qed.

Lemma startNewGame_online_witness :
  exists s,
    startNewGame sampleNames standardDeck = Ok s
    /\ online s /\ map name (players s) = sampleNames.
Proof.
  destruct (proj2 (startNewGame_online sampleNames standardDeck))
    as (s & E & Hon & _ & _ & _ & _ & Hnames & _).
  - simpl. lia.
  - apply standardDeck_shuffled.
  - exists s. split; [exact E|]. split; [exact Hon | exact Hnames].
Defined.

Lemma revealCardOnline_online_witness :
  exists s',
    revealCardOnline sampleOnline 1 "D4" = Ok s'
    /\ online s'
    /\ (hidden (players s') + 1 = hidden (players sampleOnline))%nat.
Proof.
  destruct (revealCardOnline_online sampleOnline 1 "D4" sampleOnline_online)
    as (s' & E & Hon & Hhid & _).
  - split; [reflexivity|]. split; [left; reflexivity|].
    eexists. eexists. split; [reflexivity|].
    split; [left; reflexivity | reflexivity].
  - exists s'. split; [exact E|]. split; [exact Hon | exact Hhid].
Defined.

Lemma revealCardOnline_rejected_witness :
  revealCardOnline sampleOnline 0 "H7" = Ok sampleOnline.
Proof.
  apply (revealCardOnline_rejected sampleOnline 0 "H7" sampleOnline_online).
  intros (_ & Hin & _). simpl in Hin. destruct Hin as [Hin|[]].
  discriminate.
Defined.
